(** * ical-skill: the iCalendar generator of [scripts/generate_ics.py]

    A shallow embedding of the serialization core (text escaping, octet-aware
    line folding, date/time/duration tokens, event validation and assembly,
    the calendar envelope) and the properties of its specification. *)

From Stdlib Require Import String Ascii DecimalString ZArith List Bool Lia.
Import ListNotations.
Local Open Scope Z_scope.

(** ** Python values

    A Python [str] is a sequence of code points and a [bytes] object a sequence
    of octets; both are lists of integers here. String literals of the source
    are ASCII and are written with [lit]. *)

Definition str := list Z.
Definition bytes := list Z.

Definition lit (s : string) : str :=
  map (fun a => Z.of_N (N_of_ascii a)) (list_ascii_of_string s).

Definition len {A : Type} (l : list A) : Z := Z.of_nat (length l).

(** The line terminator ["\r\n"] and the continuation marker ["\r\n "]. *)
Definition crlf : str := [13; 10].
Definition crlf_sp : str := [13; 10; 32].

Fixpoint str_eqb (a b : str) : bool :=
  match a, b with
  | [], [] => true
  | x :: a', y :: b' => (x =? y) && str_eqb a' b'
  | _, _ => false
  end.

(** [s.startswith(p)] *)
Fixpoint startswith (p s : str) : bool :=
  match p, s with
  | [], _ => true
  | x :: p', y :: s' => (x =? y) && startswith p' s'
  | _ :: _, [] => false
  end.

(** [p in s] *)
Fixpoint contains (p s : str) : bool :=
  match s with
  | [] => startswith p []
  | _ :: s' => startswith p s || contains p s'
  end.

(** [s.replace(old, new)]: the occurrences of [old] are found from the left
    and do not overlap. [skip] counts the characters of a matched occurrence
    that are still to be passed over. *)
Fixpoint replace_from (old new : str) (skip : nat) (s : str) : str :=
  match s with
  | [] => []
  | c :: s' =>
      match skip with
      | S k => replace_from old new k s'
      | O =>
          if startswith old s
          then new ++ replace_from old new (length old - 1) s'
          else c :: replace_from old new 0 s'
      end
  end.

Definition replace (old new s : str) : str :=
  match old with
  | [] => new ++ flat_map (fun c => c :: new) s
  | _ :: _ => replace_from old new 0 s
  end.

(** [s.split(sep)] for a non-empty separator (the only call of the source
    passes ["\r\n"]). The head of the result is the piece being read. *)
Fixpoint split_from (sep : str) (skip : nat) (s : str) : list str :=
  match s with
  | [] => [[]]
  | c :: s' =>
      match skip with
      | S k => split_from sep k s'
      | O =>
          if startswith sep s
          then [] :: split_from sep (length sep - 1) s'
          else match split_from sep 0 s' with
               | piece :: pieces => (c :: piece) :: pieces
               | [] => [[c]]
               end
      end
  end.

Definition split (sep s : str) : list str := split_from sep 0 s.

(** [sep.join(parts)] *)
Fixpoint join (sep : str) (parts : list str) : str :=
  match parts with
  | [] => []
  | p :: rest =>
      match rest with
      | [] => p
      | _ :: _ => p ++ sep ++ join sep rest
      end
  end.

(** [str(n)] for an integer, and [str.zfill] as the formatting directives of
    [strftime] use it. *)
Definition str_of_int (n : Z) : str := lit (NilZero.string_of_int (Z.to_int n)).

Definition zfill (width : nat) (s : str) : str :=
  repeat 48 (width - length s) ++ s.

(** ** Data model *)

(** An event record: the JSON object of one event, each key with the type the
    data model gives it. [None] is a key that is absent; for the keys read
    without a default it is a null value as well. *)
Record Event := {
  e_date : option str;
  e_summary : option str;
  e_time : option str;
  e_timezone : option str;
  e_reminder_minutes : option Z;
  e_duration_minutes : option Z;
  e_description : option str;
  e_location : option str;
  e_url : option str;
  e_categories : option (list str);
  e_status : option str;
  e_transp : option str;
  e_rrule : option str
}.

(** The [defaults] dictionary handed to [build_vevent]. *)
Record Defaults := {
  d_timezone : option str;
  d_reminder_minutes : option Z;
  d_duration_minutes : option Z
}.

(** The root input object. *)
Record Document := {
  doc_events : option (list Event);
  doc_timezone : option str;
  doc_reminder_minutes : option Z;
  doc_duration_minutes : option Z
}.

(** A [datetime] value, as far as the generator reads it. *)
Record DateTime := {
  dt_year : Z; dt_month : Z; dt_day : Z;
  dt_hour : Z; dt_minute : Z; dt_second : Z
}.

(** What the interpreter and its environment supply: the Unicode tables behind
    [str.lower], [str.strip] and the classes [\s], [\w] and [\d] of [re], the
    random source of [uuid.uuid4], the clock, and the rendering of a year by
    the [%Y] of the C library's [strftime], which pads a year below 1000 with
    zeros on some platforms and not on others. The two effects are read
    through the number of events built before in the run. *)
Record Runtime := {
  lower : str -> str;
  isspace : Z -> bool;
  isword : Z -> bool;
  decimal : Z -> option Z;
  uuid4_hex : nat -> str;
  utcnow : nat -> DateTime;
  strftime_year : Z -> str;
  decimal_ascii : forall c, 48 <= c <= 57 -> decimal c = Some (c - 48);
  strftime_year_four : forall y, 1000 <= y <= 9999 -> strftime_year y = str_of_int y
}.

(** Messages of the [ValueError]s. Those of the generator are text, except
    that the first one embeds [repr(event)]; the wording of those raised
    inside [datetime.strptime] is the library's. *)
Inductive message :=
| Msg (text : str)
| MsgMissingFields (event : Event)
| MsgStrptime (date_string : str).

Inductive exn :=
| ValueError (m : message)
| OverflowError
| UnicodeEncodeError
| UnicodeDecodeError.

Inductive outcome (A : Type) :=
| Ok (a : A)
| Err (e : exn).
Arguments Ok {A} a.
Arguments Err {A} e.

Definition bind {A B : Type} (m : outcome A) (k : A -> outcome B) : outcome B :=
  match m with
  | Ok a => k a
  | Err e => Err e
  end.

Definition raise {A : Type} (e : exn) : outcome A := Err e.

Notation "x <- m ;; k" := (bind m (fun x => k))
  (at level 61, m at next level, right associativity).

Fixpoint mapM {A B : Type} (f : A -> outcome B) (l : list A) : outcome (list B) :=
  match l with
  | [] => Ok []
  | a :: l' => b <- f a ;; bs <- mapM f l' ;; Ok (b :: bs)
  end.

Definition is_ok {A : Type} (m : outcome A) : bool :=
  match m with
  | Ok _ => true
  | Err _ => false
  end.

(** Truthiness of an optional string or list: [None] and the empty value are
    false. *)
Definition nonempty {A : Type} (o : option (list A)) : option (list A) :=
  match o with
  | Some (x :: l) => Some (x :: l)
  | _ => None
  end.

(** ** UTF-8 *)

(** [char.encode("utf-8")]; a surrogate cannot be encoded. *)
Definition encode_char (c : Z) : outcome bytes :=
  if c <? 0 then raise UnicodeEncodeError
  else if c <? 128 then Ok [c]
  else if c <? 2048 then Ok [192 + c / 64; 128 + c mod 64]
  else if c <? 65536 then
    if (55296 <=? c) && (c <=? 57343) then raise UnicodeEncodeError
    else Ok [224 + c / 4096; 128 + (c / 64) mod 64; 128 + c mod 64]
  else if c <? 1114112 then
    Ok [240 + c / 262144; 128 + (c / 4096) mod 64;
        128 + (c / 64) mod 64; 128 + c mod 64]
  else raise UnicodeEncodeError.

(** [s.encode("utf-8")] *)
Fixpoint encode (s : str) : outcome bytes :=
  match s with
  | [] => Ok []
  | c :: s' => b <- encode_char c ;; bs <- encode s' ;; Ok (b ++ bs)
  end.

Definition continuation (b : Z) : bool := (128 <=? b) && (b <? 192).

(** [b.decode("utf-8")], strict: overlong forms, surrogates and code points
    above U+10FFFF are rejected. *)
Fixpoint decode (b : bytes) : outcome str :=
  match b with
  | [] => Ok []
  | b0 :: r0 =>
      if (0 <=? b0) && (b0 <? 128) then
        s <- decode r0 ;; Ok (b0 :: s)
      else if (194 <=? b0) && (b0 <? 224) then
        match r0 with
        | b1 :: r1 =>
            if continuation b1
            then s <- decode r1 ;; Ok ((b0 - 192) * 64 + (b1 - 128) :: s)
            else raise UnicodeDecodeError
        | _ => raise UnicodeDecodeError
        end
      else if (224 <=? b0) && (b0 <? 240) then
        match r0 with
        | b1 :: b2 :: r2 =>
            let c := (b0 - 224) * 4096 + (b1 - 128) * 64 + (b2 - 128) in
            if continuation b1 && continuation b2 && (2048 <=? c)
               && negb ((55296 <=? c) && (c <=? 57343))
            then s <- decode r2 ;; Ok (c :: s)
            else raise UnicodeDecodeError
        | _ => raise UnicodeDecodeError
        end
      else if (240 <=? b0) && (b0 <? 245) then
        match r0 with
        | b1 :: b2 :: b3 :: r3 =>
            let c := (b0 - 240) * 262144 + (b1 - 128) * 4096
                     + (b2 - 128) * 64 + (b3 - 128) in
            if continuation b1 && continuation b2 && continuation b3
               && (65536 <=? c) && (c <? 1114112)
            then s <- decode r3 ;; Ok (c :: s)
            else raise UnicodeDecodeError
        | _ => raise UnicodeDecodeError
        end
      else raise UnicodeDecodeError
  end.

(** ** Text escaping and line folding *)

Definition escape_text (text : str) : str :=
  let text := replace [92] [92; 92] text in
  let text := replace [59] [92; 59] text in
  let text := replace [44] [92; 44] text in
  let text := replace [10] [92; 110] text in
  text.

(** The loop of [fold_line]: [result] is the list of finished chunks and
    [current] the octets of the chunk being filled. *)
Fixpoint fold_loop (line : str) (result : list str) (current : bytes)
  : outcome (list str * bytes) :=
  match line with
  | [] => Ok (result, current)
  | char :: line' =>
      char_bytes <- encode_char char ;;
      let limit := match result with [] => 75 | _ :: _ => 74 end in
      if limit <? len current + len char_bytes then
        chunk <- decode current ;;
        fold_loop line' (result ++ [chunk]) char_bytes
      else
        fold_loop line' result (current ++ char_bytes)
  end.

Definition fold_line (line : str) : outcome str :=
  encoded <- encode line ;;
  if len encoded <=? 75 then Ok line
  else
    state <- fold_loop line [] [] ;;
    let '(result, current) := state in
    result <- match current with
              | [] => Ok result
              | _ :: _ => chunk <- decode current ;; Ok (result ++ [chunk])
              end ;;
    Ok (join crlf_sp result).

Definition fold_content (content : str) : outcome str :=
  let lines := split crlf content in
  folded <- mapM fold_line lines ;;
  Ok (join crlf folded).

(** ** Date and time tokens *)

Definition format_date (date_str : str) : str := replace [45] [] date_str.

Definition format_datetime (date_str time_str : str) : str :=
  replace [45] [] date_str ++ [84] ++ replace [58] [] time_str ++ lit "00".

(** The two patterns of the validator are sequences of [\d] and literal
    characters, closed by [$]. *)
Inductive atom :=
| Digit
| Char (c : Z).

Definition isdecimal (rt : Runtime) (c : Z) : bool :=
  match decimal rt c with
  | Some _ => true
  | None => false
  end.

Fixpoint match_atoms (rt : Runtime) (pattern : list atom) (s : str) : option str :=
  match pattern with
  | [] => Some s
  | a :: pattern' =>
      match s with
      | [] => None
      | c :: s' =>
          if match a with
             | Digit => isdecimal rt c
             | Char x => c =? x
             end
          then match_atoms rt pattern' s'
          else None
      end
  end.

(** [$] holds at the end of the string and just before a final newline. *)
Definition at_end (s : str) : bool :=
  match s with
  | [] => true
  | [10] => true
  | _ => false
  end.

(** [re.match(pattern + "$", s)] as a truth value *)
Definition re_match (rt : Runtime) (pattern : list atom) (s : str) : bool :=
  match match_atoms rt pattern s with
  | Some rest => at_end rest
  | None => false
  end.

(** [^\d{4}-\d{2}-\d{2}$] and [^\d{2}:\d{2}$] *)
Definition date_pattern : list atom :=
  [Digit; Digit; Digit; Digit; Char 45; Digit; Digit; Char 45; Digit; Digit].
Definition time_pattern : list atom :=
  [Digit; Digit; Char 58; Digit; Digit].

(** The proleptic Gregorian calendar of [datetime]. *)
Definition is_leap (year : Z) : bool :=
  (year mod 4 =? 0) && (negb (year mod 100 =? 0) || (year mod 400 =? 0)).

Definition days_in_month (year month : Z) : Z :=
  if month =? 2 then (if is_leap year then 29 else 28)
  else if (month =? 4) || (month =? 6) || (month =? 9) || (month =? 11) then 30
  else 31.

Definition in_range (lo hi c : Z) : bool := (lo <=? c) && (c <=? hi).

(** The directives of [strptime] are regular expressions with alternatives,
    tried in order: [%m] is [1[0-2]|0[1-9]|[1-9]] and [%d] is
    [3[0-1]|[1-2]\d|0[1-9]|[1-9]| [1-9]]. Each function lists, in that order,
    the value and the rest of the input for the alternatives that match. *)
Definition month_alternatives (s : str) : list (Z * str) :=
  match s with
  | a :: b :: r =>
      (if (a =? 49) && in_range 48 50 b then [(10 + (b - 48), r)] else [])
      ++ (if (a =? 48) && in_range 49 57 b then [(b - 48, r)] else [])
  | _ => []
  end
  ++ match s with
     | a :: r => if in_range 49 57 a then [(a - 48, r)] else []
     | [] => []
     end.

Definition day_alternatives (rt : Runtime) (s : str) : list (Z * str) :=
  match s with
  | a :: b :: r =>
      (if (a =? 51) && in_range 48 49 b then [(30 + (b - 48), r)] else [])
      ++ (if in_range 49 50 a
          then match decimal rt b with
               | Some v => [(10 * (a - 48) + v, r)]
               | None => []
               end
          else [])
      ++ (if (a =? 48) && in_range 49 57 b then [(b - 48, r)] else [])
  | _ => []
  end
  ++ match s with
     | a :: r => if in_range 49 57 a then [(a - 48, r)] else []
     | [] => []
     end
  ++ match s with
     | a :: b :: r => if (a =? 32) && in_range 49 57 b then [(b - 48, r)] else []
     | _ => []
     end.

(** The first element of a list on which [f] gives a result: the order in
    which a backtracking matcher explores alternatives. *)
Fixpoint first_some {A B : Type} (f : A -> option B) (l : list A) : option B :=
  match l with
  | [] => None
  | a :: l' =>
      match f a with
      | Some b => Some b
      | None => first_some f l'
      end
  end.

(** [datetime.strptime(s, "%Y-%m-%d")], read as year, month and day. The
    format matches a prefix of [s]; input left over, a year outside 1..9999
    and a day the month does not have are errors. *)
Definition strptime (rt : Runtime) (s : str) : outcome (Z * Z * Z) :=
  match s with
  | y1 :: y2 :: y3 :: y4 :: 45 :: r =>
      match decimal rt y1, decimal rt y2, decimal rt y3, decimal rt y4 with
      | Some a, Some b, Some c, Some d =>
          let year := 1000 * a + 100 * b + 10 * c + d in
          match first_some
                  (fun mr : Z * str =>
                     match snd mr with
                     | 45 :: r' =>
                         match day_alternatives rt r' with
                         | dr :: _ => Some (fst mr, dr)
                         | [] => None
                         end
                     | _ => None
                     end)
                  (month_alternatives r) with
          | Some (month, (day, [])) =>
              if (1 <=? year) && (year <=? 9999)
                 && (1 <=? day) && (day <=? days_in_month year month)
              then Ok (year, month, day)
              else raise (ValueError (MsgStrptime s))
          | _ => raise (ValueError (MsgStrptime s))
          end
      | _, _, _, _ => raise (ValueError (MsgStrptime s))
      end
  | _ => raise (ValueError (MsgStrptime s))
  end.

(** [d + timedelta(days=1)]: the day after, out of range after 9999-12-31. *)
Definition add_one_day (d : Z * Z * Z) : outcome (Z * Z * Z) :=
  let '(year, month, day) := d in
  if day + 1 <=? days_in_month year month then Ok (year, month, day + 1)
  else if month + 1 <=? 12 then Ok (year, month + 1, 1)
  else if year + 1 <=? 9999 then Ok (year + 1, 1, 1)
  else raise OverflowError.

(** [d.strftime("%Y%m%d")]: the year as the platform renders it, the month
    and the day on two digits. *)
Definition strftime_date (rt : Runtime) (d : Z * Z * Z) : str :=
  let '(year, month, day) := d in
  strftime_year rt year ++ zfill 2 (str_of_int month)
  ++ zfill 2 (str_of_int day).

(** [t.strftime("%Y%m%dT%H%M%SZ")] *)
Definition strftime_stamp (rt : Runtime) (t : DateTime) : str :=
  strftime_date rt (dt_year t, dt_month t, dt_day t) ++ [84]
  ++ zfill 2 (str_of_int (dt_hour t)) ++ zfill 2 (str_of_int (dt_minute t))
  ++ zfill 2 (str_of_int (dt_second t)) ++ [90].

(** The duration token, computed twice in [build_vevent]: with the prefix
    ["PT"] for DURATION and ["-PT"] for the trigger of the alarm. *)
Definition duration_parts (prefix : str) (total : Z) : str :=
  let hours := total / 60 in
  let mins := total mod 60 in
  let parts := prefix in
  let parts := if negb (hours =? 0) then parts ++ str_of_int hours ++ [72] else parts in
  let parts := if negb (mins =? 0) then parts ++ str_of_int mins ++ [77] else parts in
  let parts := if (hours =? 0) && (mins =? 0) then parts ++ lit "0M" else parts in
  parts.

(** ** Identifiers *)

Fixpoint lstrip (rt : Runtime) (s : str) : str :=
  match s with
  | [] => []
  | c :: s' => if isspace rt c then lstrip rt s' else s
  end.

(** [s.strip()] *)
Definition strip (rt : Runtime) (s : str) : str :=
  rev (lstrip rt (rev (lstrip rt s))).

(** [re.sub] of a class repeated one or more times: every maximal run of
    characters of the class becomes [new]. *)
Fixpoint sub_runs (class : Z -> bool) (new : str) (in_run : bool) (s : str) : str :=
  match s with
  | [] => []
  | c :: s' =>
      if class c
      then (if in_run then [] else new) ++ sub_runs class new true s'
      else c :: sub_runs class new false s'
  end.

Definition slugify (rt : Runtime) (text : str) : str :=
  let slug := filter (fun c => isword rt c || isspace rt c || (c =? 45))
                     (strip rt (lower rt text)) in
  firstn 40 (sub_runs (fun c => isspace rt c || (c =? 95)) [45] false slug).

Definition generate_uid (rt : Runtime) (n : nat) (summary date : str) : str :=
  let short_uuid := firstn 8 (uuid4_hex rt n) in
  let slug := slugify rt summary in
  slug ++ [45] ++ date ++ [45] ++ short_uuid ++ lit "@claude".

(** ** Building one event *)

(** [x in (a, b, ...)] for strings *)
Definition member (x : str) (l : list str) : bool := existsb (str_eqb x) l.

(** The blocks of [build_vevent] that append to [lines], each as the list of
    lines it appends. The first is the branch on [is_allday]. *)
Definition temporal_lines (rt : Runtime) (summary date : str) (time tz : option str)
  (duration : Z) : outcome (list str) :=
  match time with
  | None =>
      dt_date <- strptime rt date ;;
      next <- add_one_day dt_date ;;
      let next_day := strftime_date rt next in
      Ok [lit "DTSTART;VALUE=DATE:" ++ format_date date;
          lit "DTEND;VALUE=DATE:" ++ next_day]
  | Some time =>
      match nonempty tz with
      | None =>
          raise (ValueError (Msg (lit "Event '" ++ summary
            ++ lit "' has a time but no timezone. Set 'timezone' at root level or per event.")))
      | Some tz =>
          let dt_str := format_datetime date time in
          Ok ([lit "DTSTART;TZID=" ++ tz ++ [58] ++ dt_str]
              ++ if negb (duration =? 0)
                 then [lit "DURATION:" ++ duration_parts (lit "PT") duration]
                 else [])
      end
  end.

(** [if value: lines.append(name + format(value))] *)
Definition optional_line (name : str) (format : str -> str) (value : option str)
  : list str :=
  match nonempty value with
  | Some v => [name ++ format v]
  | None => []
  end.

(** The same for [status] and [transp], whose value has to be one of
    [allowed]. *)
Definition checked_line (name : str) (allowed : list str) (error : str -> message)
  (value : option str) : outcome (list str) :=
  match nonempty value with
  | Some v =>
      if negb (member v allowed) then raise (ValueError (error v))
      else Ok [name ++ v]
  | None => Ok []
  end.

Definition status_values : list str :=
  [lit "TENTATIVE"; lit "CONFIRMED"; lit "CANCELLED"].
Definition transp_values : list str := [lit "OPAQUE"; lit "TRANSPARENT"].

Definition status_error (status : str) : message :=
  Msg (lit "Invalid status '" ++ status
       ++ lit "', expected TENTATIVE/CONFIRMED/CANCELLED").
Definition transp_error (transp : str) : message :=
  Msg (lit "Invalid transp '" ++ transp ++ lit "', expected OPAQUE/TRANSPARENT").

Definition alarm_lines (reminder : Z) : list str :=
  if 0 <? reminder
  then [lit "BEGIN:VALARM";
        lit "TRIGGER:" ++ duration_parts (lit "-PT") reminder;
        lit "ACTION:DISPLAY";
        lit "DESCRIPTION:Reminder";
        lit "END:VALARM"]
  else [].

(** [if time and not re.match(..., time): raise ...] *)
Definition check_time (rt : Runtime) (time : option str) : outcome unit :=
  match nonempty time with
  | Some t =>
      if negb (re_match rt time_pattern t)
      then raise (ValueError (Msg (lit "Invalid time format '" ++ t
                                   ++ lit "', expected HH:MM")))
      else Ok tt
  | None => Ok tt
  end.

(** [event.get("timezone", defaults.get("timezone"))], and the same for the
    reminder and the duration, whose last resorts are 0 and 60. *)
Definition resolved_timezone (event : Event) (defaults : Defaults) : option str :=
  match e_timezone event with
  | Some t => Some t
  | None => d_timezone defaults
  end.

Definition effective_reminder (event : Event) (defaults : Defaults) : Z :=
  match e_reminder_minutes event with
  | Some r => r
  | None => match d_reminder_minutes defaults with
            | Some r => r
            | None => 0
            end
  end.

Definition effective_duration (event : Event) (defaults : Defaults) : Z :=
  match e_duration_minutes event with
  | Some d => d
  | None => match d_duration_minutes defaults with
            | Some d => d
            | None => 60
            end
  end.

(** [lines] at the end of [build_vevent]. [n] is the number of events built
    before in the run: it selects the clock reading and the random draw. *)
Definition vevent_lines (rt : Runtime) (n : nat) (event : Event) (defaults : Defaults)
  : outcome (list str) :=
  match nonempty (e_date event), nonempty (e_summary event) with
  | Some date, Some summary =>
      if negb (re_match rt date_pattern date) then
        raise (ValueError (Msg (lit "Invalid date format '" ++ date
                                ++ lit "', expected YYYY-MM-DD")))
      else
      let time := e_time event in
      checked <- check_time rt time ;;
      let tz := resolved_timezone event defaults in
      let reminder := effective_reminder event defaults in
      let duration := effective_duration event defaults in
      let dtstamp := strftime_stamp rt (utcnow rt n) in
      let uid := generate_uid rt n summary date in
      let lines := [lit "BEGIN:VEVENT"; lit "UID:" ++ uid; lit "DTSTAMP:" ++ dtstamp] in
      temporal <- temporal_lines rt summary date time tz duration ;;
      let lines := lines ++ temporal in
      let lines := lines ++ [lit "SUMMARY:" ++ escape_text summary] in
      let lines := lines ++ optional_line (lit "DESCRIPTION:") escape_text
                             (e_description event) in
      let lines := lines ++ optional_line (lit "LOCATION:") escape_text
                             (e_location event) in
      let lines := lines ++ optional_line (lit "URL:") (fun url => url) (e_url event) in
      let lines := lines ++ match nonempty (e_categories event) with
                            | Some categories => [lit "CATEGORIES:" ++ join [44] categories]
                            | None => []
                            end in
      status <- checked_line (lit "STATUS:") status_values status_error
                  (e_status event) ;;
      let lines := lines ++ status in
      transp <- checked_line (lit "TRANSP:") transp_values transp_error
                  (e_transp event) ;;
      let lines := lines ++ transp in
      let lines := lines ++ optional_line (lit "RRULE:") (fun rrule => rrule)
                             (e_rrule event) in
      let lines := lines ++ alarm_lines reminder in
      Ok (lines ++ [lit "END:VEVENT"])
  | _, _ => raise (ValueError (MsgMissingFields event))
  end.

Definition build_vevent (rt : Runtime) (n : nat) (event : Event) (defaults : Defaults)
  : outcome str :=
  lines <- vevent_lines rt n event defaults ;;
  Ok (join crlf lines).

(** ** Building the document *)

(** The loop of [generate_ics] over the events, from the [n]-th on. *)
Fixpoint build_events (rt : Runtime) (n : nat) (events : list Event)
  (defaults : Defaults) (lines : list str) : outcome (list str) :=
  match events with
  | [] => Ok lines
  | event :: events' =>
      block <- build_vevent rt n event defaults ;;
      build_events rt (S n) events' defaults (lines ++ [block])
  end.

Definition calendar_header : list str :=
  [lit "BEGIN:VCALENDAR"; lit "VERSION:2.0"; lit "PRODID:-//Claude//EN";
   lit "CALSCALE:GREGORIAN"; lit "METHOD:PUBLISH"].

Definition document_defaults (data : Document) : Defaults :=
  {| d_timezone := doc_timezone data;
     d_reminder_minutes :=
       Some match doc_reminder_minutes data with Some r => r | None => 0 end;
     d_duration_minutes :=
       Some match doc_duration_minutes data with Some d => d | None => 60 end |}.

Definition generate_ics (rt : Runtime) (data : Document) : outcome str :=
  match nonempty (doc_events data) with
  | None => raise (ValueError (Msg (lit "JSON must contain a non-empty 'events' array")))
  | Some events =>
      let defaults := document_defaults data in
      let lines := calendar_header in
      lines <- build_events rt 0 events defaults lines ;;
      let lines := lines ++ [lit "END:VCALENDAR"] in
      let content := join crlf lines in
      fold_content content
  end.

(** ** Notions of the specification *)

(** Unescaping as the specification words it: the reverse substitutions in
    reverse order. *)
Definition unescape_text (text : str) : str :=
  let text := replace [92; 110] [10] text in
  let text := replace [92; 44] [44] text in
  let text := replace [92; 59] [59] text in
  let text := replace [92; 92] [92] text in
  text.

(** Unfolding: every line terminator followed by a single space is removed. *)
Definition unfold_line (s : str) : str := replace crlf_sp [] s.

(** The number of octets of a character in UTF-8. *)
Definition utf8_width (c : Z) : Z :=
  if c <? 128 then 1 else if c <? 2048 then 2 else if c <? 65536 then 3 else 4.

Definition utf8_length (s : str) : Z := fold_right (fun c n => utf8_width c + n) 0 s.

(** A division into chunks is greedy when the first character of each chunk
    did not fit into the chunk before it; the first chunk has room for
    [limit] octets and the others for 74. *)
Fixpoint greedy (limit : Z) (chunks : list str) : Prop :=
  match chunks with
  | chunk :: chunks' =>
      match chunks' with
      | [] => True
      | [] :: _ => False
      | (c :: _) :: _ => limit < utf8_length chunk + utf8_width c /\ greedy 74 chunks'
      end
  | [] => True
  end.

(** The greedy division of [line], read after the characters [cur] of the
    chunk being filled: the finished chunks and the last one. *)
Fixpoint chunking (limit : Z) (cur line : str) : list str * str :=
  match line with
  | [] => ([], cur)
  | c :: line' =>
      if limit <? utf8_length cur + utf8_width c
      then let '(finished, last) := chunking 74 [c] line' in (cur :: finished, last)
      else chunking limit (cur ++ [c]) line'
  end.

(** The first chunk has at most [limit] octets and the others at most 74. *)
Definition bounded (limit : Z) (chunks : list str) : Prop :=
  match chunks with
  | [] => True
  | first :: others =>
      utf8_length first <= limit /\ Forall (fun chunk => utf8_length chunk <= 74) others
  end.

Definition is_some {A : Type} (o : option A) : bool :=
  match o with
  | Some _ => true
  | None => false
  end.

(** The rules of the validator, as [build_vevent] checks them. *)
Definition validated (rt : Runtime) (event : Event) (defaults : Defaults) : bool :=
  match nonempty (e_date event) with
  | Some date => re_match rt date_pattern date
  | None => false
  end
  && is_some (nonempty (e_summary event))
  && match nonempty (e_time event) with
     | Some t => re_match rt time_pattern t
     | None => true
     end
  && match e_time event with
     | Some _ => is_some (nonempty (resolved_timezone event defaults))
     | None => true
     end
  && match nonempty (e_status event) with
     | Some status => member status status_values
     | None => true
     end
  && match nonempty (e_transp event) with
     | Some transp => member transp transp_values
     | None => true
     end.

(** Calendar dates: a year from 1 to 9999, a month and a day the month has. *)
Definition valid_date (d : Z * Z * Z) : Prop :=
  let '(year, month, day) := d in
  1 <= year <= 9999 /\ 1 <= month <= 12 /\ 1 <= day <= days_in_month year month.

Definition date_year (d : Z * Z * Z) : Z := fst (fst d).

(** The effective value of a number of minutes, as the specification words
    it: that of the event when the event has one, else the one inherited
    from the defaults, else [fallback]. *)
Definition inherited_minutes (own inherited : option Z) (fallback : Z) : Z :=
  match own, inherited with
  | Some minutes, _ => minutes
  | None, Some minutes => minutes
  | None, None => fallback
  end.

Definition digits2 (n : Z) : str := [48 + n / 10; 48 + n mod 10].
Definition digits4 (n : Z) : str :=
  [48 + n / 1000; 48 + (n / 100) mod 10; 48 + (n / 10) mod 10; 48 + n mod 10].

(** The text [YYYY-MM-DD] of a date and its token [YYYYMMDD]. *)
Definition iso_date (d : Z * Z * Z) : str :=
  let '(year, month, day) := d in
  digits4 year ++ [45] ++ digits2 month ++ [45] ++ digits2 day.

Definition date_token (d : Z * Z * Z) : str :=
  let '(year, month, day) := d in
  digits4 year ++ digits2 month ++ digits2 day.

(** The number of a day, counted from 0001-01-01. *)
Definition days_before_year (year : Z) : Z :=
  let y := year - 1 in
  y * 365 + y / 4 - y / 100 + y / 400.

Fixpoint days_before_month_from (year : Z) (month : nat) : Z :=
  match month with
  | O => 0
  | S k => days_before_month_from year k + days_in_month year (Z.of_nat k + 1)
  end.

Definition ordinal (d : Z * Z * Z) : Z :=
  let '(year, month, day) := d in
  days_before_year year + days_before_month_from year (Z.to_nat (month - 1)) + day.

(** A line of the property [name] occurs in [lines]. *)
Definition has_line (name : str) (lines : list str) : bool :=
  existsb (startswith name) lines.

(** What the specification says of the lines of an event with a time, given
    its effective duration and reminder. *)
Definition duration_and_alarm (duration reminder : Z) (lines : list str) : Prop :=
  has_line (lit "DURATION:") lines = (0 <? duration)
  /\ (0 < duration ->
      In (lit "DURATION:" ++ duration_parts (lit "PT") duration) lines)
  /\ has_line (lit "BEGIN:VALARM") lines = (0 <? reminder)
  /\ has_line (lit "TRIGGER:") lines = (0 <? reminder)
  /\ (0 < reminder ->
      exists before,
        lines = before
                ++ [lit "BEGIN:VALARM";
                    lit "TRIGGER:" ++ [45] ++ duration_parts (lit "PT") reminder;
                    lit "ACTION:DISPLAY"; lit "DESCRIPTION:Reminder";
                    lit "END:VALARM"; lit "END:VEVENT"]).

(** Two names differ at a position that both have. *)
Fixpoint differ (a b : str) : bool :=
  match a, b with
  | x :: a', y :: b' => negb (x =? y) || differ a' b'
  | _, _ => false
  end.

(** The lines of an event in their fixed order, given the lines of its
    temporal block and of its status and transparency. *)
Definition event_layout (uid dtstamp : str) (temporal : list str) (summary : str)
  (event : Event) (status transp : list str) (reminder : Z) : list str :=
  [lit "BEGIN:VEVENT"; lit "UID:" ++ uid; lit "DTSTAMP:" ++ dtstamp]
  ++ temporal
  ++ [lit "SUMMARY:" ++ escape_text summary]
  ++ optional_line (lit "DESCRIPTION:") escape_text (e_description event)
  ++ optional_line (lit "LOCATION:") escape_text (e_location event)
  ++ optional_line (lit "URL:") (fun url => url) (e_url event)
  ++ match nonempty (e_categories event) with
     | Some categories => [lit "CATEGORIES:" ++ join [44] categories]
     | None => []
     end
  ++ status
  ++ transp
  ++ optional_line (lit "RRULE:") (fun rrule => rrule) (e_rrule event)
  ++ alarm_lines reminder
  ++ [lit "END:VEVENT"].

(** The lines of an event between BEGIN:VEVENT and END:VEVENT. *)
Definition event_middle (uid dtstamp : str) (temporal : list str) (summary : str)
  (event : Event) (status transp : list str) (reminder : Z) : list str :=
  [lit "UID:" ++ uid; lit "DTSTAMP:" ++ dtstamp]
  ++ temporal
  ++ [lit "SUMMARY:" ++ escape_text summary]
  ++ optional_line (lit "DESCRIPTION:") escape_text (e_description event)
  ++ optional_line (lit "LOCATION:") escape_text (e_location event)
  ++ optional_line (lit "URL:") (fun url => url) (e_url event)
  ++ match nonempty (e_categories event) with
     | Some categories => [lit "CATEGORIES:" ++ join [44] categories]
     | None => []
     end
  ++ status
  ++ transp
  ++ optional_line (lit "RRULE:") (fun rrule => rrule) (e_rrule event)
  ++ alarm_lines reminder.

(** The shapes of the temporal block: a start and an end date; a start
    date-time; a start date-time and a duration. *)
Definition temporal_shape (temporal : list str) : Prop :=
  (exists first next,
     temporal = [lit "DTSTART;VALUE=DATE:" ++ first; lit "DTEND;VALUE=DATE:" ++ next])
  \/ (exists start, temporal = [lit "DTSTART;TZID=" ++ start])
  \/ (exists start token,
        temporal = [lit "DTSTART;TZID=" ++ start; lit "DURATION:" ++ token]).

(** No line, or the one line of a property. *)
Definition at_most_one (name : str) (lines : list str) : Prop :=
  lines = [] \/ exists value, lines = [name ++ value].

(** The text fields of an event record, to set one of them. *)
Inductive field :=
| Fdate | Fsummary | Ftime | Ftimezone | Fdescription | Flocation | Furl
| Fstatus | Ftransp | Frrule.

Definition set_field (f : field) (v : option str) (e : Event) : Event :=
  {| e_date := match f with Fdate => v | _ => e_date e end;
     e_summary := match f with Fsummary => v | _ => e_summary e end;
     e_time := match f with Ftime => v | _ => e_time e end;
     e_timezone := match f with Ftimezone => v | _ => e_timezone e end;
     e_reminder_minutes := e_reminder_minutes e;
     e_duration_minutes := e_duration_minutes e;
     e_description := match f with Fdescription => v | _ => e_description e end;
     e_location := match f with Flocation => v | _ => e_location e end;
     e_url := match f with Furl => v | _ => e_url e end;
     e_categories := e_categories e;
     e_status := match f with Fstatus => v | _ => e_status e end;
     e_transp := match f with Ftransp => v | _ => e_transp e end;
     e_rrule := match f with Frrule => v | _ => e_rrule e end |}.

Definition set_categories (v : option (list str)) (e : Event) : Event :=
  {| e_date := e_date e; e_summary := e_summary e; e_time := e_time e;
     e_timezone := e_timezone e;
     e_reminder_minutes := e_reminder_minutes e;
     e_duration_minutes := e_duration_minutes e;
     e_description := e_description e; e_location := e_location e;
     e_url := e_url e; e_categories := v; e_status := e_status e;
     e_transp := e_transp e; e_rrule := e_rrule e |}.

(** The image of one character under escaping, when the characters of
    [specials] are the ones escaped. *)
Definition escape_image (specials : list Z) (c : Z) : str :=
  if existsb (Z.eqb c) specials
  then [92; if c =? 10 then 110 else c]
  else [c].

(** ** A runtime for worked examples

    Tables restricted to ASCII, a fixed identifier, a fixed clock, and the
    year rendered without padding, as glibc does. *)
Definition ascii_decimal (c : Z) : option Z :=
  if in_range 48 57 c then Some (c - 48) else None.

Definition ascii_decimal_digits :
  forall c, 48 <= c <= 57 -> ascii_decimal c = Some (c - 48).
Proof.
  intros c Hc. unfold ascii_decimal, in_range.
  destruct (Z.leb_spec 48 c); destruct (Z.leb_spec c 57); simpl; try lia; reflexivity.
Qed.

Definition ascii_runtime : Runtime :=
  {| lower := map (fun c => if in_range 65 90 c then c + 32 else c);
     isspace := fun c => in_range 9 13 c || in_range 28 32 c;
     isword := fun c => in_range 48 57 c || in_range 65 90 c
                        || in_range 97 122 c || (c =? 95);
     decimal := ascii_decimal;
     uuid4_hex := fun _ => lit "3f2b8c1d9e4a4f6b8a7c5d2e1f0a9b8c";
     utcnow := fun _ => {| dt_year := 2024; dt_month := 5; dt_day := 17;
                           dt_hour := 8; dt_minute := 30; dt_second := 5 |};
     strftime_year := str_of_int;
     decimal_ascii := ascii_decimal_digits;
     strftime_year_four := fun y _ => eq_refl |}.

(** An event record with every key absent, and the records of the examples
    of the specification. *)
Definition no_event : Event :=
  {| e_date := None; e_summary := None; e_time := None; e_timezone := None;
     e_reminder_minutes := None; e_duration_minutes := None;
     e_description := None; e_location := None; e_url := None;
     e_categories := None; e_status := None; e_transp := None; e_rrule := None |}.

Definition no_defaults : Defaults :=
  {| d_timezone := None; d_reminder_minutes := None; d_duration_minutes := None |}.

Definition allday_event (date summary : str) : Event :=
  set_field Fsummary (Some summary) (set_field Fdate (Some date) no_event).

Definition sync_event : Event :=
  {| e_date := Some (lit "2024-06-01"); e_summary := Some (lit "Sync");
     e_time := Some (lit "09:00"); e_timezone := Some (lit "UTC");
     e_reminder_minutes := Some 15; e_duration_minutes := Some 30;
     e_description := None; e_location := None; e_url := None;
     e_categories := None; e_status := None; e_transp := None; e_rrule := None |}.

Definition utc_defaults : Defaults :=
  {| d_timezone := Some (lit "UTC"); d_reminder_minutes := Some 0;
     d_duration_minutes := Some 60 |}.

(** An event with a time that sets its own duration and inherits its time
    zone and its reminder, and the defaults it is built with. *)
Definition standup_event : Event :=
  {| e_date := Some (lit "2024-06-01"); e_summary := Some (lit "Standup");
     e_time := Some (lit "09:00"); e_timezone := None;
     e_reminder_minutes := None; e_duration_minutes := Some 30;
     e_description := None; e_location := None; e_url := None;
     e_categories := None; e_status := None; e_transp := None; e_rrule := None |}.

Definition reminder_defaults : Defaults :=
  {| d_timezone := Some (lit "UTC"); d_reminder_minutes := Some 15;
     d_duration_minutes := Some 60 |}.

(** Documents: one of two events, and one whose second event has a status
    outside the enumeration. *)
Definition document_of (events : list Event) : Document :=
  {| doc_events := Some events; doc_timezone := None;
     doc_reminder_minutes := None; doc_duration_minutes := None |}.

Definition two_events : Document :=
  document_of [sync_event; allday_event (lit "2024-03-10") (lit "Launch")].

Definition second_fails : Document :=
  document_of [sync_event; set_field Fstatus (Some (lit "MAYBE")) sync_event;
               set_field Fdate (Some (lit "bad")) sync_event].

(** A record whose url holds line terminators. *)
Definition injected_url : Document :=
  document_of
    [set_field Furl
       (Some (lit "x" ++ crlf ++ lit "END:VEVENT" ++ crlf ++ lit "BEGIN:VEVENT"))
       (allday_event (lit "2024-03-10") (lit "Launch"))].

(** A line of thirty euro signs, ninety octets in UTF-8, and its encoding. *)
Definition euro_line : str := repeat 8364 30.
Definition euro_bytes : bytes := concat (repeat [226; 130; 172] 30).

(** ** Further notions *)

(** Unescaping by one scan from the left: a backslash gives the character
    after it its meaning. *)
Fixpoint unescape_scan (s : str) : str :=
  match s with
  | [] => []
  | c :: r =>
      if c =? 92
      then match r with
           | d :: r' => (if d =? 110 then 10 else d) :: unescape_scan r'
           | [] => [c]
           end
      else c :: unescape_scan r
  end.

(** The lines of a text as they are written: the pieces between line
    terminators. *)
Definition physical_lines (text : str) : list str := split crlf text.

(** The lines that a folded line is written on: no line holds a line
    terminator, each can be encoded and has at most 75 octets. *)
Definition written (lines : list str) : Prop :=
  lines <> []
  /\ Forall (fun l => contains crlf l = false) lines
  /\ Forall (fun l => exists b, encode l = Ok b /\ len b <= 75) lines.

(** A character that an atom of a pattern accepts. *)
Definition atom_accepts (rt : Runtime) (a : atom) (c : Z) : Prop :=
  match a with
  | Digit => isdecimal rt c = true
  | Char x => c = x
  end.

(** A document of three lines, the second longer than 75 octets, and a
    document whose lines are short. *)
Definition euro_document : str :=
  join crlf [lit "BEGIN:VCALENDAR"; lit "SUMMARY:" ++ euro_line; lit "END:VCALENDAR"].

Definition short_document : str :=
  join crlf [lit "BEGIN:VCALENDAR"; lit "VERSION:2.0"; lit "END:VCALENDAR"].

(** The text [HH:MM] of a time of day and its token [HHMM00]. *)
Definition iso_time (h mi : Z) : str := digits2 h ++ [58] ++ digits2 mi.
Definition time_token (h mi : Z) : str := digits2 h ++ digits2 mi ++ lit "00".

(** A document of one all-day event, with the defaults of the root object. *)
Definition allday_document (tz : option str) (duration : option Z) : Document :=
  {| doc_events := Some [allday_event (lit "2024-03-10") (lit "Launch")];
     doc_timezone := tz; doc_reminder_minutes := Some 15;
     doc_duration_minutes := duration |}.

(** * Properties *)

(** ** Strings *)

Lemma flat_map_compose {A B C : Type} (f : A -> list B) (g : B -> list C) (l : list A) :
  flat_map g (flat_map f l) = flat_map (fun a => flat_map g (f a)) l.
Proof.
  induction l as [|a l IH]; simpl; [reflexivity|].
  rewrite flat_map_app, IH. reflexivity.
Qed.

Lemma replace_char (a : Z) (new s : str) :
  replace [a] new s = flat_map (fun c => if c =? a then new else [c]) s.
Proof.
  unfold replace. induction s as [|c s IH]; simpl; [reflexivity|].
  rewrite Z.eqb_sym, andb_true_r.
  destruct (c =? a); simpl; rewrite IH; reflexivity.
Qed.

(** ** Escaping *)

Lemma escape_text_images (text : str) :
  escape_text text = flat_map (escape_image [92; 59; 44; 10]) text.
Proof.
  unfold escape_text. rewrite !replace_char, !flat_map_compose.
  apply flat_map_ext. intros c. unfold escape_image. simpl.
  destruct (Z.eqb_spec c 92) as [->|H92]; [reflexivity|].
  destruct (Z.eqb_spec c 59) as [->|H59]; [reflexivity|].
  destruct (Z.eqb_spec c 44) as [->|H44]; [reflexivity|].
  destruct (Z.eqb_spec c 10) as [->|H10]; [reflexivity|].
  repeat (simpl;
          match goal with
          | |- context [?x =? ?y] => destruct (Z.eqb_spec x y); try congruence
          end).
  all: simpl; try reflexivity.
Qed.

Lemma escape_image_other (specials : list Z) (c : Z) :
  ~ In c specials -> escape_image specials c = [c].
Proof.
  intros H. unfold escape_image.
  destruct (existsb (Z.eqb c) specials) eqn:E; [|reflexivity].
  apply existsb_exists in E. destruct E as [k [Hk E]].
  apply Z.eqb_eq in E. subst k. contradiction.
Qed.

Lemma flat_map_escape_none (t : str) : flat_map (escape_image []) t = t.
Proof.
  induction t as [|c t IH]; [reflexivity|]. cbn [flat_map]. rewrite IH. reflexivity.
Qed.

Lemma image_head_not (specials : list Z) (x : Z) (t : str) :
  x <> 92 ->
  existsb (Z.eqb x) specials = true \/ startswith [x] t = false ->
  startswith [x] (flat_map (escape_image specials) t) = false.
Proof.
  intros Hx Ht. destruct t as [|c t]; [reflexivity|].
  cbn [flat_map]. unfold escape_image at 1.
  destruct (existsb (Z.eqb c) specials) eqn:E; simpl; rewrite andb_true_r.
  - apply Z.eqb_neq. exact Hx.
  - destruct (Z.eqb_spec x c) as [->|Hxc]; [|reflexivity].
    destruct Ht as [Ht|Ht]; [congruence|].
    simpl in Ht. rewrite Z.eqb_refl in Ht. discriminate.
Qed.

(** Steps of [replace_from] on a pattern of two characters. *)
Lemma replace_from_other (a b c : Z) (new r : str) :
  c <> a ->
  replace_from [a; b] new 0 (c :: r) = c :: replace_from [a; b] new 0 r.
Proof.
  intros H. cbn [replace_from startswith].
  destruct (Z.eqb_spec a c); [congruence|]. reflexivity.
Qed.

Lemma replace_from_first (a b : Z) (new r : str) :
  startswith [b] r = false ->
  replace_from [a; b] new 0 (a :: r) = a :: replace_from [a; b] new 0 r.
Proof.
  intros H. destruct r as [|d r]; [cbn; rewrite Z.eqb_refl; reflexivity|].
  simpl in H. rewrite andb_true_r in H.
  cbn [replace_from startswith]. rewrite Z.eqb_refl, H. reflexivity.
Qed.

Lemma replace_from_match (a b : Z) (new r : str) :
  replace_from [a; b] new 0 (a :: b :: r) = new ++ replace_from [a; b] new 0 r.
Proof.
  cbn [replace_from startswith length Nat.sub]. rewrite !Z.eqb_refl. reflexivity.
Qed.

Ltac split_char c :=
  destruct (Z.eq_dec c 92) as [->|?];
  [|destruct (Z.eq_dec c 59) as [->|?];
    [|destruct (Z.eq_dec c 44) as [->|?];
      [|destruct (Z.eq_dec c 10) as [->|?]]]].

Ltac images :=
  repeat match goal with
         | |- context [escape_image ?S ?c] =>
             first [ rewrite (escape_image_other S c) by (simpl; lia)
                   | let v := eval vm_compute in (escape_image S c) in
                     change (escape_image S c) with v ]
         end;
  cbn [app].

Lemma unescape_newline (t : str) :
  contains [92; 110] t = false ->
  replace [92; 110] [10] (flat_map (escape_image [92; 59; 44; 10]) t)
  = flat_map (escape_image [92; 59; 44]) t.
Proof.
  unfold replace. induction t as [|c t IH]; intros Hc; [reflexivity|].
  cbn [contains] in Hc. apply orb_false_elim in Hc. destruct Hc as [Hhd Htl].
  specialize (IH Htl). cbn [flat_map].
  split_char c; images.
  - (* a backslash: the next character is not the letter n *)
    rewrite replace_from_first by reflexivity.
    rewrite replace_from_first, IH; [reflexivity|].
    apply image_head_not; [lia|]. right.
    destruct t as [|d t']; [reflexivity|].
    cbn [startswith] in Hhd |- *. rewrite Z.eqb_refl in Hhd. exact Hhd.
  - rewrite replace_from_first by reflexivity.
    rewrite replace_from_other, IH by lia. reflexivity.
  - rewrite replace_from_first by reflexivity.
    rewrite replace_from_other, IH by lia. reflexivity.
  - rewrite replace_from_match, IH. reflexivity.
  - rewrite replace_from_other, IH by lia. reflexivity.
Qed.

Lemma unescape_comma (t : str) :
  replace [92; 44] [44] (flat_map (escape_image [92; 59; 44]) t)
  = flat_map (escape_image [92; 59]) t.
Proof.
  unfold replace. induction t as [|c t IH]; [reflexivity|]. cbn [flat_map].
  split_char c; images.
  - rewrite replace_from_first by reflexivity.
    rewrite replace_from_first, IH; [reflexivity|].
    apply image_head_not; [lia|]. left. reflexivity.
  - rewrite replace_from_first by reflexivity.
    rewrite replace_from_other, IH by lia. reflexivity.
  - rewrite replace_from_match, IH. reflexivity.
  - rewrite replace_from_other, IH by lia. reflexivity.
  - rewrite replace_from_other, IH by lia. reflexivity.
Qed.

Lemma unescape_semicolon (t : str) :
  replace [92; 59] [59] (flat_map (escape_image [92; 59]) t)
  = flat_map (escape_image [92]) t.
Proof.
  unfold replace. induction t as [|c t IH]; [reflexivity|]. cbn [flat_map].
  split_char c; images.
  - rewrite replace_from_first by reflexivity.
    rewrite replace_from_first, IH; [reflexivity|].
    apply image_head_not; [lia|]. left. reflexivity.
  - rewrite replace_from_match, IH. reflexivity.
  - rewrite replace_from_other, IH by lia. reflexivity.
  - rewrite replace_from_other, IH by lia. reflexivity.
  - rewrite replace_from_other, IH by lia. reflexivity.
Qed.

Lemma unescape_backslash (t : str) :
  replace [92; 92] [92] (flat_map (escape_image [92]) t) = t.
Proof.
  unfold replace. induction t as [|c t IH]; [reflexivity|]. cbn [flat_map].
  destruct (Z.eq_dec c 92) as [->|?]; images.
  - rewrite replace_from_match, IH. reflexivity.
  - rewrite replace_from_other, IH by lia. reflexivity.
Qed.

(** Unescaping undoes escaping on a text in which no backslash stands before
    the letter n. *)
Lemma unescape_escape (text : str) :
  contains [92; 110] text = false ->
  unescape_text (escape_text text) = text.
Proof.
  intros H. unfold unescape_text.
  rewrite escape_text_images, unescape_newline by exact H.
  rewrite unescape_comma, unescape_semicolon. apply unescape_backslash.
Qed.

(** ** UTF-8 *)

Ltac Zify.zify_post_hook ::= Z.div_mod_to_equations.

Lemma len_app {A : Type} (l1 l2 : list A) : len (l1 ++ l2) = len l1 + len l2.
Proof. unfold len. rewrite length_app. lia. Qed.

Lemma len_nonneg {A : Type} (l : list A) : 0 <= len l.
Proof. unfold len. lia. Qed.

Lemma utf8_width_bounds (c : Z) : 1 <= utf8_width c <= 4.
Proof.
  unfold utf8_width.
  destruct (c <? 128); [lia|]. destruct (c <? 2048); [lia|].
  destruct (c <? 65536); lia.
Qed.

Lemma utf8_length_nonneg (s : str) : 0 <= utf8_length s.
Proof.
  induction s as [|c s IH]; simpl; [lia|].
  pose proof (utf8_width_bounds c). lia.
Qed.

Lemma utf8_length_app (s1 s2 : str) :
  utf8_length (s1 ++ s2) = utf8_length s1 + utf8_length s2.
Proof. induction s1 as [|c s1 IH]; simpl; [reflexivity|]. rewrite IH. lia. Qed.

Lemma encode_char_width (c : Z) (b : bytes) :
  encode_char c = Ok b -> len b = utf8_width c.
Proof.
  unfold encode_char, utf8_width, raise.
  destruct (c <? 0); [discriminate|].
  destruct (c <? 128); [intros [= <-]; reflexivity|].
  destruct (c <? 2048); [intros [= <-]; reflexivity|].
  destruct (c <? 65536).
  - destruct ((55296 <=? c) && (c <=? 57343)); [discriminate|].
    intros [= <-]; reflexivity.
  - destruct (c <? 1114112); [intros [= <-]; reflexivity|discriminate].
Qed.

Lemma encode_app (s1 s2 : str) :
  encode (s1 ++ s2) = (b1 <- encode s1 ;; b2 <- encode s2 ;; Ok (b1 ++ b2)).
Proof.
  induction s1 as [|c s1 IH]; simpl.
  - destruct (encode s2); reflexivity.
  - destruct (encode_char c) as [b|e]; simpl; [|reflexivity].
    rewrite IH. destruct (encode s1) as [b1|e]; simpl; [|reflexivity].
    destruct (encode s2) as [b2|e]; simpl; [|reflexivity].
    rewrite app_assoc. reflexivity.
Qed.

Lemma encode_length (s : str) (b : bytes) :
  encode s = Ok b -> len b = utf8_length s.
Proof.
  revert b. induction s as [|c s IH]; simpl; intros b.
  - intros [= <-]. reflexivity.
  - destruct (encode_char c) as [bc|e] eqn:Ec; simpl; [|discriminate].
    destruct (encode s) as [bs|e]; simpl; [|discriminate].
    intros [= <-]. rewrite len_app, (IH bs eq_refl), (encode_char_width _ _ Ec).
    reflexivity.
Qed.

Ltac decide_tests :=
  repeat match goal with
         | |- context [Z.leb ?a ?b] => destruct (Z.leb_spec a b); try lia
         | |- context [Z.ltb ?a ?b] => destruct (Z.ltb_spec a b); try lia
         end;
  cbn [andb negb].

(** The four shapes of a well-formed sequence, as [decode] reads them. *)
Lemma decode_1 (b0 : Z) (r : bytes) :
  0 <= b0 < 128 -> decode (b0 :: r) = (s <- decode r ;; Ok (b0 :: s)).
Proof. intros H. cbn [decode]. decide_tests. reflexivity. Qed.

Lemma decode_2 (b0 b1 : Z) (r : bytes) :
  194 <= b0 < 224 -> 128 <= b1 < 192 ->
  decode (b0 :: b1 :: r)
  = (s <- decode r ;; Ok ((b0 - 192) * 64 + (b1 - 128) :: s)).
Proof.
  intros H0 H1. cbn [decode]. unfold continuation. decide_tests. reflexivity.
Qed.

Lemma decode_3 (b0 b1 b2 : Z) (r : bytes) :
  224 <= b0 < 240 -> 128 <= b1 < 192 -> 128 <= b2 < 192 ->
  let c := (b0 - 224) * 4096 + (b1 - 128) * 64 + (b2 - 128) in
  2048 <= c -> ~ 55296 <= c <= 57343 ->
  decode (b0 :: b1 :: b2 :: r) = (s <- decode r ;; Ok (c :: s)).
Proof.
  intros H0 H1 H2 c Hc Hs. cbn [decode]. fold c. unfold continuation.
  decide_tests; reflexivity.
Qed.

Lemma decode_4 (b0 b1 b2 b3 : Z) (r : bytes) :
  240 <= b0 < 245 -> 128 <= b1 < 192 -> 128 <= b2 < 192 -> 128 <= b3 < 192 ->
  let c := (b0 - 240) * 262144 + (b1 - 128) * 4096 + (b2 - 128) * 64 + (b3 - 128) in
  65536 <= c < 1114112 ->
  decode (b0 :: b1 :: b2 :: b3 :: r) = (s <- decode r ;; Ok (c :: s)).
Proof.
  intros H0 H1 H2 H3 c Hc. cbn [decode]. fold c. unfold continuation.
  decide_tests; reflexivity.
Qed.

Lemma Ok_inj {A : Type} (a b : A) : Ok a = Ok b -> a = b.
Proof. intros H. congruence. Qed.

(** Decoding reads back an encoded character. *)
Lemma decode_encode_char (c : Z) (b r : bytes) :
  encode_char c = Ok b ->
  decode (b ++ r) = (s <- decode r ;; Ok (c :: s)).
Proof.
  unfold encode_char, raise.
  destruct (Z.ltb_spec c 0); [discriminate|].
  destruct (Z.ltb_spec c 128).
  { intros E. apply Ok_inj in E. subst b. apply decode_1. lia. }
  destruct (Z.ltb_spec c 2048).
  { intros E. apply Ok_inj in E. subst b.
    change (decode (192 + c / 64 :: 128 + c mod 64 :: r) = (s <- decode r ;; Ok (c :: s))).
    rewrite decode_2 by lia.
    replace ((192 + c / 64 - 192) * 64 + (128 + c mod 64 - 128)) with c by lia.
    reflexivity. }
  destruct (Z.ltb_spec c 65536).
  { destruct (Z.leb_spec 55296 c); destruct (Z.leb_spec c 57343);
      cbn [andb]; try discriminate.
    all: intros E; apply Ok_inj in E; subst b.
    all: change (decode (224 + c / 4096 :: 128 + (c / 64) mod 64 :: 128 + c mod 64 :: r)
                 = (s <- decode r ;; Ok (c :: s))).
    all: rewrite decode_3 by lia.
    all: replace ((224 + c / 4096 - 224) * 4096 + (128 + (c / 64) mod 64 - 128) * 64
                  + (128 + c mod 64 - 128)) with c by lia.
    all: reflexivity. }
  destruct (Z.ltb_spec c 1114112); [|discriminate].
  intros E. apply Ok_inj in E. subst b.
  change (decode (240 + c / 262144 :: 128 + (c / 4096) mod 64
                  :: 128 + (c / 64) mod 64 :: 128 + c mod 64 :: r)
          = (s <- decode r ;; Ok (c :: s))).
  rewrite decode_4 by lia.
  replace ((240 + c / 262144 - 240) * 262144 + (128 + (c / 4096) mod 64 - 128) * 4096
           + (128 + (c / 64) mod 64 - 128) * 64 + (128 + c mod 64 - 128)) with c by lia.
  reflexivity.
Qed.

Lemma decode_encode (s : str) (b : bytes) :
  encode s = Ok b -> decode b = Ok s.
Proof.
  revert b. induction s as [|c s IH]; simpl; intros b.
  - intros [= <-]. reflexivity.
  - destruct (encode_char c) as [bc|e] eqn:Ec; simpl; [|discriminate].
    destruct (encode s) as [bs|e]; simpl; [|discriminate].
    intros [= <-]. rewrite (decode_encode_char _ _ _ Ec), (IH bs eq_refl).
    reflexivity.
Qed.

(** ** Line folding *)

Lemma chunking_flush (limit : Z) (cur : str) (c : Z) (line : str) :
  limit < utf8_length cur + utf8_width c ->
  chunking limit cur (c :: line)
  = (cur :: fst (chunking 74 [c] line), snd (chunking 74 [c] line)).
Proof.
  intros H. cbn [chunking].
  destruct (Z.ltb_spec limit (utf8_length cur + utf8_width c)); [|lia].
  destruct (chunking 74 [c] line). reflexivity.
Qed.

Lemma chunking_keep (limit : Z) (cur : str) (c : Z) (line : str) :
  utf8_length cur + utf8_width c <= limit ->
  chunking limit cur (c :: line) = chunking limit (cur ++ [c]) line.
Proof.
  intros H. cbn [chunking].
  destruct (Z.ltb_spec limit (utf8_length cur + utf8_width c)); [lia|]. reflexivity.
Qed.

(** The chunks of a division, the last one included. *)
Lemma chunking_concat (line : str) : forall limit cur,
  concat (fst (chunking limit cur line)) ++ snd (chunking limit cur line) = cur ++ line.
Proof.
  induction line as [|c line IH]; intros limit cur.
  - simpl. rewrite app_nil_r. reflexivity.
  - destruct (Z.lt_ge_cases limit (utf8_length cur + utf8_width c)) as [H|H].
    + rewrite chunking_flush by exact H. cbn [fst snd concat].
      rewrite <- app_assoc, IH. reflexivity.
    + rewrite chunking_keep by exact H. rewrite IH, <- app_assoc. reflexivity.
Qed.

Lemma chunking_head (line : str) : forall limit cur,
  exists more rest,
    fst (chunking limit cur line) ++ [snd (chunking limit cur line)]
    = (cur ++ more) :: rest.
Proof.
  induction line as [|c line IH]; intros limit cur.
  - exists [], []. simpl. rewrite app_nil_r. reflexivity.
  - destruct (Z.lt_ge_cases limit (utf8_length cur + utf8_width c)) as [H|H].
    + rewrite chunking_flush by exact H. cbn [fst snd].
      exists [], (fst (chunking 74 [c] line) ++ [snd (chunking 74 [c] line)]).
      rewrite app_nil_r. reflexivity.
    + rewrite chunking_keep by exact H.
      destruct (IH limit (cur ++ [c])) as [more [rest E]].
      exists (c :: more), rest. rewrite E, <- app_assoc. reflexivity.
Qed.

Lemma chunking_bounded (line : str) : forall limit cur,
  utf8_length cur <= limit -> 4 <= limit ->
  bounded limit (fst (chunking limit cur line) ++ [snd (chunking limit cur line)]).
Proof.
  induction line as [|c line IH]; intros limit cur Hcur Hlim.
  - simpl. split; [exact Hcur|constructor].
  - destruct (Z.lt_ge_cases limit (utf8_length cur + utf8_width c)) as [H|H].
    + rewrite chunking_flush by exact H. cbn [fst snd app bounded].
      split; [exact Hcur|].
      assert (Hc : utf8_length [c] <= 74).
      { simpl. pose proof (utf8_width_bounds c). lia. }
      specialize (IH 74 [c] Hc ltac:(lia)).
      destruct (chunking_head line 74 [c]) as [more [rest E]].
      rewrite E in IH |- *. cbn [bounded] in IH. destruct IH as [H1 H2].
      constructor; assumption.
    + rewrite chunking_keep by exact H. apply IH; [|exact Hlim].
      rewrite utf8_length_app. simpl. lia.
Qed.

Lemma chunking_greedy (line : str) : forall limit cur,
  greedy limit (fst (chunking limit cur line) ++ [snd (chunking limit cur line)]).
Proof.
  induction line as [|c line IH]; intros limit cur.
  - simpl. exact I.
  - destruct (Z.lt_ge_cases limit (utf8_length cur + utf8_width c)) as [H|H].
    + rewrite chunking_flush by exact H. cbn [fst snd app].
      specialize (IH 74 [c]).
      destruct (chunking_head line 74 [c]) as [more [rest E]].
      rewrite E in IH |- *. cbn [app greedy] in IH |- *. split; [exact H|exact IH].
    + rewrite chunking_keep by exact H. apply IH.
Qed.

Lemma chunking_last (line : str) : forall limit cur,
  cur <> [] \/ line <> [] -> 4 <= limit -> snd (chunking limit cur line) <> [].
Proof.
  induction line as [|c line IH]; intros limit cur Hne Hlim.
  - simpl. destruct Hne as [Hne|Hne]; [exact Hne|congruence].
  - destruct (Z.lt_ge_cases limit (utf8_length cur + utf8_width c)) as [H|H].
    + rewrite chunking_flush by exact H. cbn [snd].
      apply IH; [left; discriminate|lia].
    + rewrite chunking_keep by exact H. apply IH; [|exact Hlim].
      left. destruct cur; discriminate.
Qed.

(** The loop of [fold_line] computes the greedy division on octets. *)
Lemma fold_loop_chunking (line : str) : forall result current cur encoded,
  encode cur = Ok current -> encode line = Ok encoded ->
  let limit := match result with [] => 75 | _ :: _ => 74 end in
  exists last_bytes,
    fold_loop line result current
    = Ok (result ++ fst (chunking limit cur line), last_bytes)
    /\ encode (snd (chunking limit cur line)) = Ok last_bytes.
Proof.
  induction line as [|c line IH]; intros result current cur encoded Hcur Hline limit.
  - exists current. simpl. rewrite app_nil_r. split; [reflexivity|exact Hcur].
  - cbn [encode] in Hline.
    destruct (encode_char c) as [bc|e] eqn:Ec; [|discriminate].
    destruct (encode line) as [bl|e] eqn:El; [|discriminate].
    cbn [fold_loop]. rewrite Ec. cbn [bind]. fold limit.
    rewrite (encode_length _ _ Hcur), (encode_char_width _ _ Ec).
    destruct (Z.ltb_spec limit (utf8_length cur + utf8_width c)) as [H|H].
    + rewrite chunking_flush by exact H. cbn [fst snd].
      rewrite (decode_encode _ _ Hcur). cbn [bind].
      assert (Hc : encode [c] = Ok bc).
      { cbn [encode]. rewrite Ec. cbn [bind]. rewrite app_nil_r. reflexivity. }
      destruct (IH (result ++ [cur]) bc [c] bl Hc eq_refl) as [lb [E1 E2]].
      assert (L : match result ++ [cur] with [] => 75 | _ :: _ => 74 end = 74)
        by (destruct result; reflexivity).
      rewrite L in E1, E2. exists lb. split; [|exact E2].
      rewrite E1, <- app_assoc. reflexivity.
    + rewrite chunking_keep by exact H.
      assert (Hc : encode (cur ++ [c]) = Ok (current ++ bc)).
      { rewrite encode_app, Hcur. cbn [bind encode]. rewrite Ec. cbn [bind].
        rewrite app_nil_r. reflexivity. }
      exact (IH result (current ++ bc) (cur ++ [c]) bl Hc eq_refl).
Qed.

(** What [fold_line] returns on a line that can be encoded. *)
Lemma fold_line_division (line : str) (encoded : bytes) :
  encode line = Ok encoded ->
  (len encoded <= 75 -> fold_line line = Ok line)
  /\ (75 < len encoded ->
      fold_line line
      = Ok (join crlf_sp (fst (chunking 75 [] line) ++ [snd (chunking 75 [] line)]))).
Proof.
  intros He. unfold fold_line. rewrite He. cbn [bind]. split; intros Hlen.
  - destruct (Z.leb_spec (len encoded) 75); [reflexivity|lia].
  - destruct (Z.leb_spec (len encoded) 75); [lia|].
    destruct (fold_loop_chunking line [] [] [] encoded eq_refl He) as [lb [E1 E2]].
    rewrite E1. cbn [bind app].
    assert (Hne : snd (chunking 75 [] line) <> []).
    { apply chunking_last; [|lia]. right. intros ->.
      cbn in He. apply Ok_inj in He. subst encoded. cbn in Hlen. lia. }
    destruct lb as [|b lb].
    + apply encode_length in E2. destruct (snd (chunking 75 [] line)) as [|c l];
        [congruence|].
      change (utf8_length (c :: l)) with (utf8_width c + utf8_length l) in E2.
      change (len (@nil Z)) with 0 in E2.
      pose proof (utf8_width_bounds c). pose proof (utf8_length_nonneg l). lia.
    + rewrite (decode_encode _ _ E2). reflexivity.
Qed.

Lemma encode_concat (chunks : list str) (encoded : bytes) :
  encode (concat chunks) = Ok encoded ->
  exists pieces,
    Forall2 (fun chunk piece => encode chunk = Ok piece) chunks pieces
    /\ concat pieces = encoded.
Proof.
  revert encoded. induction chunks as [|chunk chunks IH]; intros encoded H.
  - cbn in H. apply Ok_inj in H. subst. exists []. split; [constructor|reflexivity].
  - cbn [concat] in H. rewrite encode_app in H.
    destruct (encode chunk) as [piece|e] eqn:E1; [|discriminate].
    cbn [bind] in H.
    destruct (encode (concat chunks)) as [others|e] eqn:E2; [|discriminate].
    cbn [bind] in H. apply Ok_inj in H. subst encoded.
    destruct (IH others eq_refl) as [pieces [HF HC]].
    exists (piece :: pieces). split; [constructor; assumption|].
    cbn [concat]. rewrite HC. reflexivity.
Qed.

Lemma bounded_pieces (limit : Z) (chunks : list str) (pieces : list bytes) :
  Forall2 (fun chunk piece => encode chunk = Ok piece) chunks pieces ->
  bounded limit chunks ->
  match pieces with
  | [] => True
  | first :: others => len first <= limit /\ Forall (fun piece => len piece <= 74) others
  end.
Proof.
  intros HF. destruct HF as [|chunk piece chunks pieces H1 HF]; [intros _; exact I|].
  cbn [bounded]. intros [Hb Hothers]. split.
  - rewrite (encode_length _ _ H1). exact Hb.
  - clear H1 Hb. induction HF as [|c p cs ps Hc HF IH]; [constructor|].
    inversion Hothers; subst. constructor.
    + rewrite (encode_length _ _ Hc). assumption.
    + apply IH. assumption.
Qed.

(** A long line: the chunks that [fold_line] joins. *)
Lemma fold_line_long (line : str) (encoded : bytes) :
  encode line = Ok encoded -> 75 < len encoded ->
  exists first others,
    fold_line line = Ok (join crlf_sp (first :: others))
    /\ concat (first :: others) = line
    /\ bounded 75 (first :: others)
    /\ greedy 75 (first :: others).
Proof.
  intros He Hlen.
  destruct (fold_line_division line encoded He) as [_ Hlong].
  specialize (Hlong Hlen).
  assert (Hc : concat (fst (chunking 75 [] line) ++ [snd (chunking 75 [] line)]) = line).
  { rewrite concat_app. cbn [concat]. rewrite app_nil_r.
    exact (chunking_concat line 75 []). }
  assert (Hb := chunking_bounded line 75 [] ltac:(cbn; lia) ltac:(lia)).
  assert (Hg := chunking_greedy line 75 []).
  destruct (chunking_head line 75 []) as [more [rest E]].
  change ([] ++ more) with more in E.
  rewrite E in Hlong, Hc, Hb, Hg.
  exists more, rest.
  split; [exact Hlong|]. split; [exact Hc|]. split; [exact Hb|exact Hg].
Qed.

(** ** Unfolding *)

Lemma startswith_app (p s b : str) :
  startswith p s = true -> startswith p (s ++ b) = true.
Proof.
  revert s. induction p as [|x p IH]; intros s E; [reflexivity|].
  destruct s as [|y s]; [discriminate|]. cbn [startswith app] in E |- *.
  apply andb_true_iff in E. destruct E as [E1 E2].
  rewrite E1, (IH _ E2). reflexivity.
Qed.

Lemma contains_app (p a b : str) :
  contains p (a ++ b) = false -> p <> [] ->
  contains p a = false /\ contains p b = false.
Proof.
  intros H Hp. induction a as [|c a IH].
  - split; [|exact H]. destruct p; [congruence|reflexivity].
  - cbn [app contains] in H |- *. apply orb_false_elim in H. destruct H as [H1 H2].
    destruct (IH H2) as [Ha Hb]. split; [|exact Hb].
    rewrite Ha, orb_false_r.
    destruct (startswith p (c :: a)) eqn:E; [|reflexivity].
    apply (startswith_app _ _ b) in E. cbn [app] in E. congruence.
Qed.

Lemma contains_concat (p : str) (chunks : list str) :
  contains p (concat chunks) = false -> p <> [] ->
  Forall (fun chunk => contains p chunk = false) chunks.
Proof.
  intros H Hp. induction chunks as [|chunk chunks IH]; [constructor|].
  cbn [concat] in H. destruct (contains_app _ _ _ H Hp) as [H1 H2].
  constructor; [exact H1|exact (IH H2)].
Qed.

(** A chunk without line terminator is passed over up to the marker that
    follows it. *)
Lemma unfold_chunk (chunk rest : str) :
  contains crlf chunk = false ->
  replace_from crlf_sp [] 0 (chunk ++ crlf_sp ++ rest)
  = chunk ++ replace_from crlf_sp [] 0 rest.
Proof.
  induction chunk as [|c chunk IH]; intros H.
  - reflexivity.
  - cbn [contains] in H. apply orb_false_elim in H. destruct H as [H1 H2].
    cbn [app replace_from].
    assert (E : startswith crlf_sp (c :: chunk ++ crlf_sp ++ rest) = false).
    { unfold crlf_sp, crlf in *. cbn [startswith] in H1 |- *.
      destruct (13 =? c); [|reflexivity]. cbn [andb] in H1 |- *.
      destruct chunk as [|d chunk]; [reflexivity|].
      cbn [app]. cbn [andb] in H1. rewrite andb_true_r in H1. rewrite H1. reflexivity. }
    rewrite E. cbn [app] in IH. rewrite (IH H2). reflexivity.
Qed.

Lemma unfold_plain (chunk : str) :
  contains crlf chunk = false -> replace_from crlf_sp [] 0 chunk = chunk.
Proof.
  induction chunk as [|c chunk IH]; intros H; [reflexivity|].
  cbn [contains] in H. apply orb_false_elim in H. destruct H as [H1 H2].
  cbn [replace_from].
  assert (E : startswith crlf_sp (c :: chunk) = false).
  { unfold crlf_sp, crlf in *. cbn [startswith] in H1 |- *.
    destruct (13 =? c); [|reflexivity]. cbn [andb] in H1 |- *.
    destruct chunk as [|d chunk]; [reflexivity|].
    rewrite andb_true_r in H1. rewrite H1. reflexivity. }
  rewrite E, (IH H2). reflexivity.
Qed.

Lemma unfold_join (chunks : list str) :
  Forall (fun chunk => contains crlf chunk = false) chunks ->
  unfold_line (join crlf_sp chunks) = concat chunks.
Proof.
  unfold unfold_line, replace. change crlf_sp with [13; 10; 32] at 1.
  cbv iota. fold crlf_sp.
  induction 1 as [|chunk chunks H HF IH]; [reflexivity|].
  cbn [join concat]. destruct chunks as [|next chunks].
  - cbn [concat]. rewrite app_nil_r. apply unfold_plain. exact H.
  - rewrite unfold_chunk by exact H. rewrite IH. reflexivity.
Qed.

(** * Line folding: the claims *)

(** C1. A line whose UTF-8 encoding has at most 75 octets is returned
    unchanged. A longer line is returned as chunks joined by the line
    terminator and one space: the chunks are whole characters of the line in
    order, each is encoded on its own and the encodings make up the encoding
    of the line, the first has at most 75 octets and the others at most 74,
    and the first character of each later chunk did not fit into the chunk
    before it. *)
Theorem fold_line_chunks (line : str) (encoded : bytes) :
  encode line = Ok encoded ->
  (len encoded <= 75 -> fold_line line = Ok line)
  /\ (75 < len encoded ->
      exists first others pieces,
        fold_line line = Ok (join crlf_sp (first :: others))
        /\ concat (first :: others) = line
        /\ Forall2 (fun chunk piece => encode chunk = Ok piece) (first :: others) pieces
        /\ concat pieces = encoded
        /\ match pieces with
           | [] => False
           | p :: ps => len p <= 75 /\ Forall (fun piece => len piece <= 74) ps
           end
        /\ greedy 75 (first :: others)).
Proof.
  intros He. split.
  - apply (fold_line_division line encoded He).
  - intros Hlen.
    destruct (fold_line_long line encoded He Hlen) as [first [others [H1 [H2 [H3 H4]]]]].
    assert (He' : encode (concat (first :: others)) = Ok encoded) by (rewrite H2; exact He).
    destruct (encode_concat _ _ He') as [pieces [HF HC]].
    exists first, others, pieces. repeat split; try assumption.
    pose proof (bounded_pieces 75 _ _ HF H3) as Hb.
    destruct pieces as [|p ps]; [inversion HF|exact Hb].
Qed.

(** C2. Removing every line terminator followed by a space from the folded
    form of a logical line, a line that contains no line terminator, gives
    the line back. *)
Theorem unfold_fold_line (line : str) (encoded : bytes) :
  encode line = Ok encoded ->
  contains crlf line = false ->
  exists folded, fold_line line = Ok folded /\ unfold_line folded = line.
Proof.
  intros He Hc. destruct (Z.le_gt_cases (len encoded) 75) as [Hlen|Hlen].
  - exists line. split; [apply (fold_line_division line encoded He); exact Hlen|].
    assert (U : unfold_line (join crlf_sp [line]) = concat [line]).
    { apply unfold_join. constructor; [exact Hc|constructor]. }
    cbn [join concat] in U. rewrite app_nil_r in U. exact U.
  - destruct (fold_line_long line encoded He ltac:(lia)) as [first [others [H1 [H2 _]]]].
    exists (join crlf_sp (first :: others)). split; [exact H1|].
    rewrite unfold_join; [exact H2|].
    apply contains_concat; [rewrite H2; exact Hc|discriminate].
Qed.

Lemma fold_line_chunks_witness :
  encode euro_line = Ok euro_bytes
  /\ ((len euro_bytes <= 75 -> fold_line euro_line = Ok euro_line)
      /\ (75 < len euro_bytes ->
          exists first others pieces,
            fold_line euro_line = Ok (join crlf_sp (first :: others))
            /\ concat (first :: others) = euro_line
            /\ Forall2 (fun chunk piece => encode chunk = Ok piece) (first :: others) pieces
            /\ concat pieces = euro_bytes
            /\ match pieces with
               | [] => False
               | p :: ps => len p <= 75 /\ Forall (fun piece => len piece <= 74) ps
               end
            /\ greedy 75 (first :: others))).
Proof.
  split; [reflexivity|]. apply (fold_line_chunks euro_line euro_bytes). reflexivity.
Defined.

Lemma unfold_fold_line_witness :
  encode euro_line = Ok euro_bytes
  /\ contains crlf euro_line = false
  /\ exists folded, fold_line euro_line = Ok folded /\ unfold_line folded = euro_line.
Proof.
  split; [reflexivity|]. split; [reflexivity|].
  apply (unfold_fold_line euro_line euro_bytes); reflexivity.
Defined.

(** * Escaping: the claims *)

(** C4, as stated, fails: a backslash before the letter n is escaped to two
    backslashes and the letter, and the first reverse substitution reads the
    second backslash and the letter as an escaped newline. *)
Lemma unescape_escape_backslash_n :
  unescape_text (escape_text [92; 110]) = [92; 10]
  /\ unescape_text (escape_text [92; 110]) <> [92; 110].
Proof. split; [reflexivity|]. vm_compute. discriminate. Qed.

(** C4, amended. [escape_text] makes its four substitutions in the order
    backslash, semicolon, comma, newline, and on every text in which no
    backslash stands immediately before the letter n the reverse
    substitutions in reverse order give the text back. *)
Theorem unescape_escape_text (text : str) :
  contains [92; 110] text = false ->
  escape_text text
  = replace [10] [92; 110] (replace [44] [92; 44] (replace [59] [92; 59]
      (replace [92] [92; 92] text)))
  /\ unescape_text (escape_text text) = text.
Proof.
  intros H. split; [reflexivity|]. apply unescape_escape. exact H.
Qed.

Lemma unescape_escape_text_witness :
  contains [92; 110] [92; 59; 44; 10; 92; 92; 44; 120; 110; 10] = false
  /\ unescape_text (escape_text [92; 59; 44; 10; 92; 92; 44; 120; 110; 10])
     = [92; 59; 44; 10; 92; 92; 44; 120; 110; 10].
Proof.
  split; [reflexivity|].
  apply (unescape_escape_text [92; 59; 44; 10; 92; 92; 44; 120; 110; 10]). reflexivity.
Defined.

(** ** Splitting and joining lines *)

Lemma split_from_nonempty (sep : str) (s : str) : forall skip,
  split_from sep skip s <> [].
Proof.
  induction s as [|c s IH]; intros skip; cbn [split_from]; [discriminate|].
  destruct skip as [|k]; [|apply IH].
  destruct (startswith sep (c :: s)); [discriminate|].
  destruct (split_from sep 0 s); discriminate.
Qed.

Lemma startswith_crlf_app (c : Z) (a b : str) :
  startswith crlf (c :: a ++ crlf ++ b) = startswith crlf (c :: a).
Proof.
  unfold crlf. cbn [startswith]. destruct (13 =? c); [|reflexivity].
  destruct a as [|d a]; reflexivity.
Qed.

(** A line terminator between [a] and [b] ends the last piece of [a]. *)
Lemma split_from_crlf_app (a b : str) : forall skip,
  (skip <= length a)%nat ->
  split_from crlf skip (a ++ crlf ++ b) = split_from crlf skip a ++ split crlf b.
Proof.
  induction a as [|c a IH]; intros skip Hskip.
  - destruct skip; [|cbn in Hskip; lia]. reflexivity.
  - cbn [app split_from]. destruct skip as [|k].
    + rewrite startswith_crlf_app.
      destruct (startswith crlf (c :: a)) eqn:E.
      * rewrite IH; [reflexivity|].
        unfold crlf in E. cbn [startswith] in E. destruct a; [|cbn; lia].
        destruct (13 =? c); discriminate.
      * rewrite (IH 0%nat) by lia.
        pose proof (split_from_nonempty crlf a 0) as Hne.
        destruct (split_from crlf 0 a); [congruence|reflexivity].
    + apply IH. cbn in Hskip. lia.
Qed.

Lemma split_crlf_app (a b : str) :
  split crlf (a ++ crlf ++ b) = split crlf a ++ split crlf b.
Proof. apply split_from_crlf_app. lia. Qed.

Lemma split_plain (a : str) : contains crlf a = false -> split crlf a = [a].
Proof.
  unfold split. induction a as [|c a IH]; intros H; [reflexivity|].
  cbn [contains] in H. apply orb_false_elim in H. destruct H as [H1 H2].
  cbn [split_from]. rewrite H1, (IH H2). reflexivity.
Qed.

Lemma join_cons (sep p : str) (rest : list str) :
  rest <> [] -> join sep (p :: rest) = p ++ sep ++ join sep rest.
Proof. intros H. destruct rest; [congruence|reflexivity]. Qed.

Lemma join_app (sep : str) (l1 l2 : list str) :
  l1 <> [] -> l2 <> [] ->
  join sep (l1 ++ l2) = join sep l1 ++ sep ++ join sep l2.
Proof.
  intros H1 H2. induction l1 as [|p l1 IH]; [congruence|].
  destruct l1 as [|q l1].
  - cbn [app]. rewrite join_cons by exact H2. reflexivity.
  - change ((p :: q :: l1) ++ l2) with (p :: (q :: l1) ++ l2).
    rewrite join_cons by discriminate. rewrite IH by discriminate.
    rewrite (join_cons sep p (q :: l1)) by discriminate.
    rewrite <- !app_assoc. reflexivity.
Qed.

Lemma mapM_app {A B : Type} (f : A -> outcome B) (l1 l2 : list A) :
  mapM f (l1 ++ l2) = (a <- mapM f l1 ;; b <- mapM f l2 ;; Ok (a ++ b)).
Proof.
  induction l1 as [|x l1 IH]; cbn [app mapM bind].
  - destruct (mapM f l2); reflexivity.
  - destruct (f x); cbn [bind]; [|reflexivity]. rewrite IH.
    destruct (mapM f l1); cbn [bind]; [|reflexivity].
    destruct (mapM f l2); reflexivity.
Qed.

Lemma mapM_nonempty {A B : Type} (f : A -> outcome B) (l : list A) (r : list B) :
  mapM f l = Ok r -> l <> [] -> r <> [].
Proof.
  destruct l as [|x l]; [congruence|]. cbn [mapM]. intros H _.
  destruct (f x); cbn [bind] in H; [|discriminate].
  destruct (mapM f l); cbn [bind] in H; [|discriminate].
  apply Ok_inj in H. subst. discriminate.
Qed.

(** Folding a document made of a first part, a line terminator and a second
    part folds the parts. *)
Lemma fold_content_app (a b text : str) :
  fold_content (a ++ crlf ++ b) = Ok text ->
  exists ta tb,
    fold_content a = Ok ta /\ fold_content b = Ok tb /\ text = ta ++ crlf ++ tb.
Proof.
  unfold fold_content. rewrite split_crlf_app, mapM_app.
  destruct (mapM fold_line (split crlf a)) as [fa|e] eqn:Ea; [|discriminate].
  destruct (mapM fold_line (split crlf b)) as [fb|e] eqn:Eb; [|discriminate].
  cbn [bind]. intros H. apply Ok_inj in H. subst text.
  exists (join crlf fa), (join crlf fb). repeat split.
  apply join_app.
  - apply (mapM_nonempty _ _ _ Ea). apply split_from_nonempty.
  - apply (mapM_nonempty _ _ _ Eb). apply split_from_nonempty.
Qed.

(** ** The structure of an event *)

Lemma vevent_lines_unfold (rt : Runtime) (n : nat) (event : Event) (defaults : Defaults)
  (date summary : str) :
  nonempty (e_date event) = Some date ->
  nonempty (e_summary event) = Some summary ->
  vevent_lines rt n event defaults
  = if re_match rt date_pattern date then
      checked <- check_time rt (e_time event) ;;
      temporal <- temporal_lines rt summary date (e_time event)
                    (resolved_timezone event defaults)
                    (effective_duration event defaults) ;;
      status <- checked_line (lit "STATUS:") status_values status_error
                  (e_status event) ;;
      transp <- checked_line (lit "TRANSP:") transp_values transp_error
                  (e_transp event) ;;
      Ok (event_layout (generate_uid rt n summary date) (strftime_stamp rt (utcnow rt n))
            temporal summary event status transp (effective_reminder event defaults))
    else Err (ValueError (Msg (lit "Invalid date format '" ++ date
                               ++ lit "', expected YYYY-MM-DD"))).
Proof.
  intros Hd Hs. unfold vevent_lines. rewrite Hd, Hs.
  destruct (re_match rt date_pattern date); cbn [negb]; [|reflexivity].
  destruct (check_time rt (e_time event)); cbn [bind]; [|reflexivity].
  destruct (temporal_lines rt summary date (e_time event)
              (resolved_timezone event defaults) (effective_duration event defaults));
    cbn [bind]; [|reflexivity].
  destruct (checked_line (lit "STATUS:") status_values status_error (e_status event));
    cbn [bind]; [|reflexivity].
  destruct (checked_line (lit "TRANSP:") transp_values transp_error (e_transp event));
    cbn [bind]; [|reflexivity].
  unfold event_layout. rewrite <- !app_assoc. reflexivity.
Qed.

Lemma vevent_lines_missing (rt : Runtime) (n : nat) (event : Event) (defaults : Defaults) :
  nonempty (e_date event) = None \/ nonempty (e_summary event) = None ->
  vevent_lines rt n event defaults = Err (ValueError (MsgMissingFields event)).
Proof.
  intros [H|H]; unfold vevent_lines; rewrite H.
  - reflexivity.
  - destruct (nonempty (e_date event)); reflexivity.
Qed.

(** What a successful build went through. *)
Lemma vevent_lines_ok (rt : Runtime) (n : nat) (event : Event) (defaults : Defaults)
  (lines : list str) :
  vevent_lines rt n event defaults = Ok lines ->
  exists date summary temporal status transp,
    nonempty (e_date event) = Some date
    /\ nonempty (e_summary event) = Some summary
    /\ re_match rt date_pattern date = true
    /\ check_time rt (e_time event) = Ok tt
    /\ temporal_lines rt summary date (e_time event)
         (resolved_timezone event defaults) (effective_duration event defaults)
       = Ok temporal
    /\ checked_line (lit "STATUS:") status_values status_error (e_status event)
       = Ok status
    /\ checked_line (lit "TRANSP:") transp_values transp_error (e_transp event)
       = Ok transp
    /\ lines = event_layout (generate_uid rt n summary date)
                 (strftime_stamp rt (utcnow rt n)) temporal summary event status transp
                 (effective_reminder event defaults).
Proof.
  intros H.
  destruct (nonempty (e_date event)) as [date|] eqn:Hd;
    [|rewrite vevent_lines_missing in H by (left; exact Hd); discriminate].
  destruct (nonempty (e_summary event)) as [summary|] eqn:Hs;
    [|rewrite vevent_lines_missing in H by (right; exact Hs); discriminate].
  rewrite (vevent_lines_unfold rt n event defaults date summary Hd Hs) in H.
  destruct (re_match rt date_pattern date) eqn:Hre; [|discriminate].
  destruct (check_time rt (e_time event)) as [[]|e] eqn:Hct; [|discriminate].
  cbn [bind] in H.
  destruct (temporal_lines rt summary date (e_time event)
              (resolved_timezone event defaults) (effective_duration event defaults))
    as [temporal|e] eqn:Ht; [|discriminate].
  cbn [bind] in H.
  destruct (checked_line (lit "STATUS:") status_values status_error (e_status event))
    as [status|e] eqn:Hst; [|discriminate].
  cbn [bind] in H.
  destruct (checked_line (lit "TRANSP:") transp_values transp_error (e_transp event))
    as [transp|e] eqn:Htr; [|discriminate].
  cbn [bind] in H. apply Ok_inj in H.
  exists date, summary, temporal, status, transp. repeat split; congruence.
Qed.

(** The rules of the validator settle every check but the ones of the
    all-day branch. *)
Lemma validated_checks (rt : Runtime) (event : Event) (defaults : Defaults) :
  validated rt event defaults = true ->
  exists date summary status transp,
    nonempty (e_date event) = Some date
    /\ nonempty (e_summary event) = Some summary
    /\ re_match rt date_pattern date = true
    /\ check_time rt (e_time event) = Ok tt
    /\ (e_time event <> None ->
        is_some (nonempty (resolved_timezone event defaults)) = true)
    /\ checked_line (lit "STATUS:") status_values status_error (e_status event)
       = Ok status
    /\ checked_line (lit "TRANSP:") transp_values transp_error (e_transp event)
       = Ok transp.
Proof.
  unfold validated. intros H.
  repeat (apply andb_true_iff in H; destruct H as [H ?]).
  destruct (nonempty (e_date event)) as [date|]; [|discriminate].
  destruct (nonempty (e_summary event)) as [summary|]; [|discriminate].
  exists date, summary.
  unfold checked_line, check_time.
  destruct (nonempty (e_status event)) as [status|];
    destruct (nonempty (e_transp event)) as [transp|];
    destruct (nonempty (e_time event)) as [t|];
    repeat match goal with
           | E : ?b = true |- context [negb ?b] => rewrite E
           end; cbn [negb];
    eexists; eexists; repeat split; try reflexivity; try assumption;
    destruct (e_time event); congruence.
Qed.

Lemma temporal_lines_timed (rt : Runtime) (summary date time tz : str) (tzo : option str)
  (duration : Z) :
  nonempty tzo = Some tz ->
  temporal_lines rt summary date (Some time) tzo duration
  = Ok ([lit "DTSTART;TZID=" ++ tz ++ [58] ++ format_datetime date time]
        ++ if negb (duration =? 0)
           then [lit "DURATION:" ++ duration_parts (lit "PT") duration]
           else []).
Proof. intros H. unfold temporal_lines. rewrite H. reflexivity. Qed.

(** ** Dates *)

Lemma str_eqb_eq (a b : str) : str_eqb a b = true <-> a = b.
Proof.
  revert b. induction a as [|x a IH]; intros [|y b]; cbn [str_eqb];
    try (split; [discriminate|discriminate]); [split; reflexivity|].
  rewrite andb_true_iff, Z.eqb_eq, IH. split.
  - intros [-> ->]. reflexivity.
  - intros [= -> ->]. split; reflexivity.
Qed.

Lemma in_range_spec (lo hi c : Z) : in_range lo hi c = true <-> lo <= c <= hi.
Proof. unfold in_range. rewrite andb_true_iff, !Z.leb_le. reflexivity. Qed.

(** The decimal notation of [str] and the padding of [strftime] give the
    digits of a number that fits the width; checked on every such number. *)
Lemma zfill_digits2 (n : Z) :
  0 <= n <= 99 -> zfill 2 (str_of_int n) = digits2 n.
Proof.
  intros H.
  assert (A : forallb (fun k => str_eqb (zfill 2 (str_of_int k)) (digits2 k))
                (map Z.of_nat (seq 0 (Z.to_nat 100))) = true) by (vm_compute; reflexivity).
  rewrite forallb_forall in A. apply str_eqb_eq, A.
  apply in_map_iff. exists (Z.to_nat n). split; [lia|]. apply in_seq. lia.
Qed.

Lemma zfill_digits4 (n : Z) :
  0 <= n <= 9999 -> zfill 4 (str_of_int n) = digits4 n.
Proof.
  intros H.
  assert (A : forallb (fun k => str_eqb (zfill 4 (str_of_int k)) (digits4 k))
                (map Z.of_nat (seq 0 (Z.to_nat 10000))) = true) by (vm_compute; reflexivity).
  rewrite forallb_forall in A. apply str_eqb_eq, A.
  apply in_map_iff. exists (Z.to_nat n). split; [lia|]. apply in_seq. lia.
Qed.

Lemma days_in_month_bounds (year month : Z) : 28 <= days_in_month year month <= 31.
Proof.
  unfold days_in_month. destruct (month =? 2); [destruct (is_leap year); lia|].
  destruct ((month =? 4) || (month =? 6) || (month =? 9) || (month =? 11)); lia.
Qed.

Lemma str_of_int_digits4 (n : Z) :
  1000 <= n <= 9999 -> str_of_int n = digits4 n.
Proof.
  intros H. rewrite <- zfill_digits4 by lia.
  assert (A : forallb (fun k => str_eqb (str_of_int k) (zfill 4 (str_of_int k)))
                (map (fun k => 1000 + Z.of_nat k) (seq 0 (Z.to_nat 9000))) = true)
    by (vm_compute; reflexivity).
  rewrite forallb_forall in A. apply str_eqb_eq, A.
  apply in_map_iff. exists (Z.to_nat (n - 1000)). split; [lia|]. apply in_seq. lia.
Qed.

(** From the year 1000 on every platform writes the four digits. *)
Lemma strftime_date_token (rt : Runtime) (d : Z * Z * Z) :
  valid_date d -> 1000 <= date_year d -> strftime_date rt d = date_token d.
Proof.
  destruct d as [[year month] day]. intros [Hy [Hm Hd]] H. cbn [date_year fst] in H.
  pose proof (days_in_month_bounds year month).
  unfold strftime_date, date_token.
  rewrite strftime_year_four, str_of_int_digits4, !zfill_digits2 by lia. reflexivity.
Qed.

(** Stripping the separators of [YYYY-MM-DD]. *)
Lemma format_date_iso (d : Z * Z * Z) :
  valid_date d -> format_date (iso_date d) = date_token d.
Proof.
  destruct d as [[year month] day]. intros [Hy [Hm Hd]].
  pose proof (days_in_month_bounds year month).
  unfold format_date. rewrite replace_char.
  unfold iso_date, date_token, digits4, digits2. cbn [app flat_map].
  repeat match goal with
         | |- context [Z.eqb ?a 45] =>
             destruct (Z.eqb_spec a 45) as [E|_]; [exfalso; lia|]
         end.
  reflexivity.
Qed.

Lemma decimal_digit (rt : Runtime) (k : Z) :
  0 <= k <= 9 -> decimal rt (48 + k) = Some k.
Proof. intros H. rewrite decimal_ascii by lia. f_equal. lia. Qed.

Ltac enumerate m lo fuel :=
  lazymatch fuel with
  | O => exfalso; lia
  | S ?fuel' =>
      destruct (Z.eq_dec m lo) as [->|?];
      [|let lo' := eval compute in (lo + 1) in enumerate m lo' fuel']
  end.

Lemma month_alternatives_digits (month : Z) (r : str) :
  1 <= month <= 12 ->
  exists more, month_alternatives (digits2 month ++ r) = (month, r) :: more.
Proof.
  intros H. enumerate month 1 12%nat; eexists; reflexivity.
Qed.

Lemma day_alternatives_digits (rt : Runtime) (day : Z) :
  1 <= day <= 31 ->
  exists more, day_alternatives rt (digits2 day) = (day, []) :: more.
Proof.
  intros H. enumerate day 1 31%nat;
    unfold day_alternatives, digits2; cbn;
    try rewrite (decimal_ascii rt) by lia; cbn; eexists; reflexivity.
Qed.

(** [strptime] reads back the text of a calendar date. *)
Lemma strptime_iso (rt : Runtime) (d : Z * Z * Z) :
  valid_date d -> strptime rt (iso_date d) = Ok d.
Proof.
  destruct d as [[year month] day]. intros [Hy [Hm Hd]].
  pose proof (days_in_month_bounds year month) as Hdim.
  unfold strptime, iso_date, digits4. cbn [app]. cbv beta iota.
  rewrite (decimal_digit rt (year / 1000)) by lia.
  rewrite (decimal_digit rt ((year / 100) mod 10)) by lia.
  rewrite (decimal_digit rt ((year / 10) mod 10)) by lia.
  rewrite (decimal_digit rt (year mod 10)) by lia.
  cbv beta iota zeta.
  replace (1000 * (year / 1000) + 100 * ((year / 100) mod 10)
           + 10 * ((year / 10) mod 10) + year mod 10) with year by lia.
  destruct (month_alternatives_digits month (45 :: digits2 day) Hm) as [more E].
  rewrite E. cbn [first_some fst snd]. cbv beta iota.
  destruct (day_alternatives_digits rt day ltac:(lia)) as [more' E'].
  rewrite E'. cbv beta iota.
  destruct (Z.leb_spec 1 year); [|lia]. destruct (Z.leb_spec year 9999); [|lia].
  destruct (Z.leb_spec 1 day); [|lia].
  destruct (Z.leb_spec day (days_in_month year month)); [|lia].
  reflexivity.
Qed.

Lemma days_before_month_next (year month : Z) :
  1 <= month ->
  days_before_month_from year (Z.to_nat month)
  = days_before_month_from year (Z.to_nat (month - 1)) + days_in_month year month.
Proof.
  intros H. replace (Z.to_nat month) with (S (Z.to_nat (month - 1))) by lia.
  cbn [days_before_month_from]. f_equal. f_equal. lia.
Qed.

Lemma days_before_month_year (year : Z) :
  days_before_month_from year 12 = 365 + (if is_leap year then 1 else 0).
Proof.
  cbn [days_before_month_from]. unfold days_in_month. cbn.
  destruct (is_leap year); lia.
Qed.

Lemma days_before_next_year (year : Z) :
  days_before_year (year + 1)
  = days_before_year year + 365 + (if is_leap year then 1 else 0).
Proof.
  unfold days_before_year, is_leap.
  replace (year + 1 - 1) with year by lia.
  destruct (Z.eqb_spec (year mod 4) 0); destruct (Z.eqb_spec (year mod 100) 0);
    destruct (Z.eqb_spec (year mod 400) 0); cbn [negb andb orb]; lia.
Qed.

(** The day after a calendar date is a calendar date, the next one in the
    count of days. *)
Lemma add_one_day_next (d next : Z * Z * Z) :
  valid_date d -> add_one_day d = Ok next ->
  valid_date next /\ ordinal next = ordinal d + 1.
Proof.
  destruct d as [[year month] day]. intros [Hy [Hm Hd]]. unfold add_one_day.
  destruct (Z.leb_spec (day + 1) (days_in_month year month)) as [H1|H1].
  { intros E. apply Ok_inj in E. subst next. split.
    - unfold valid_date. lia.
    - unfold ordinal. lia. }
  destruct (Z.leb_spec (month + 1) 12) as [H2|H2].
  { intros E. apply Ok_inj in E. subst next.
    pose proof (days_in_month_bounds year (month + 1)). split.
    - unfold valid_date. lia.
    - unfold ordinal. replace (month + 1 - 1) with month by lia.
      rewrite days_before_month_next by lia. lia. }
  destruct (Z.leb_spec (year + 1) 9999) as [H3|H3]; [|discriminate].
  intros E. apply Ok_inj in E. subst next.
  assert (month = 12) by lia. subst month.
  pose proof (days_in_month_bounds (year + 1) 1). split.
  - unfold valid_date. lia.
  - unfold ordinal. change (Z.to_nat (1 - 1)) with 0%nat.
    change (Z.to_nat (12 - 1)) with 11%nat. cbn [days_before_month_from].
    pose proof (days_before_month_year year) as Y.
    cbn [days_before_month_from] in Y.
    rewrite days_before_next_year.
    change (Z.of_nat 11 + 1) with 12 in Y. lia.
Qed.

Lemma add_one_day_ok (d : Z * Z * Z) :
  valid_date d -> d <> (9999, 12, 31) -> exists next, add_one_day d = Ok next.
Proof.
  destruct d as [[year month] day]. intros [Hy [Hm Hd]] Hne. unfold add_one_day.
  destruct (Z.leb_spec (day + 1) (days_in_month year month)); [eexists; reflexivity|].
  destruct (Z.leb_spec (month + 1) 12); [eexists; reflexivity|].
  destruct (Z.leb_spec (year + 1) 9999); [eexists; reflexivity|].
  exfalso. apply Hne. assert (month = 12) by lia. subst month.
  assert (E : days_in_month year 12 = 31) by reflexivity. rewrite E in *.
  f_equal; [f_equal|]; lia.
Qed.

(** The all-day branch on a calendar date. *)
Lemma temporal_lines_allday (rt : Runtime) (summary : str) (tz : option str)
  (duration : Z) (d next : Z * Z * Z) :
  valid_date d -> add_one_day d = Ok next ->
  temporal_lines rt summary (iso_date d) None tz duration
  = Ok [lit "DTSTART;VALUE=DATE:" ++ date_token d;
        lit "DTEND;VALUE=DATE:" ++ strftime_date rt next].
Proof.
  intros Hv Hn. unfold temporal_lines.
  rewrite (strptime_iso rt d Hv). cbn [bind]. rewrite Hn. cbn [bind].
  rewrite (format_date_iso d Hv). reflexivity.
Qed.

(** The day after is not in an earlier year. *)
Lemma add_one_day_year (d next : Z * Z * Z) :
  add_one_day d = Ok next -> date_year d <= date_year next.
Proof.
  destruct d as [[year month] day]. unfold add_one_day.
  destruct (day + 1 <=? days_in_month year month);
    [intros H; apply Ok_inj in H; subst; cbn; lia|].
  destruct (month + 1 <=? 12); [intros H; apply Ok_inj in H; subst; cbn; lia|].
  destruct (year + 1 <=? 9999); [|discriminate].
  intros H; apply Ok_inj in H; subst; cbn; lia.
Qed.

(** The all-day branch on the last date of the calendar. *)
Lemma temporal_lines_last_day (rt : Runtime) (summary : str) (tz : option str)
  (duration : Z) :
  temporal_lines rt summary (iso_date (9999, 12, 31)) None tz duration
  = Err OverflowError.
Proof.
  unfold temporal_lines.
  rewrite (strptime_iso rt (9999, 12, 31)) by (unfold valid_date; cbn; lia).
  reflexivity.
Qed.

Lemma nonempty_some {A : Type} (l v : list A) :
  nonempty (Some l) = Some v -> l = v.
Proof. destruct l; cbn; [discriminate|]. intros H. congruence. Qed.

(** * Building an event: the claims *)

(** C3, as stated, fails: a date can match the pattern of the validator
    without being a date of the calendar, and the all-day branch then fails
    inside [strptime]. *)
Lemma validated_date_not_in_calendar :
  validated ascii_runtime (allday_event (lit "2024-02-30") (lit "Launch")) no_defaults
  = true
  /\ build_vevent ascii_runtime 0 (allday_event (lit "2024-02-30") (lit "Launch"))
       no_defaults
     = Err (ValueError (MsgStrptime (lit "2024-02-30"))).
Proof. split; vm_compute; reflexivity. Qed.

(** C3, amended. An event record that satisfies the rules of the validator
    and, when it has no time, whose date is a date of the calendar other than
    9999-12-31, is built without error. *)
Theorem build_vevent_validated (rt : Runtime) (n : nat) (event : Event)
  (defaults : Defaults) :
  validated rt event defaults = true ->
  (e_time event = None ->
   exists d, e_date event = Some (iso_date d) /\ valid_date d /\ d <> (9999, 12, 31)) ->
  exists block, build_vevent rt n event defaults = Ok block.
Proof.
  intros Hv Hallday.
  destruct (validated_checks rt event defaults Hv)
    as [date [summary [status [transp [Hd [Hs [Hre [Hct [Htz [Hst Htr]]]]]]]]]].
  unfold build_vevent.
  rewrite (vevent_lines_unfold rt n event defaults date summary Hd Hs), Hre, Hct.
  cbn [bind].
  assert (Ht : exists temporal,
             temporal_lines rt summary date (e_time event)
               (resolved_timezone event defaults) (effective_duration event defaults)
             = Ok temporal).
  { destruct (e_time event) as [t|] eqn:Et.
    - specialize (Htz ltac:(discriminate)).
      destruct (nonempty (resolved_timezone event defaults)) as [tz|] eqn:E;
        [|discriminate].
      rewrite (temporal_lines_timed rt summary date t tz _ _ E). eexists; reflexivity.
    - destruct (Hallday eq_refl) as [d [Ed [Hvd Hne]]].
      rewrite Ed in Hd. apply nonempty_some in Hd. subst date.
      destruct (add_one_day_ok d Hvd Hne) as [next Hn].
      rewrite (temporal_lines_allday rt summary _ _ d next Hvd Hn).
      eexists; reflexivity. }
  destruct Ht as [temporal Ht]. rewrite Ht, Hst, Htr. cbn [bind].
  eexists; reflexivity.
Qed.

Lemma build_vevent_validated_witness :
  validated ascii_runtime (allday_event (lit "2024-02-29") (lit "Launch")) no_defaults
  = true
  /\ exists block,
       build_vevent ascii_runtime 0 (allday_event (lit "2024-02-29") (lit "Launch"))
         no_defaults = Ok block.
Proof.
  split; [reflexivity|].
  apply (build_vevent_validated ascii_runtime 0
           (allday_event (lit "2024-02-29") (lit "Launch")) no_defaults);
    [reflexivity|].
  intros _. exists (2024, 2, 29). split; [reflexivity|]. split.
  - unfold valid_date. cbn. lia.
  - discriminate.
Defined.

(** C6, as stated, fails on the last date of the calendar: the day after
    9999-12-31 is out of the range of [datetime]. *)
Lemma allday_last_date_overflow :
  valid_date (9999, 12, 31)
  /\ e_date (allday_event (lit "9999-12-31") (lit "Launch"))
     = Some (iso_date (9999, 12, 31))
  /\ e_time (allday_event (lit "9999-12-31") (lit "Launch")) = None
  /\ build_vevent ascii_runtime 0 (allday_event (lit "9999-12-31") (lit "Launch"))
       no_defaults
     = Err OverflowError.
Proof.
  split; [unfold valid_date; cbn; lia|].
  split; [reflexivity|]. split; [reflexivity|]. vm_compute. reflexivity.
Qed.

(** C6, amended. An all-day event record that passes the validator and whose
    date is a date of the calendar other than 9999-12-31 is built with the
    start token of its date without separators and an end line for the day
    after: the next day of the month, else the first day of the next month,
    else the first day of the next year; a date of the calendar, one further
    in the count of days. The end token is the year of that day as the
    platform's [strftime] renders it, then the month and the day on two
    digits; from the year 1000 on that is the eight digits of the day after.
    On 9999-12-31 the build raises [OverflowError]. *)
Theorem allday_tokens (rt : Runtime) (n : nat) (event : Event) (defaults : Defaults)
  (d : Z * Z * Z) :
  valid_date d ->
  e_date event = Some (iso_date d) -> e_time event = None ->
  validated rt event defaults = true ->
  (d <> (9999, 12, 31) ->
   exists lines next,
     vevent_lines rt n event defaults = Ok lines
     /\ nth_error lines 3 = Some (lit "DTSTART;VALUE=DATE:" ++ date_token d)
     /\ nth_error lines 4 = Some (lit "DTEND;VALUE=DATE:" ++ strftime_date rt next)
     /\ (let '(year, month, day) := next in
         strftime_date rt next = strftime_year rt year ++ digits2 month ++ digits2 day)
     /\ (1000 <= date_year d -> strftime_date rt next = date_token next)
     /\ valid_date next
     /\ ordinal next = ordinal d + 1
     /\ next = (let '(year, month, day) := d in
                if day <? days_in_month year month then (year, month, day + 1)
                else if month <? 12 then (year, month + 1, 1)
                else (year + 1, 1, 1)))
  /\ (d = (9999, 12, 31) ->
      vevent_lines rt n event defaults = Err OverflowError
      /\ build_vevent rt n event defaults = Err OverflowError).
Proof.
  intros Hvd Ed Et Hv.
  destruct (validated_checks rt event defaults Hv)
    as [date [summary [status [transp [Hd [Hs [Hre [Hct [Htz [Hst Htr]]]]]]]]]].
  rewrite Ed in Hd. pose proof (nonempty_some _ _ Hd) as <-.
  rewrite <- Ed in Hd.
  pose proof (vevent_lines_unfold rt n event defaults (iso_date d) summary Hd Hs) as U.
  rewrite Hre, Hct in U. cbn [bind] in U. rewrite Et in U.
  split.
  - intros Hne.
    destruct (add_one_day_ok d Hvd Hne) as [next Hn].
    destruct (add_one_day_next d next Hvd Hn) as [Hvn Hord].
    rewrite (temporal_lines_allday rt summary _ _ d next Hvd Hn), Hst, Htr in U.
    cbn [bind] in U. rewrite U. eexists. exists next.
    split; [reflexivity|]. split; [reflexivity|]. split; [reflexivity|].
    split.
    { destruct next as [[year month] day]. destruct Hvn as [Hy [Hm Hday]].
      pose proof (days_in_month_bounds year month).
      unfold strftime_date. rewrite !zfill_digits2 by lia. reflexivity. }
    split.
    { intros Hyear. apply (strftime_date_token rt next Hvn).
      pose proof (add_one_day_year d next Hn). lia. }
    split; [exact Hvn|]. split; [exact Hord|].
    destruct d as [[year month] day]. unfold add_one_day in Hn.
    destruct (Z.leb_spec (day + 1) (days_in_month year month));
      destruct (Z.ltb_spec day (days_in_month year month)); try lia;
      destruct (Z.leb_spec (month + 1) 12);
      destruct (Z.ltb_spec month 12); try lia;
      destruct (Z.leb_spec (year + 1) 9999); try discriminate;
      apply Ok_inj in Hn; congruence.
  - intros ->. rewrite temporal_lines_last_day in U. cbn [bind] in U.
    split; [exact U|]. unfold build_vevent. rewrite U. reflexivity.
Qed.

Lemma allday_tokens_witness :
  (exists lines,
     vevent_lines ascii_runtime 0 (allday_event (lit "2024-02-29") (lit "Launch"))
       no_defaults = Ok lines
     /\ nth_error lines 3 = Some (lit "DTSTART;VALUE=DATE:20240229")
     /\ nth_error lines 4 = Some (lit "DTEND;VALUE=DATE:20240301"))
  /\ build_vevent ascii_runtime 0 (allday_event (lit "9999-12-31") (lit "Launch"))
       no_defaults = Err OverflowError.
Proof.
  split.
  - destruct (allday_tokens ascii_runtime 0
                (allday_event (lit "2024-02-29") (lit "Launch")) no_defaults
                (2024, 2, 29)) as [W _].
    + unfold valid_date. cbn. lia.
    + reflexivity.
    + reflexivity.
    + reflexivity.
    + destruct (W ltac:(discriminate)) as [lines [next [H1 [H2 [H3 [_ [H4 [_ [_ H5]]]]]]]]].
      exists lines. split; [exact H1|]. split; [exact H2|].
      rewrite H3, (H4 ltac:(cbn; lia)), H5. reflexivity.
  - destruct (allday_tokens ascii_runtime 0
                (allday_event (lit "9999-12-31") (lit "Launch")) no_defaults
                (9999, 12, 31)) as [_ W].
    + unfold valid_date. cbn. lia.
    + reflexivity.
    + reflexivity.
    + reflexivity.
    + apply W. reflexivity.
Defined.

(** ** The lines of a property *)

Lemma has_line_app (name : str) (l1 l2 : list str) :
  has_line name (l1 ++ l2) = has_line name l1 || has_line name l2.
Proof. apply existsb_app. Qed.

Lemma differ_startswith (a b v : str) :
  differ a b = true -> startswith a (b ++ v) = false.
Proof.
  revert b. induction a as [|x a IH]; intros [|y b] H; try discriminate.
  cbn [differ] in H. cbn [app startswith].
  destruct (Z.eqb_spec x y); cbn [negb orb andb] in *; [|reflexivity].
  apply IH. exact H.
Qed.

Lemma has_line_differ (name prefix v : str) :
  differ name prefix = true -> has_line name [prefix ++ v] = false.
Proof.
  intros H. unfold has_line. cbn [existsb].
  rewrite (differ_startswith _ _ _ H). reflexivity.
Qed.

Lemma has_line_literal (name line : str) :
  differ name line = true -> has_line name [line] = false.
Proof.
  intros H. rewrite <- (app_nil_r line). apply has_line_differ. exact H.
Qed.

Lemma has_line_optional (name prefix : str) (format : str -> str) (value : option str) :
  differ name prefix = true ->
  has_line name (optional_line prefix format value) = false.
Proof.
  intros H. unfold optional_line. destruct (nonempty value); [|reflexivity].
  apply has_line_differ. exact H.
Qed.

Lemma has_line_checked (name prefix : str) (allowed : list str)
  (error : str -> message) (value : option str) (l : list str) :
  checked_line prefix allowed error value = Ok l ->
  differ name prefix = true -> has_line name l = false.
Proof.
  unfold checked_line. intros H D. destruct (nonempty value) as [v|].
  - destruct (negb (member v allowed)); [discriminate|].
    apply Ok_inj in H. subst l. apply has_line_differ. exact D.
  - apply Ok_inj in H. subst l. reflexivity.
Qed.

Lemma has_line_categories (name : str) (value : option (list str)) :
  differ name (lit "CATEGORIES:") = true ->
  has_line name match nonempty value with
                | Some categories => [lit "CATEGORIES:" ++ join [44] categories]
                | None => []
                end = false.
Proof.
  intros H. destruct (nonempty value); [|reflexivity].
  apply has_line_differ. exact H.
Qed.

(** Where a property other than the ones every event can have can occur. *)
Lemma has_line_layout (name uid dtstamp summary : str) (temporal status transp : list str)
  (event : Event) (reminder : Z) :
  forallb (differ name)
    [lit "BEGIN:VEVENT"; lit "UID:"; lit "DTSTAMP:"; lit "SUMMARY:";
     lit "DESCRIPTION:"; lit "LOCATION:"; lit "URL:"; lit "CATEGORIES:";
     lit "RRULE:"; lit "END:VEVENT"] = true ->
  has_line name (event_layout uid dtstamp temporal summary event status transp reminder)
  = has_line name temporal || has_line name status || has_line name transp
    || has_line name (alarm_lines reminder).
Proof.
  intros D. cbn [forallb] in D.
  repeat (apply andb_true_iff in D; destruct D as [? D]).
  unfold event_layout. rewrite !has_line_app.
  change [lit "BEGIN:VEVENT"; lit "UID:" ++ uid; lit "DTSTAMP:" ++ dtstamp]
    with ([lit "BEGIN:VEVENT"] ++ [lit "UID:" ++ uid] ++ [lit "DTSTAMP:" ++ dtstamp]).
  rewrite !has_line_app.
  rewrite !has_line_optional, has_line_categories by assumption.
  rewrite !has_line_differ, !has_line_literal by assumption.
  cbn [orb]. rewrite !orb_false_r, !orb_assoc. reflexivity.
Qed.

Lemma has_line_alarm (name : str) (reminder : Z) :
  forallb (differ name)
    [lit "BEGIN:VALARM"; lit "TRIGGER:"; lit "ACTION:DISPLAY";
     lit "DESCRIPTION:Reminder"; lit "END:VALARM"] = true ->
  has_line name (alarm_lines reminder) = false.
Proof.
  intros D. cbn [forallb] in D.
  repeat (apply andb_true_iff in D; destruct D as [? D]).
  unfold alarm_lines. destruct (0 <? reminder); [|reflexivity].
  change [lit "BEGIN:VALARM"; lit "TRIGGER:" ++ duration_parts (lit "-PT") reminder;
          lit "ACTION:DISPLAY"; lit "DESCRIPTION:Reminder"; lit "END:VALARM"]
    with ([lit "BEGIN:VALARM"]
          ++ [lit "TRIGGER:" ++ duration_parts (lit "-PT") reminder]
          ++ [lit "ACTION:DISPLAY"] ++ [lit "DESCRIPTION:Reminder"]
          ++ [lit "END:VALARM"]).
  rewrite !has_line_app.
  rewrite !has_line_differ, !has_line_literal by assumption. reflexivity.
Qed.

Lemma has_line_temporal (rt : Runtime) (name summary date : str) (time tz : option str)
  (duration : Z) (temporal : list str) :
  temporal_lines rt summary date time tz duration = Ok temporal ->
  forallb (differ name) [lit "DTSTART;"; lit "DTEND;"; lit "DURATION:"] = true ->
  has_line name temporal = false.
Proof.
  intros H D. cbn [forallb] in D.
  repeat (apply andb_true_iff in D; destruct D as [? D]).
  unfold temporal_lines in H. destruct time as [t|].
  - destruct (nonempty tz) as [z|]; [|discriminate].
    apply Ok_inj in H. subst temporal. rewrite has_line_app.
    change (lit "DTSTART;TZID=") with (lit "DTSTART;" ++ lit "TZID=").
    rewrite <- app_assoc, has_line_differ by assumption.
    destruct (negb (duration =? 0)); [|reflexivity].
    apply has_line_differ. assumption.
  - destruct (strptime rt date); [|discriminate]. cbn [bind] in H.
    destruct (add_one_day a); [|discriminate]. cbn [bind] in H.
    apply Ok_inj in H. subst temporal.
    change [lit "DTSTART;VALUE=DATE:" ++ format_date date;
            lit "DTEND;VALUE=DATE:" ++ strftime_date rt a0]
      with ([(lit "DTSTART;" ++ lit "VALUE=DATE:") ++ format_date date]
            ++ [(lit "DTEND;" ++ lit "VALUE=DATE:") ++ strftime_date rt a0]).
    rewrite has_line_app, <- !app_assoc, !has_line_differ by assumption.
    reflexivity.
Qed.

Lemma duration_parts_minus (prefix : str) (total : Z) :
  duration_parts (45 :: prefix) total = 45 :: duration_parts prefix total.
Proof.
  unfold duration_parts.
  destruct (total / 60 =? 0); destruct (total mod 60 =? 0); reflexivity.
Qed.

(** The token of a non-negative number of minutes. *)
Lemma duration_parts_nonnegative (total : Z) :
  0 <= total ->
  duration_parts (lit "PT") total
  = lit "PT"
    ++ (if 0 <? total / 60 then str_of_int (total / 60) ++ [72] else [])
    ++ (if 0 <? total mod 60 then str_of_int (total mod 60) ++ [77] else [])
    ++ (if (total / 60 =? 0) && (total mod 60 =? 0) then lit "0M" else []).
Proof.
  intros H. unfold duration_parts.
  assert (0 <= total / 60) by (apply Z.div_pos; lia).
  assert (0 <= total mod 60) by (apply Z.mod_pos_bound; lia).
  destruct (Z.eqb_spec (total / 60) 0); destruct (Z.ltb_spec 0 (total / 60)); try lia;
    destruct (Z.eqb_spec (total mod 60) 0); destruct (Z.ltb_spec 0 (total mod 60));
    try lia; cbn [negb andb]; rewrite <- ?app_assoc, ?app_nil_r; reflexivity.
Qed.

(** The effective minutes of an event are the inherited ones of the
    specification. *)
Lemma effective_duration_inherited (event : Event) (defaults : Defaults) :
  effective_duration event defaults
  = inherited_minutes (e_duration_minutes event) (d_duration_minutes defaults) 60.
Proof.
  unfold effective_duration, inherited_minutes.
  destruct (e_duration_minutes event); [reflexivity|].
  destruct (d_duration_minutes defaults); reflexivity.
Qed.

Lemma effective_reminder_inherited (event : Event) (defaults : Defaults) :
  effective_reminder event defaults
  = inherited_minutes (e_reminder_minutes event) (d_reminder_minutes defaults) 0.
Proof.
  unfold effective_reminder, inherited_minutes.
  destruct (e_reminder_minutes event); [reflexivity|].
  destruct (d_reminder_minutes defaults); reflexivity.
Qed.

(** The defaults of a document hand down the values of its root object. *)
Lemma document_defaults_inherited (data : Document) (own : option Z) :
  inherited_minutes own (d_duration_minutes (document_defaults data)) 60
  = inherited_minutes own (doc_duration_minutes data) 60
  /\ inherited_minutes own (d_reminder_minutes (document_defaults data)) 0
     = inherited_minutes own (doc_reminder_minutes data) 0.
Proof.
  unfold document_defaults, inherited_minutes. cbn [d_duration_minutes d_reminder_minutes].
  destruct own; [split; reflexivity|].
  destruct (doc_duration_minutes data); destruct (doc_reminder_minutes data);
    split; reflexivity.
Qed.

(** The lines of an event with a time, by the minutes that [build_vevent]
    resolves. *)
Lemma timed_lines_effective (rt : Runtime) (n : nat) (event : Event)
  (defaults : Defaults) (time : str) (lines : list str) :
  e_time event = Some time ->
  0 <= effective_duration event defaults ->
  vevent_lines rt n event defaults = Ok lines ->
  duration_and_alarm (effective_duration event defaults)
    (effective_reminder event defaults) lines.
Proof.
  intros Et Hdur H.
  set (duration := effective_duration event defaults) in *.
  set (reminder := effective_reminder event defaults) in *.
  destruct (vevent_lines_ok rt n event defaults lines H)
    as [date [summary [temporal [status [transp
        [Hd [Hs [Hre [Hct [Ht [Hst [Htr ->]]]]]]]]]]]].
  fold duration in Ht. fold reminder. rewrite Et in Ht.
  unfold temporal_lines in Ht.
  destruct (nonempty (resolved_timezone event defaults)) as [tz|]; [|discriminate].
  apply Ok_inj in Ht.
  assert (Hneg : negb (duration =? 0) = (0 <? duration)).
  { destruct (Z.eqb_spec duration 0); destruct (Z.ltb_spec 0 duration);
      try reflexivity; lia. }
  rewrite Hneg in Ht. unfold duration_and_alarm.
  rewrite (has_line_layout (lit "DURATION:") _ _ _ _ _ _ _ _ eq_refl).
  rewrite (has_line_layout (lit "BEGIN:VALARM") _ _ _ _ _ _ _ _ eq_refl).
  rewrite (has_line_layout (lit "TRIGGER:") _ _ _ _ _ _ _ _ eq_refl).
  rewrite (has_line_checked (lit "DURATION:") _ _ _ _ _ Hst eq_refl).
  rewrite (has_line_checked (lit "DURATION:") _ _ _ _ _ Htr eq_refl).
  rewrite (has_line_checked (lit "BEGIN:VALARM") _ _ _ _ _ Hst eq_refl).
  rewrite (has_line_checked (lit "BEGIN:VALARM") _ _ _ _ _ Htr eq_refl).
  rewrite (has_line_checked (lit "TRIGGER:") _ _ _ _ _ Hst eq_refl).
  rewrite (has_line_checked (lit "TRIGGER:") _ _ _ _ _ Htr eq_refl).
  rewrite !orb_false_r.
  subst temporal. unfold alarm_lines.
  repeat split.
  - destruct (0 <? duration); destruct (0 <? reminder); reflexivity.
  - intros Hpos. destruct (Z.ltb_spec 0 duration); [|lia].
    unfold event_layout. apply in_or_app. right. apply in_or_app. left.
    right. left. reflexivity.
  - destruct (0 <? duration); destruct (0 <? reminder); reflexivity.
  - destruct (0 <? duration); destruct (0 <? reminder); reflexivity.
  - intros Hpos. unfold event_layout, alarm_lines.
    destruct (Z.ltb_spec 0 reminder); [|lia].
    change (lit "-PT") with (45 :: lit "PT"). rewrite duration_parts_minus.
    eexists. rewrite !app_assoc. rewrite <- app_assoc. reflexivity.
Qed.

(** C7. The duration token of a non-negative number of minutes is PT, the
    hours when there are any, the minutes when there are any, and 0M when
    there are neither. The effective duration of an event is its own
    [duration_minutes] when it has one, else the one of the defaults, else
    60, and its effective reminder its own [reminder_minutes], else the one
    of the defaults, else 0. A timed event with a non-negative effective
    duration has a DURATION line, with the token of that duration, exactly
    when the duration is positive; it has an alarm block exactly when its
    effective reminder is positive, at the end of the event, with a trigger
    that is a minus sign before the token of the reminder. The same holds of
    an event built for a document, whose defaults are the values of the root
    object. *)
Theorem duration_and_alarm_lines :
  (forall total, 0 <= total ->
     duration_parts (lit "PT") total
     = lit "PT"
       ++ (if 0 <? total / 60 then str_of_int (total / 60) ++ [72] else [])
       ++ (if 0 <? total mod 60 then str_of_int (total mod 60) ++ [77] else [])
       ++ (if (total / 60 =? 0) && (total mod 60 =? 0) then lit "0M" else []))
  /\ (forall rt n event defaults time lines,
        e_time event = Some time ->
        let duration :=
          match e_duration_minutes event, d_duration_minutes defaults with
          | Some own, _ => own
          | None, Some inherited => inherited
          | None, None => 60
          end in
        let reminder :=
          match e_reminder_minutes event, d_reminder_minutes defaults with
          | Some own, _ => own
          | None, Some inherited => inherited
          | None, None => 0
          end in
        0 <= duration ->
        vevent_lines rt n event defaults = Ok lines ->
        has_line (lit "DURATION:") lines = (0 <? duration)
        /\ (0 < duration ->
            In (lit "DURATION:" ++ duration_parts (lit "PT") duration) lines)
        /\ has_line (lit "BEGIN:VALARM") lines = (0 <? reminder)
        /\ has_line (lit "TRIGGER:") lines = (0 <? reminder)
        /\ (0 < reminder ->
            exists before,
              lines = before
                      ++ [lit "BEGIN:VALARM";
                          lit "TRIGGER:" ++ [45] ++ duration_parts (lit "PT") reminder;
                          lit "ACTION:DISPLAY"; lit "DESCRIPTION:Reminder";
                          lit "END:VALARM"; lit "END:VEVENT"]))
  /\ (forall rt n event data time lines,
        e_time event = Some time ->
        let duration :=
          inherited_minutes (e_duration_minutes event) (doc_duration_minutes data) 60 in
        let reminder :=
          inherited_minutes (e_reminder_minutes event) (doc_reminder_minutes data) 0 in
        0 <= duration ->
        vevent_lines rt n event (document_defaults data) = Ok lines ->
        duration_and_alarm duration reminder lines).
Proof.
  split; [exact duration_parts_nonnegative|]. split.
  - intros rt n event defaults time lines Et duration reminder Hdur H.
    change duration
      with (inherited_minutes (e_duration_minutes event) (d_duration_minutes defaults) 60)
      in *.
    change reminder
      with (inherited_minutes (e_reminder_minutes event) (d_reminder_minutes defaults) 0).
    rewrite <- effective_duration_inherited in *.
    rewrite <- effective_reminder_inherited.
    exact (timed_lines_effective rt n event defaults time lines Et Hdur H).
  - intros rt n event data time lines Et duration reminder Hdur H.
    destruct (document_defaults_inherited data (e_duration_minutes event)) as [E1 _].
    destruct (document_defaults_inherited data (e_reminder_minutes event)) as [_ E2].
    unfold duration, reminder in *. rewrite <- E1 in *. rewrite <- E2.
    rewrite <- effective_duration_inherited in *.
    rewrite <- effective_reminder_inherited.
    exact (timed_lines_effective rt n event _ time lines Et Hdur H).
Qed.

Lemma duration_and_alarm_lines_witness :
  exists lines,
    vevent_lines ascii_runtime 0 standup_event reminder_defaults = Ok lines
    /\ has_line (lit "DURATION:") lines = true
    /\ In (lit "DURATION:PT30M") lines
    /\ has_line (lit "BEGIN:VALARM") lines = true
    /\ exists before,
         lines = before
                 ++ [lit "BEGIN:VALARM"; lit "TRIGGER:-PT15M"; lit "ACTION:DISPLAY";
                     lit "DESCRIPTION:Reminder"; lit "END:VALARM"; lit "END:VEVENT"].
Proof.
  destruct duration_and_alarm_lines as [_ [W _]].
  eexists. split; [reflexivity|].
  destruct (W ascii_runtime 0%nat standup_event reminder_defaults (lit "09:00") _
              eq_refl ltac:(cbn; lia) eq_refl)
    as [H1 [H2 [H3 [_ H5]]]].
  split; [exact H1|]. split; [apply H2; cbn; lia|]. split; [exact H3|].
  apply H5. cbn. lia.
Defined.

Lemma member_In (x : str) (l : list str) : member x l = true <-> In x l.
Proof.
  unfold member. rewrite existsb_exists. split.
  - intros [y [Hy E]]. apply str_eqb_eq in E. subst. exact Hy.
  - intros H. exists x. split; [exact H|]. apply str_eqb_eq. reflexivity.
Qed.

Lemma checked_line_rejects (name : str) (allowed : list str) (error : str -> message)
  (value : option str) (v : str) :
  nonempty value = Some v -> ~ In v allowed ->
  checked_line name allowed error value = Err (ValueError (error v)).
Proof.
  intros Hv Hnot. unfold checked_line. rewrite Hv.
  destruct (member v allowed) eqn:E; [apply member_In in E; contradiction|].
  reflexivity.
Qed.

Lemma checked_line_accepts (name : str) (allowed : list str) (error : str -> message)
  (value : option str) (v : str) (l : list str) :
  nonempty value = Some v -> checked_line name allowed error value = Ok l ->
  In v allowed /\ l = [name ++ v].
Proof.
  intros Hv. unfold checked_line. rewrite Hv.
  destruct (member v allowed) eqn:E; cbn [negb]; [|discriminate].
  intros H. apply Ok_inj in H. apply member_In in E. split; [exact E|congruence].
Qed.

(** C9, as stated, fails: a status that is present and is the empty string
    is not one of the enumeration, and the event is built all the same,
    without a STATUS line and without an error; so is an event whose
    transparency is the empty string. *)
Lemma empty_enumeration_value_is_built :
  (e_status (set_field Fstatus (Some []) sync_event) = Some []
   /\ ~ In [] status_values
   /\ exists lines,
        vevent_lines ascii_runtime 0 (set_field Fstatus (Some []) sync_event)
          no_defaults = Ok lines
        /\ has_line (lit "STATUS:") lines = false)
  /\ (e_transp (set_field Ftransp (Some []) sync_event) = Some []
      /\ ~ In [] transp_values
      /\ exists lines,
           vevent_lines ascii_runtime 0 (set_field Ftransp (Some []) sync_event)
             no_defaults = Ok lines
           /\ has_line (lit "TRANSP:") lines = false).
Proof.
  split; (split; [reflexivity|]); (split; [intros H; vm_compute in H; intuition discriminate|]);
    eexists; (split; [vm_compute; reflexivity|reflexivity]).
Qed.

(** C9, amended. A status that is not empty and is not one of TENTATIVE,
    CONFIRMED and CANCELLED makes the build fail, and when the checks before
    it pass the error is the one that names the three values; the same holds
    of a transparency that is not empty and is not OPAQUE or TRANSPARENT,
    after the check of the status. A value that is accepted is one of the
    enumeration and is written as it was given. *)
Theorem enumerations_checked (rt : Runtime) (n : nat) (event : Event)
  (defaults : Defaults) :
  (forall status,
     nonempty (e_status event) = Some status ->
     ~ In status [lit "TENTATIVE"; lit "CONFIRMED"; lit "CANCELLED"] ->
     is_ok (vevent_lines rt n event defaults) = false
     /\ (forall date summary temporal,
           nonempty (e_date event) = Some date ->
           nonempty (e_summary event) = Some summary ->
           re_match rt date_pattern date = true ->
           check_time rt (e_time event) = Ok tt ->
           temporal_lines rt summary date (e_time event)
             (resolved_timezone event defaults) (effective_duration event defaults)
           = Ok temporal ->
           vevent_lines rt n event defaults
           = Err (ValueError (Msg (lit "Invalid status '" ++ status
                    ++ lit "', expected TENTATIVE/CONFIRMED/CANCELLED")))))
  /\ (forall transp,
        nonempty (e_transp event) = Some transp ->
        ~ In transp [lit "OPAQUE"; lit "TRANSPARENT"] ->
        is_ok (vevent_lines rt n event defaults) = false
        /\ (forall date summary temporal status,
              nonempty (e_date event) = Some date ->
              nonempty (e_summary event) = Some summary ->
              re_match rt date_pattern date = true ->
              check_time rt (e_time event) = Ok tt ->
              temporal_lines rt summary date (e_time event)
                (resolved_timezone event defaults) (effective_duration event defaults)
              = Ok temporal ->
              checked_line (lit "STATUS:") status_values status_error (e_status event)
              = Ok status ->
              vevent_lines rt n event defaults
              = Err (ValueError (Msg (lit "Invalid transp '" ++ transp
                       ++ lit "', expected OPAQUE/TRANSPARENT")))))
  /\ (forall lines,
        vevent_lines rt n event defaults = Ok lines ->
        (forall status,
           nonempty (e_status event) = Some status ->
           In status [lit "TENTATIVE"; lit "CONFIRMED"; lit "CANCELLED"]
           /\ In (lit "STATUS:" ++ status) lines)
        /\ (forall transp,
              nonempty (e_transp event) = Some transp ->
              In transp [lit "OPAQUE"; lit "TRANSPARENT"]
              /\ In (lit "TRANSP:" ++ transp) lines)).
Proof.
  split; [|split].
  - intros status Hst Hnot.
    pose proof (checked_line_rejects (lit "STATUS:") status_values status_error
                  _ _ Hst Hnot) as R.
    split.
    + destruct (vevent_lines rt n event defaults) as [lines|e] eqn:E; [|reflexivity].
      destruct (vevent_lines_ok rt n event defaults lines E)
        as [? [? [? [? [? [_ [_ [_ [_ [_ [H _]]]]]]]]]]].
      congruence.
    + intros date summary temporal Hd Hs Hre Hct Ht.
      rewrite (vevent_lines_unfold rt n event defaults date summary Hd Hs),
        Hre, Hct, Ht, R.
      reflexivity.
  - intros transp Htr Hnot.
    pose proof (checked_line_rejects (lit "TRANSP:") transp_values transp_error
                  _ _ Htr Hnot) as R.
    split.
    + destruct (vevent_lines rt n event defaults) as [lines|e] eqn:E; [|reflexivity].
      destruct (vevent_lines_ok rt n event defaults lines E)
        as [? [? [? [? [? [_ [_ [_ [_ [_ [_ [H _]]]]]]]]]]]].
      congruence.
    + intros date summary temporal status Hd Hs Hre Hct Ht Hst.
      rewrite (vevent_lines_unfold rt n event defaults date summary Hd Hs),
        Hre, Hct, Ht, Hst, R.
      reflexivity.
  - intros lines E.
    destruct (vevent_lines_ok rt n event defaults lines E)
      as [date [summary [temporal [status [transp
          [_ [_ [_ [_ [_ [Hst [Htr ->]]]]]]]]]]]].
    split.
    + intros v Hv.
      destruct (checked_line_accepts _ _ _ _ _ _ Hv Hst) as [Hin ->].
      split; [exact Hin|]. unfold event_layout.
      do 7 (apply in_or_app; right). apply in_or_app. left. left. reflexivity.
    + intros v Hv.
      destruct (checked_line_accepts _ _ _ _ _ _ Hv Htr) as [Hin ->].
      split; [exact Hin|]. unfold event_layout.
      do 8 (apply in_or_app; right). apply in_or_app. left. left. reflexivity.
Qed.

Lemma enumerations_checked_witness :
  vevent_lines ascii_runtime 0 (set_field Fstatus (Some (lit "MAYBE")) sync_event)
    no_defaults
  = Err (ValueError (Msg (lit "Invalid status 'MAYBE', expected TENTATIVE/CONFIRMED/CANCELLED"))).
Proof.
  destruct (enumerations_checked ascii_runtime 0
              (set_field Fstatus (Some (lit "MAYBE")) sync_event) no_defaults)
    as [H _].
  destruct (H (lit "MAYBE") eq_refl) as [_ H'].
  - cbn [In]. intros [E|[E|[E|[]]]]; vm_compute in E; discriminate.
  - eapply H'; reflexivity.
Defined.

(** C10, as stated, fails: the timezone of an event is looked up by key, so
    an empty timezone overrides the inherited one and the build fails, where
    a record without the key is built; and the all-day branch is taken when
    the time is [None] only, so an empty time gives a timed event. *)
Lemma empty_value_is_not_always_absence :
  (is_ok (vevent_lines ascii_runtime 0 (set_field Ftimezone (Some []) sync_event)
            utc_defaults) = false
   /\ is_ok (vevent_lines ascii_runtime 0 (set_field Ftimezone None sync_event)
               utc_defaults) = true)
  /\ (exists timed allday,
        vevent_lines ascii_runtime 0 (set_field Ftime (Some []) sync_event)
          no_defaults = Ok timed
        /\ vevent_lines ascii_runtime 0 (set_field Ftime None sync_event)
             no_defaults = Ok allday
        /\ nth_error timed 3 = Some (lit "DTSTART;TZID=UTC:20240601T00")
        /\ nth_error allday 3 = Some (lit "DTSTART;VALUE=DATE:20240601")).
Proof.
  split; [split; vm_compute; reflexivity|].
  eexists. eexists. split; [vm_compute; reflexivity|].
  split; [vm_compute; reflexivity|]. split; reflexivity.
Qed.

Lemma vevent_lines_empty_optional (rt : Runtime) (n : nat) (event : Event)
  (defaults : Defaults) (f : field) (lines : list str) :
  In f [Fdescription; Flocation; Furl; Fstatus; Ftransp; Frrule] ->
  vevent_lines rt n (set_field f (Some []) event) defaults = Ok lines
  <-> vevent_lines rt n (set_field f None event) defaults = Ok lines.
Proof.
  intros Hf. cbn [In] in Hf.
  destruct Hf as [<-|[<-|[<-|[<-|[<-|[<-|[]]]]]]];
    unfold vevent_lines;
    cbn [set_field e_date e_summary e_time e_timezone e_reminder_minutes
         e_duration_minutes e_description e_location e_url e_categories
         e_status e_transp e_rrule];
    destruct (nonempty (e_date event)); destruct (nonempty (e_summary event));
    split; intros H; try discriminate H; exact H.
Qed.

(** C10, amended. The tests of [build_vevent] on the truth value of a field
    take an empty value as absence: a record whose date or summary is the
    empty string is rejected as missing a required field; a record whose
    description, location, url, status, transp or rrule is the empty string,
    or whose list of categories is empty, is built exactly as the record
    without that field is, and fails exactly when that one does; with an
    empty status the enumeration is not checked and no STATUS line is
    written. *)
Theorem empty_value_is_absence (rt : Runtime) (n : nat) (event : Event)
  (defaults : Defaults) :
  (forall f, In f [Fdate; Fsummary] ->
     vevent_lines rt n (set_field f (Some []) event) defaults
     = Err (ValueError (MsgMissingFields (set_field f (Some []) event))))
  /\ (forall f lines,
        In f [Fdescription; Flocation; Furl; Fstatus; Ftransp; Frrule] ->
        vevent_lines rt n (set_field f (Some []) event) defaults = Ok lines
        <-> vevent_lines rt n (set_field f None event) defaults = Ok lines)
  /\ (forall lines,
        vevent_lines rt n (set_categories (Some []) event) defaults = Ok lines
        <-> vevent_lines rt n (set_categories None event) defaults = Ok lines)
  /\ (forall lines,
        vevent_lines rt n (set_field Fstatus (Some []) event) defaults = Ok lines ->
        checked_line (lit "STATUS:") status_values status_error
          (e_status (set_field Fstatus (Some []) event)) = Ok []
        /\ has_line (lit "STATUS:") lines = false).
Proof.
  split; [|split; [|split]].
  - intros f Hf. cbn [In] in Hf. destruct Hf as [<-|[<-|[]]];
      apply vevent_lines_missing; [left|right]; reflexivity.
  - intros f lines Hf. apply vevent_lines_empty_optional. exact Hf.
  - intros lines. unfold vevent_lines.
    cbn [set_categories e_date e_summary e_time e_timezone e_reminder_minutes
         e_duration_minutes e_description e_location e_url e_categories
         e_status e_transp e_rrule].
    destruct (nonempty (e_date event)); destruct (nonempty (e_summary event));
      split; intros H; try discriminate H; exact H.
  - intros lines H. split; [reflexivity|].
    destruct (vevent_lines_ok _ _ _ _ _ H)
      as [date [summary [temporal [status [transp
          [_ [_ [_ [_ [Ht [Hst [Htr ->]]]]]]]]]]]].
    assert (Hs : status = []).
    { cbn in Hst. apply Ok_inj in Hst. congruence. }
    subst status.
    rewrite (has_line_layout (lit "STATUS:") _ _ _ _ _ _ _ _ eq_refl).
    rewrite (has_line_temporal _ (lit "STATUS:") _ _ _ _ _ _ Ht eq_refl).
    rewrite (has_line_checked (lit "STATUS:") _ _ _ _ _ Htr eq_refl).
    rewrite (has_line_alarm (lit "STATUS:") _ eq_refl). reflexivity.
Qed.

Lemma empty_value_is_absence_witness :
  vevent_lines ascii_runtime 0 (set_field Fsummary (Some []) sync_event) no_defaults
  = Err (ValueError (MsgMissingFields (set_field Fsummary (Some []) sync_event)))
  /\ exists lines,
       vevent_lines ascii_runtime 0 (set_field Fstatus (Some []) sync_event) no_defaults
       = Ok lines
       /\ vevent_lines ascii_runtime 0 (set_field Fstatus None sync_event) no_defaults
          = Ok lines
       /\ has_line (lit "STATUS:") lines = false.
Proof.
  destruct (empty_value_is_absence ascii_runtime 0 sync_event no_defaults)
    as [H1 [H2 [_ H4]]].
  split; [apply H1; right; left; reflexivity|].
  eexists. split; [reflexivity|]. split.
  - apply H2; [do 3 right; left; reflexivity|reflexivity].
  - apply H4. reflexivity.
Defined.

(** ** The document *)

Lemma temporal_lines_shape (rt : Runtime) (summary date : str) (time tz : option str)
  (duration : Z) (temporal : list str) :
  temporal_lines rt summary date time tz duration = Ok temporal ->
  temporal_shape temporal.
Proof.
  unfold temporal_lines, temporal_shape. intros H. destruct time as [t|].
  - destruct (nonempty tz) as [z|]; [|discriminate]. apply Ok_inj in H. subst.
    right. destruct (negb (duration =? 0)).
    + right. eexists. eexists. cbn [app]. reflexivity.
    + left. eexists. cbn [app]. reflexivity.
  - destruct (strptime rt date); [|discriminate]. cbn [bind] in H.
    destruct (add_one_day a); [|discriminate]. cbn [bind] in H.
    apply Ok_inj in H. subst. left. eexists. eexists. reflexivity.
Qed.

Lemma checked_line_shape (name : str) (allowed : list str) (error : str -> message)
  (value : option str) (l : list str) :
  checked_line name allowed error value = Ok l -> at_most_one name l.
Proof.
  unfold checked_line, at_most_one. intros H. destruct (nonempty value) as [v|].
  - destruct (negb (member v allowed)); [discriminate|].
    apply Ok_inj in H. right. exists v. congruence.
  - apply Ok_inj in H. left. congruence.
Qed.

(** The loop over the events appends one block for each event, in order:
    the lines of the event, joined. *)
Lemma build_events_ok (rt : Runtime) (defaults : Defaults) (events : list Event) :
  forall n lines out,
    build_events rt n events defaults lines = Ok out ->
    exists blocks,
      out = lines ++ map (join crlf) blocks
      /\ length blocks = length events
      /\ forall i event,
           nth_error events i = Some event ->
           exists block,
             vevent_lines rt (n + i) event defaults = Ok block
             /\ nth_error blocks i = Some block.
Proof.
  induction events as [|event events IH]; intros n lines out H.
  - cbn in H. apply Ok_inj in H. subst. exists []. cbn [map]. rewrite app_nil_r.
    split; [reflexivity|]. split; [reflexivity|].
    intros i e Hi. destruct i; discriminate.
  - cbn [build_events] in H. unfold build_vevent in H.
    destruct (vevent_lines rt n event defaults) as [block|e] eqn:E; [|discriminate].
    cbn [bind] in H. destruct (IH _ _ _ H) as [blocks [-> [Hlen Hnth]]].
    exists (block :: blocks). rewrite <- app_assoc.
    split; [reflexivity|]. split; [cbn; congruence|].
    intros [|i] e Hi.
    + cbn in Hi. injection Hi as <-. exists block. rewrite Nat.add_0_r.
      split; [exact E|reflexivity].
    + cbn in Hi. destruct (Hnth i e Hi) as [b [Hb Hn]].
      exists b. split; [|exact Hn].
      replace (n + S i)%nat with (S n + i)%nat by lia. exact Hb.
Qed.

(** The first event that fails stops the loop with its error. *)
Lemma build_events_first_error (rt : Runtime) (defaults : Defaults) (events : list Event) :
  forall n lines i event e,
    nth_error events i = Some event ->
    (forall j earlier, (j < i)%nat -> nth_error events j = Some earlier ->
       is_ok (build_vevent rt (n + j) earlier defaults) = true) ->
    build_vevent rt (n + i) event defaults = Err e ->
    build_events rt n events defaults lines = Err e.
Proof.
  induction events as [|first events IH]; intros n lines i event e Hi Hbefore He.
  - destruct i; discriminate.
  - cbn [build_events]. destruct i as [|i].
    + cbn in Hi. injection Hi as ->. rewrite Nat.add_0_r in He. rewrite He.
      reflexivity.
    + pose proof (Hbefore 0%nat first ltac:(lia) eq_refl) as H0.
      rewrite Nat.add_0_r in H0.
      destruct (build_vevent rt n first defaults) as [block|e0]; [|discriminate].
      cbn [bind]. apply (IH (S n) _ i event e).
      * exact Hi.
      * intros j earlier Hj Hnth.
        replace (S n + j)%nat with (n + S j)%nat by lia.
        apply (Hbefore (S j) earlier); [lia|exact Hnth].
      * replace (S n + i)%nat with (n + S i)%nat by lia. exact He.
Qed.

(** Whether an event is built does not depend on the draw. *)
Lemma vevent_lines_is_ok_draw (rt : Runtime) (n m : nat) (event : Event)
  (defaults : Defaults) :
  is_ok (vevent_lines rt n event defaults) = is_ok (vevent_lines rt m event defaults).
Proof.
  destruct (nonempty (e_date event)) as [date|] eqn:Hd;
    [|rewrite !vevent_lines_missing by (left; exact Hd); reflexivity].
  destruct (nonempty (e_summary event)) as [summary|] eqn:Hs;
    [|rewrite !vevent_lines_missing by (right; exact Hs); reflexivity].
  rewrite !(vevent_lines_unfold rt _ event defaults date summary Hd Hs).
  destruct (re_match rt date_pattern date); [|reflexivity].
  destruct (check_time rt (e_time event)); [|reflexivity]. cbn [bind].
  destruct (temporal_lines rt summary date (e_time event)
              (resolved_timezone event defaults) (effective_duration event defaults));
    [|reflexivity].
  cbn [bind].
  destruct (checked_line (lit "STATUS:") status_values status_error (e_status event));
    [|reflexivity].
  cbn [bind].
  destruct (checked_line (lit "TRANSP:") transp_values transp_error (e_transp event));
    reflexivity.
Qed.

Lemma build_vevent_is_ok_draw (rt : Runtime) (n m : nat) (event : Event)
  (defaults : Defaults) :
  is_ok (build_vevent rt n event defaults) = is_ok (build_vevent rt m event defaults).
Proof.
  unfold build_vevent. pose proof (vevent_lines_is_ok_draw rt n m event defaults) as H.
  destruct (vevent_lines rt n event defaults);
    destruct (vevent_lines rt m event defaults); cbn in *; congruence.
Qed.

Lemma build_events_any_error (rt : Runtime) (defaults : Defaults) (events : list Event) :
  forall n lines i event,
    nth_error events i = Some event ->
    is_ok (build_vevent rt i event defaults) = false ->
    is_ok (build_events rt n events defaults lines) = false.
Proof.
  induction events as [|first events IH]; intros n lines i event Hi He.
  - destruct i; discriminate.
  - cbn [build_events].
    destruct (build_vevent rt n first defaults) as [block|e0] eqn:E; [|reflexivity].
    cbn [bind]. destruct i as [|i].
    + cbn in Hi. injection Hi as ->.
      rewrite (build_vevent_is_ok_draw rt 0 n) in He. rewrite E in He. discriminate.
    + apply (IH (S n) _ i event Hi).
      rewrite (build_vevent_is_ok_draw rt i (S i)). exact He.
Qed.

Lemma fold_content_header :
  fold_content (join crlf calendar_header) = Ok (join crlf calendar_header).
Proof. vm_compute. reflexivity. Qed.

Lemma fold_content_footer :
  fold_content (lit "END:VCALENDAR") = Ok (lit "END:VCALENDAR").
Proof. vm_compute. reflexivity. Qed.

Lemma split_join_lines (ls : list str) :
  ls <> [] -> Forall (fun l => contains crlf l = false) ls ->
  split crlf (join crlf ls) = ls.
Proof.
  intros Hne HF. induction HF as [|l ls Hl HF IH]; [congruence|].
  destruct ls as [|l' ls].
  - cbn [join]. apply split_plain. exact Hl.
  - rewrite join_cons by discriminate. rewrite split_crlf_app, (split_plain l Hl).
    rewrite IH by discriminate. reflexivity.
Qed.

Lemma join_concat (blocks : list (list str)) :
  blocks <> [] -> Forall (fun block => block <> []) blocks ->
  join crlf (map (join crlf) blocks) = join crlf (concat blocks).
Proof.
  intros Hne HF. induction HF as [|block blocks Hb HF IH]; [congruence|].
  destruct blocks as [|block' blocks].
  - cbn [map join concat]. rewrite app_nil_r. reflexivity.
  - cbn [map concat] in IH |- *. rewrite join_cons by discriminate.
    rewrite IH by discriminate. symmetry. apply join_app; [exact Hb|].
    inversion HF; subst. destruct block'; [congruence|discriminate].
Qed.

Lemma event_layout_middle (uid dtstamp summary : str) (temporal status transp : list str)
  (event : Event) (reminder : Z) :
  event_layout uid dtstamp temporal summary event status transp reminder
  = lit "BEGIN:VEVENT"
    :: event_middle uid dtstamp temporal summary event status transp reminder
    ++ [lit "END:VEVENT"].
Proof.
  unfold event_layout, event_middle. rewrite <- !app_assoc. reflexivity.
Qed.

(** Between its first and last line an event has no line that begins or ends
    an event. *)
Lemma has_line_middle (rt : Runtime) (name uid dtstamp summary date : str)
  (time tz : option str) (duration : Z) (temporal status transp : list str)
  (event : Event) (reminder : Z) :
  name = lit "BEGIN:VEVENT" \/ name = lit "END:VEVENT" ->
  temporal_lines rt summary date time tz duration = Ok temporal ->
  checked_line (lit "STATUS:") status_values status_error (e_status event) = Ok status ->
  checked_line (lit "TRANSP:") transp_values transp_error (e_transp event) = Ok transp ->
  has_line name (event_middle uid dtstamp temporal summary event status transp reminder)
  = false.
Proof.
  intros Hname Ht Hst Htr. unfold event_middle.
  change [lit "UID:" ++ uid; lit "DTSTAMP:" ++ dtstamp]
    with ([lit "UID:" ++ uid] ++ [lit "DTSTAMP:" ++ dtstamp]).
  rewrite !has_line_app.
  assert (Hother :
    forall nm,
      forallb (differ nm)
        [lit "UID:"; lit "DTSTAMP:"; lit "SUMMARY:"; lit "DESCRIPTION:";
         lit "LOCATION:"; lit "URL:"; lit "CATEGORIES:"; lit "STATUS:";
         lit "TRANSP:"; lit "RRULE:"; lit "DTSTART;"; lit "DTEND;"; lit "DURATION:";
         lit "BEGIN:VALARM"; lit "TRIGGER:"; lit "ACTION:DISPLAY";
         lit "DESCRIPTION:Reminder"; lit "END:VALARM"] = true ->
      has_line nm [lit "UID:" ++ uid] || has_line nm [lit "DTSTAMP:" ++ dtstamp]
      || has_line nm temporal || has_line nm [lit "SUMMARY:" ++ escape_text summary]
      || has_line nm (optional_line (lit "DESCRIPTION:") escape_text (e_description event))
      || has_line nm (optional_line (lit "LOCATION:") escape_text (e_location event))
      || has_line nm (optional_line (lit "URL:") (fun url => url) (e_url event))
      || has_line nm match nonempty (e_categories event) with
                     | Some categories => [lit "CATEGORIES:" ++ join [44] categories]
                     | None => []
                     end
      || has_line nm status || has_line nm transp
      || has_line nm (optional_line (lit "RRULE:") (fun rrule => rrule) (e_rrule event))
      || has_line nm (alarm_lines reminder) = false).
  { intros nm D. cbn [forallb] in D.
    repeat (apply andb_true_iff in D; destruct D as [? D]).
    rewrite !has_line_optional, has_line_categories by assumption.
    rewrite (has_line_temporal _ nm _ _ _ _ _ _ Ht)
      by (cbn [forallb]; repeat (apply andb_true_iff; split); assumption).
    rewrite (has_line_checked nm _ _ _ _ _ Hst), (has_line_checked nm _ _ _ _ _ Htr)
      by assumption.
    rewrite (has_line_alarm nm)
      by (cbn [forallb]; repeat (apply andb_true_iff; split); assumption).
    rewrite !has_line_differ by assumption. reflexivity. }
  rewrite !orb_assoc. destruct Hname as [-> | ->]; apply Hother; reflexivity.
Qed.

(** The text of a document that is generated: the header, the folded blocks
    of the events and the footer. *)
Lemma generate_ics_blocks (rt : Runtime) (data : Document) (text : str) :
  generate_ics rt data = Ok text ->
  exists events blocks body,
    doc_events data = Some events
    /\ events <> []
    /\ length blocks = length events
    /\ (forall i event,
          nth_error events i = Some event ->
          exists block,
            vevent_lines rt i event (document_defaults data) = Ok block
            /\ nth_error blocks i = Some block)
    /\ fold_content (join crlf (map (join crlf) blocks)) = Ok body
    /\ text = join crlf calendar_header ++ crlf ++ body ++ crlf ++ lit "END:VCALENDAR".
Proof.
  unfold generate_ics. intros H.
  destruct (doc_events data) as [events|] eqn:Ev; [|discriminate].
  destruct events as [|event0 events]; [discriminate|].
  cbn [nonempty] in H.
  destruct (build_events rt 0 (event0 :: events) (document_defaults data) calendar_header)
    as [lines|e] eqn:B; [|discriminate].
  cbn [bind] in H.
  destruct (build_events_ok _ _ _ _ _ _ B) as [blocks [-> [Hlen Hnth]]].
  assert (Hb : map (join crlf) blocks <> []) by (destruct blocks; discriminate).
  rewrite <- app_assoc in H.
  rewrite (join_app crlf calendar_header) in H;
    [|discriminate|destruct blocks; discriminate].
  rewrite (join_app crlf (map (join crlf) blocks)) in H by (assumption || discriminate).
  destruct (fold_content_app _ _ _ H) as [th [tr [Hh [Hr ->]]]].
  destruct (fold_content_app _ _ _ Hr) as [body [tf [Hbody [Hf ->]]]].
  rewrite fold_content_header in Hh. apply Ok_inj in Hh. subst th.
  change (join crlf [lit "END:VCALENDAR"]) with (lit "END:VCALENDAR") in Hf.
  rewrite fold_content_footer in Hf. apply Ok_inj in Hf. subst tf.
  exists (event0 :: events), blocks, body.
  split; [reflexivity|]. split; [discriminate|]. split; [exact Hlen|].
  split; [exact Hnth|]. split; [exact Hbody|reflexivity].
Qed.

Lemma Forall_nth_error {A : Type} (P : A -> Prop) (l : list A) :
  (forall i a, nth_error l i = Some a -> P a) -> Forall P l.
Proof.
  induction l as [|a l IH]; intros H; [constructor|]. constructor.
  - apply (H 0%nat). reflexivity.
  - apply IH. intros i b Hi. apply (H (S i)). exact Hi.
Qed.

(** * Building the document: the claims *)

(** C5, as stated, fails: the url of a record is copied as it is, and a url
    that holds line terminators brings lines of its own into the text; the
    text of this document of one record has two lines BEGIN:VEVENT and two
    lines END:VEVENT. *)
Lemma one_record_two_blocks :
  (forall event, doc_events injected_url = Some [event] ->
     validated ascii_runtime event (document_defaults injected_url) = true)
  /\ exists text,
       generate_ics ascii_runtime injected_url = Ok text
       /\ length (filter (str_eqb (lit "BEGIN:VEVENT")) (split crlf text)) = 2%nat
       /\ length (filter (str_eqb (lit "END:VEVENT")) (split crlf text)) = 2%nat.
Proof.
  split.
  - intros event H. injection H as <-. vm_compute. reflexivity.
  - eexists. split; [vm_compute; reflexivity|]. split; vm_compute; reflexivity.
Qed.

(** C5, amended. When no line built for an event holds a line terminator
    (the values of timezone, url, categories and rrule are copied as they
    are), the text of a document that is generated is the header of the
    calendar (BEGIN:VCALENDAR, version, product identifier, Gregorian scale,
    publish method), the folded lines of the events and END:VCALENDAR, with a
    line terminator between two lines. The lines of the events are the
    blocks of the records, one for each record in the order of the records;
    a block is BEGIN:VEVENT, lines that neither begin nor end an event, and
    END:VEVENT, and its lines are in the order UID, DTSTAMP, the temporal
    block, SUMMARY, then DESCRIPTION, LOCATION, URL, CATEGORIES, STATUS,
    TRANSP and RRULE for the fields that are there, then the alarm block if
    there is one. *)
Theorem generate_ics_text (rt : Runtime) (data : Document) (text : str) :
  generate_ics rt data = Ok text ->
  (forall events i event lines,
     doc_events data = Some events ->
     nth_error events i = Some event ->
     vevent_lines rt i event (document_defaults data) = Ok lines ->
     Forall (fun line => contains crlf line = false) lines) ->
  exists events blocks folded,
    doc_events data = Some events
    /\ events <> []
    /\ length blocks = length events
    /\ (forall i event,
          nth_error events i = Some event ->
          exists date summary temporal status transp middle,
            nth_error blocks i
            = Some (lit "BEGIN:VEVENT" :: middle ++ [lit "END:VEVENT"])
            /\ middle
               = event_middle (generate_uid rt i summary date)
                   (strftime_stamp rt (utcnow rt i)) temporal summary event status transp
                   (effective_reminder event (document_defaults data))
            /\ has_line (lit "BEGIN:VEVENT") middle = false
            /\ has_line (lit "END:VEVENT") middle = false
            /\ nonempty (e_date event) = Some date
            /\ nonempty (e_summary event) = Some summary
            /\ temporal_shape temporal
            /\ at_most_one (lit "STATUS:") status
            /\ at_most_one (lit "TRANSP:") transp)
    /\ mapM fold_line (concat blocks) = Ok folded
    /\ text = join crlf calendar_header ++ crlf ++ join crlf folded
              ++ crlf ++ lit "END:VCALENDAR".
Proof.
  intros H Hclean.
  destruct (generate_ics_blocks rt data text H)
    as [events [blocks [body [Ev [Hne [Hlen [Hnth [Hbody ->]]]]]]]].
  assert (Hblocks : forall i block, nth_error blocks i = Some block ->
            exists event, nth_error events i = Some event
              /\ vevent_lines rt i event (document_defaults data) = Ok block).
  { intros i block Hi.
    assert (Hlt : (i < length events)%nat).
    { rewrite <- Hlen. apply nth_error_Some. congruence. }
    destruct (nth_error events i) as [event|] eqn:Ei;
      [|apply nth_error_None in Ei; lia].
    destruct (Hnth i event Ei) as [b [Hb Hn]].
    exists event. split; [reflexivity|congruence]. }
  assert (Hnonempty : Forall (fun block : list str => block <> []) blocks).
  { apply Forall_nth_error. intros i block Hi.
    destruct (Hblocks i block Hi) as [event [_ Hv]].
    destruct (vevent_lines_ok _ _ _ _ _ Hv)
      as [? [? [? [? [? [_ [_ [_ [_ [_ [_ [_ ->]]]]]]]]]]]].
    rewrite event_layout_middle. discriminate. }
  assert (Hcrlf : Forall (fun line => contains crlf line = false) (concat blocks)).
  { apply Forall_concat. apply Forall_nth_error. intros i block Hi.
    destruct (Hblocks i block Hi) as [event [Ei Hv]].
    exact (Hclean events i event block Ev Ei Hv). }
  assert (Hb : blocks <> []).
  { destruct blocks; [|discriminate]. destruct events; [congruence|discriminate]. }
  rewrite (join_concat blocks Hb Hnonempty) in Hbody.
  unfold fold_content in Hbody. rewrite split_join_lines in Hbody; [|
    destruct blocks as [|b bs]; [congruence|];
    inversion Hnonempty; subst; destruct b; [congruence|discriminate] | exact Hcrlf].
  destruct (mapM fold_line (concat blocks)) as [folded|e] eqn:EM; [|discriminate].
  cbn [bind] in Hbody. apply Ok_inj in Hbody. subst body.
  exists events, blocks, folded.
  split; [exact Ev|]. split; [exact Hne|]. split; [exact Hlen|].
  split; [|split; [exact EM|reflexivity]].
  intros i event Hi. destruct (Hnth i event Hi) as [block [Hv Hn]].
  destruct (vevent_lines_ok _ _ _ _ _ Hv)
    as [date [summary [temporal [status [transp
        [Hd [Hs [_ [_ [Ht [Hst [Htr ->]]]]]]]]]]]].
  rewrite event_layout_middle in Hn.
  exists date, summary, temporal, status, transp. eexists.
  split; [exact Hn|]. split; [reflexivity|].
  split; [exact (has_line_middle rt _ _ _ _ _ _ _ _ _ _ _ _ _
                   (or_introl eq_refl) Ht Hst Htr)|].
  split; [exact (has_line_middle rt _ _ _ _ _ _ _ _ _ _ _ _ _
                   (or_intror eq_refl) Ht Hst Htr)|].
  split; [exact Hd|]. split; [exact Hs|].
  split; [exact (temporal_lines_shape _ _ _ _ _ _ _ Ht)|].
  split; [exact (checked_line_shape _ _ _ _ _ Hst)|exact (checked_line_shape _ _ _ _ _ Htr)].
Qed.

(** C8. With no sequence of events, or an empty one, the generation fails
    with the error about the events. When the build of a record fails the
    generation fails and returns no text; its error is the error of the
    first record that fails, in the order of the records. *)
Theorem generate_ics_fails (rt : Runtime) (data : Document) :
  (doc_events data = None \/ doc_events data = Some [] ->
   generate_ics rt data
   = Err (ValueError (Msg (lit "JSON must contain a non-empty 'events' array"))))
  /\ (forall events i event,
        doc_events data = Some events ->
        nth_error events i = Some event ->
        is_ok (build_vevent rt i event (document_defaults data)) = false ->
        is_ok (generate_ics rt data) = false)
  /\ (forall events i event e,
        doc_events data = Some events ->
        nth_error events i = Some event ->
        (forall j earlier, (j < i)%nat -> nth_error events j = Some earlier ->
           is_ok (build_vevent rt j earlier (document_defaults data)) = true) ->
        build_vevent rt i event (document_defaults data) = Err e ->
        generate_ics rt data = Err e).
Proof.
  split; [|split].
  - intros [H|H]; unfold generate_ics; rewrite H; reflexivity.
  - intros events i event Ev Hi He. unfold generate_ics. rewrite Ev.
    destruct events as [|event0 events]; [destruct i; discriminate|].
    cbn [nonempty].
    pose proof (build_events_any_error rt (document_defaults data) _ 0
                  calendar_header i event Hi He) as B.
    destruct (build_events rt 0 (event0 :: events) (document_defaults data)
                calendar_header); [discriminate|reflexivity].
  - intros events i event e Ev Hi Hbefore He. unfold generate_ics. rewrite Ev.
    destruct events as [|event0 events]; [destruct i; discriminate|].
    cbn [nonempty].
    rewrite (build_events_first_error rt (document_defaults data) _ 0
               calendar_header i event e Hi Hbefore He).
    reflexivity.
Qed.

Lemma generate_ics_text_witness :
  exists text events blocks folded,
    generate_ics ascii_runtime two_events = Ok text
    /\ doc_events two_events = Some events
    /\ length blocks = length events
    /\ mapM fold_line (concat blocks) = Ok folded
    /\ text = join crlf calendar_header ++ crlf ++ join crlf folded
              ++ crlf ++ lit "END:VCALENDAR".
Proof.
  destruct (generate_ics ascii_runtime two_events) as [text|e] eqn:E;
    [|vm_compute in E; discriminate].
  destruct (generate_ics_text ascii_runtime two_events text E)
    as [events [blocks [folded [H1 [_ [H3 [_ [H5 H6]]]]]]]].
  - intros events i event lines Ev Hi Hv.
    injection Ev as <-.
    destruct i as [|[|i]]; cbn in Hi; [| |destruct i; discriminate].
    + injection Hi as <-. vm_compute in Hv. apply Ok_inj in Hv. subst lines.
      repeat constructor.
    + injection Hi as <-. vm_compute in Hv. apply Ok_inj in Hv. subst lines.
      repeat constructor.
  - exists text, events, blocks, folded. repeat split; assumption.
Defined.

Lemma generate_ics_fails_witness :
  generate_ics ascii_runtime (document_of [])
  = Err (ValueError (Msg (lit "JSON must contain a non-empty 'events' array")))
  /\ generate_ics ascii_runtime second_fails
     = Err (ValueError (Msg (lit "Invalid status 'MAYBE', expected TENTATIVE/CONFIRMED/CANCELLED"))).
Proof.
  split.
  - apply (generate_ics_fails ascii_runtime (document_of [])). right. reflexivity.
  - destruct (generate_ics_fails ascii_runtime second_fails) as [_ [_ H]].
    apply (H [sync_event; set_field Fstatus (Some (lit "MAYBE")) sync_event;
              set_field Fdate (Some (lit "bad")) sync_event]
             1%nat (set_field Fstatus (Some (lit "MAYBE")) sync_event)).
    + reflexivity.
    + reflexivity.
    + intros j earlier Hj Hn. destruct j as [|j]; [|lia].
      cbn in Hn. injection Hn as <-. vm_compute. reflexivity.
    + vm_compute. reflexivity.
Defined.

(** * Further properties *)

(** ** Escaping *)

Lemma escape_text_app_images (a b : str) :
  escape_text (a ++ b) = escape_text a ++ escape_text b.
Proof. rewrite !escape_text_images. apply flat_map_app. Qed.

Lemma escape_text_cons (c : Z) (t : str) :
  escape_text (c :: t) = escape_image [92; 59; 44; 10] c ++ escape_text t.
Proof. rewrite !escape_text_images. reflexivity. Qed.

Lemma unescape_scan_escape (t : str) : unescape_scan (escape_text t) = t.
Proof.
  induction t as [|c t IH]; [reflexivity|].
  rewrite escape_text_cons. split_char c; images.
  - cbn [unescape_scan Z.eqb Pos.eqb]. rewrite IH. reflexivity.
  - cbn [unescape_scan Z.eqb Pos.eqb]. rewrite IH. reflexivity.
  - cbn [unescape_scan Z.eqb Pos.eqb]. rewrite IH. reflexivity.
  - cbn [unescape_scan Z.eqb Pos.eqb]. rewrite IH. reflexivity.
  - cbn [unescape_scan]. destruct (Z.eqb_spec c 92); [contradiction|].
    rewrite IH. reflexivity.
Qed.

Lemma escape_image_no_newline (c : Z) : ~ In 10 (escape_image [92; 59; 44; 10] c).
Proof.
  split_char c; images; cbn [In]; try lia.
Qed.

Lemma escape_text_no_newline (t : str) : ~ In 10 (escape_text t).
Proof.
  induction t as [|c t IH]; [intros []|].
  rewrite escape_text_cons. intros H. apply in_app_or in H. destruct H as [H|H].
  - exact (escape_image_no_newline c H).
  - exact (IH H).
Qed.

Lemma no_newline_no_crlf (s : str) : ~ In 10 s -> contains crlf s = false.
Proof.
  induction s as [|c s IH]; intros H; [reflexivity|].
  cbn [contains]. rewrite IH by (intros H'; apply H; right; exact H').
  rewrite orb_false_r. unfold crlf. cbn [startswith].
  destruct s as [|d s]; [apply andb_false_r|].
  destruct (Z.eqb_spec 10 d) as [<-|_].
  - exfalso. apply H. right. left. reflexivity.
  - apply andb_false_r.
Qed.

(** X1. Escaping goes character by character: the escaping of two texts one
    after the other is the escapings one after the other. *)
Theorem escape_text_app (a b : str) :
  escape_text (a ++ b) = escape_text a ++ escape_text b.
Proof. apply escape_text_app_images. Qed.

(** X2. Escaping loses nothing: one scan from the left, in which a backslash
    gives the next character its meaning, gives the text back, whatever the
    text; so two texts with the same escaping are the same text. *)
Theorem escape_text_injective :
  (forall text, unescape_scan (escape_text text) = text)
  /\ (forall a b, escape_text a = escape_text b -> a = b).
Proof.
  split; [exact unescape_scan_escape|].
  intros a b H. rewrite <- (unescape_scan_escape a), <- (unescape_scan_escape b), H.
  reflexivity.
Qed.

(** X3. An escaped text holds no line feed, so the line of an escaped value
    (SUMMARY, DESCRIPTION, LOCATION) holds no line terminator, whatever the
    value. *)
Theorem escaped_line_no_terminator (name text : str) :
  ~ In 10 (escape_text text)
  /\ (~ In 10 name -> contains crlf (name ++ escape_text text) = false).
Proof.
  split; [apply escape_text_no_newline|].
  intros Hn. apply no_newline_no_crlf. intros H. apply in_app_or in H.
  destruct H as [H|H]; [exact (Hn H)|exact (escape_text_no_newline text H)].
Qed.

Lemma escaped_line_no_terminator_witness :
  ~ In 10 (lit "SUMMARY:")
  /\ contains crlf (lit "SUMMARY:" ++ escape_text (lit "a" ++ crlf ++ lit "b;c")) = false.
Proof.
  split; [cbn; intuition lia|].
  apply (escaped_line_no_terminator (lit "SUMMARY:") (lit "a" ++ crlf ++ lit "b;c")).
  cbn. intuition lia.
Defined.

(** ** Folding a document *)

Lemma encode_char_error (c : Z) (e : exn) :
  encode_char c = Err e -> e = UnicodeEncodeError.
Proof.
  unfold encode_char, raise.
  repeat match goal with
         | |- context [if ?b then _ else _] => destruct b
         end; congruence.
Qed.

Lemma encode_error (s : str) (e : exn) : encode s = Err e -> e = UnicodeEncodeError.
Proof.
  induction s as [|c s IH]; cbn [encode]; [discriminate|].
  destruct (encode_char c) as [b|e'] eqn:Ec; cbn [bind].
  - destruct (encode s) as [bs|e'']; cbn [bind]; [discriminate|].
    intros H. apply IH. congruence.
  - intros H. apply (encode_char_error c). congruence.
Qed.

(** [fold_line] fails as the encoding of the line does, and only so. *)
Lemma fold_line_outcome (line : str) :
  match encode line with
  | Ok _ => exists folded, fold_line line = Ok folded
  | Err e => fold_line line = Err e
  end.
Proof.
  destruct (encode line) as [encoded|e] eqn:E.
  - destruct (fold_line_division line encoded E) as [Hs Hl].
    destruct (Z.le_gt_cases (len encoded) 75) as [H|H].
    + eexists. apply Hs. exact H.
    + eexists. apply Hl. lia.
  - unfold fold_line. rewrite E. reflexivity.
Qed.

Lemma join_head (sep : str) (c : Z) (p : str) (ps : list str) :
  join sep ((c :: p) :: ps) = c :: join sep (p :: ps).
Proof. destruct ps; reflexivity. Qed.

(** Joining the pieces of a text gives the text back. *)
Lemma join_split_from (s : str) : forall skip,
  join crlf (split_from crlf skip s) = skipn skip s.
Proof.
  induction s as [|c s IH]; intros skip.
  - destruct skip; reflexivity.
  - cbn [split_from]. destruct skip as [|k]; [|apply IH].
    destruct (startswith crlf (c :: s)) eqn:E.
    + rewrite join_cons by apply split_from_nonempty.
      cbn [length crlf Nat.sub]. rewrite IH.
      unfold crlf in E |- *. cbn [startswith] in E.
      destruct s as [|d s]; [rewrite andb_false_r in E; discriminate|].
      apply andb_true_iff in E. destruct E as [E1 E2].
      apply andb_true_iff in E2. destruct E2 as [E2 _].
      apply Z.eqb_eq in E1, E2. subst. reflexivity.
    + specialize (IH 0%nat). pose proof (split_from_nonempty crlf s 0) as Hne.
      destruct (split_from crlf 0 s) as [|p ps]; [congruence|].
      rewrite join_head, IH. reflexivity.
Qed.

Lemma join_split (s : str) : join crlf (split crlf s) = s.
Proof. apply (join_split_from s 0). Qed.

(** The first piece is a beginning of the text. *)
Lemma split_from_first (s : str) (p : str) (ps : list str) :
  split_from crlf 0 s = p :: ps -> exists rest, s = p ++ rest.
Proof.
  intros H. pose proof (join_split s) as J. unfold split in J. rewrite H in J.
  destruct ps as [|q ps].
  - exists []. rewrite app_nil_r. symmetry. exact J.
  - rewrite join_cons in J by discriminate. eexists. symmetry. exact J.
Qed.

(** No piece holds a line terminator. *)
Lemma split_from_pieces (s : str) : forall skip,
  Forall (fun piece => contains crlf piece = false) (split_from crlf skip s).
Proof.
  induction s as [|c s IH]; intros skip.
  - repeat constructor.
  - cbn [split_from]. destruct skip as [|k]; [|apply IH].
    destruct (startswith crlf (c :: s)) eqn:E.
    + constructor; [reflexivity|apply IH].
    + pose proof (IH 0%nat) as HF.
      destruct (split_from crlf 0 s) as [|p ps] eqn:Es;
        [exfalso; exact (split_from_nonempty crlf s 0 Es)|].
      inversion HF as [|? ? Hp Hps]; subst. constructor; [|exact Hps].
      cbn [contains]. rewrite Hp, orb_false_r.
      destruct (startswith crlf (c :: p)) eqn:E'; [|reflexivity].
      destruct (split_from_first s p ps Es) as [rest ->].
      apply (startswith_app _ _ rest) in E'. cbn [app] in E'. congruence.
Qed.

Lemma join_marker (first : str) (others : list str) :
  join crlf_sp (first :: others) = join crlf (first :: map (cons 32) others).
Proof.
  revert first. induction others as [|chunk others IH]; intros first; [reflexivity|].
  cbn [map]. rewrite (join_cons crlf_sp first) by discriminate. rewrite IH.
  rewrite (join_cons crlf first) by discriminate. rewrite join_head.
  reflexivity.
Qed.

Lemma contains_crlf_space (chunk : str) :
  contains crlf chunk = false -> contains crlf (32 :: chunk) = false.
Proof. intros H. cbn [contains]. rewrite H. reflexivity. Qed.


Lemma encode_space (chunk : str) (piece : bytes) :
  encode chunk = Ok piece -> encode (32 :: chunk) = Ok (32 :: piece).
Proof. intros H. cbn [encode]. rewrite H. reflexivity. Qed.

Lemma encode_chunks (chunks : list str) (encoded : bytes) :
  encode (concat chunks) = Ok encoded ->
  Forall (fun chunk => exists piece, encode chunk = Ok piece) chunks.
Proof.
  intros H. destruct (encode_concat _ _ H) as [pieces [HF _]]. clear H.
  induction HF as [|chunk piece chunks pieces Hp HF IH]; constructor.
  - exists piece. exact Hp.
  - exact IH.
Qed.

(** What a folded line is written on. *)
Lemma fold_line_written (line folded : str) :
  fold_line line = Ok folded -> contains crlf line = false ->
  exists lines, folded = join crlf lines /\ written lines.
Proof.
  intros Hf Hc. pose proof (fold_line_outcome line) as Ho.
  destruct (encode line) as [encoded|e] eqn:E; [clear Ho|congruence].
  destruct (Z.le_gt_cases (len encoded) 75) as [Hlen|Hlen].
  - destruct (fold_line_division line encoded E) as [Hs _].
    rewrite (Hs Hlen) in Hf. apply Ok_inj in Hf. subst folded.
    exists [line]. split; [reflexivity|]. split; [discriminate|]. split.
    + constructor; [exact Hc|constructor].
    + constructor; [|constructor]. exists encoded. split; assumption.
  - destruct (fold_line_long line encoded E ltac:(lia))
      as [first [others [H1 [H2 [H3 _]]]]].
    rewrite H1 in Hf. apply Ok_inj in Hf. subst folded.
    exists (first :: map (cons 32) others). split; [apply join_marker|].
    assert (Hcs : Forall (fun chunk => contains crlf chunk = false) (first :: others)).
    { apply contains_concat; [rewrite H2; exact Hc|discriminate]. }
    assert (Hes : Forall (fun chunk => exists piece, encode chunk = Ok piece)
                    (first :: others)).
    { apply (encode_chunks _ encoded). rewrite H2. exact E. }
    cbn [bounded] in H3. destruct H3 as [Hb Hbs].
    inversion Hcs as [|? ? Hc1 Hcr]; subst.
    inversion Hes as [|? ? [p1 Hp1] Her]; subst.
    split; [discriminate|]. split.
    + constructor; [exact Hc1|].
      clear - Hcr. induction Hcr; cbn [map]; constructor;
        [apply contains_crlf_space; assumption|assumption].
    + constructor.
      * exists p1. split; [exact Hp1|]. rewrite (encode_length _ _ Hp1). exact Hb.
      * clear - Hbs Her. induction Her as [|chunk others [p Hp] Her IH];
          cbn [map]; [constructor|].
        inversion Hbs; subst. constructor; [|apply IH; assumption].
        exists (32 :: p). split; [apply encode_space; exact Hp|].
        change (32 :: p) with ([32] ++ p). rewrite len_app, (encode_length _ _ Hp).
        change (len [32]) with 1. lia.
Qed.

Lemma mapM_fold_line_written (lines : list str) : forall folded,
  mapM fold_line lines = Ok folded ->
  Forall (fun l => contains crlf l = false) lines ->
  exists blocks,
    folded = map (join crlf) blocks
    /\ length blocks = length lines
    /\ Forall written blocks.
Proof.
  induction lines as [|line lines IH]; intros folded H HF.
  - cbn in H. apply Ok_inj in H. subst. exists []. repeat split. constructor.
  - cbn [mapM] in H. destruct (fold_line line) as [f|e] eqn:Ef; [|discriminate].
    cbn [bind] in H. destruct (mapM fold_line lines) as [fs|e]; [|discriminate].
    cbn [bind] in H. apply Ok_inj in H. subst folded.
    inversion HF as [|? ? Hl Hls]; subst.
    destruct (fold_line_written line f Ef Hl) as [block [-> Hw]].
    destruct (IH fs eq_refl Hls) as [blocks [-> [Hlen Hws]]].
    exists (block :: blocks). split; [reflexivity|].
    split; [cbn; congruence|constructor; assumption].
Qed.

(** The lines of a folded document. *)
Lemma fold_content_written (content text : str) :
  fold_content content = Ok text ->
  physical_lines text <> []
  /\ Forall (fun l => contains crlf l = false) (physical_lines text)
  /\ Forall (fun l => exists b, encode l = Ok b /\ len b <= 75) (physical_lines text).
Proof.
  unfold fold_content, physical_lines. intros H.
  destruct (mapM fold_line (split crlf content)) as [folded|e] eqn:E; [|discriminate].
  cbn [bind] in H. apply Ok_inj in H. subst text.
  destruct (mapM_fold_line_written _ _ E (split_from_pieces content 0))
    as [blocks [-> [Hlen HW]]].
  assert (Hne : blocks <> []).
  { destruct blocks; [|discriminate]. cbn in Hlen.
    pose proof (split_from_nonempty crlf content 0).
    unfold split in Hlen. destruct (split_from crlf 0 content); [congruence|discriminate]. }
  assert (H1 : Forall (fun block : list str => block <> []) blocks).
  { clear - HW. induction HW as [|b bs [Hb _] _ IH]; constructor; assumption. }
  assert (H2 : Forall (fun l => contains crlf l = false) (concat blocks)).
  { apply Forall_concat. clear - HW.
    induction HW as [|b bs [_ [Hb _]] _ IH]; constructor; assumption. }
  assert (H3 : Forall (fun l => exists b, encode l = Ok b /\ len b <= 75) (concat blocks)).
  { apply Forall_concat. clear - HW.
    induction HW as [|b bs [_ [_ Hb]] _ IH]; constructor; assumption. }
  assert (H4 : concat blocks <> []).
  { destruct blocks as [|b bs]; [congruence|]. inversion H1; subst.
    cbn [concat]. destruct b; [congruence|discriminate]. }
  rewrite (join_concat blocks Hne H1), (split_join_lines _ H4 H2).
  split; [exact H4|]. split; assumption.
Qed.

(** A document whose lines are short is not changed. *)
Lemma fold_content_short (content : str) :
  Forall (fun l => exists b, encode l = Ok b /\ len b <= 75) (split crlf content) ->
  fold_content content = Ok content.
Proof.
  intros H. unfold fold_content.
  assert (M : mapM fold_line (split crlf content) = Ok (split crlf content)).
  { induction H as [|l ls [b [Hb Hlen]] _ IH]; [reflexivity|].
    cbn [mapM]. destruct (fold_line_division l b Hb) as [Hs _].
    rewrite (Hs Hlen). cbn [bind]. rewrite IH. reflexivity. }
  rewrite M. cbn [bind]. rewrite join_split. reflexivity.
Qed.

Lemma encode_join (ls : list str) (encoded : bytes) :
  encode (join crlf ls) = Ok encoded ->
  Forall (fun l => exists b, encode l = Ok b) ls.
Proof.
  revert encoded. induction ls as [|l ls IH]; intros encoded H; [constructor|].
  destruct ls as [|l' ls].
  - cbn [join] in H. constructor; [eauto|constructor].
  - rewrite join_cons in H by discriminate. rewrite encode_app in H.
    destruct (encode l) as [b|e] eqn:El; [|discriminate]. cbn [bind] in H.
    rewrite encode_app in H. cbn [bind] in H.
    change (encode crlf) with (@Ok bytes [13; 10]) in H. cbn [bind] in H.
    destruct (encode (join crlf (l' :: ls))) as [bs|e] eqn:E; [|discriminate].
    constructor; [exists b; exact El|]. exact (IH bs eq_refl).
Qed.

(** X4. [fold_line] returns a result exactly when the line can be encoded in
    UTF-8, and its only error is the encoding error: the decoding of the
    chunks never fails. *)
Theorem fold_line_errors (line : str) :
  is_ok (fold_line line) = is_ok (encode line)
  /\ (forall e, fold_line line = Err e -> e = UnicodeEncodeError).
Proof.
  pose proof (fold_line_outcome line) as H.
  destruct (encode line) as [encoded|e] eqn:E.
  - destruct H as [folded ->]. split; [reflexivity|discriminate].
  - rewrite H. split; [reflexivity|].
    intros e' He. apply (encode_error line). congruence.
Qed.

(** X5. Every line of a folded document, as it is written between line
    terminators, has at most 75 octets in UTF-8 (a continuation line with its
    leading space included) and holds whole characters only. *)
Theorem fold_content_line_length (content text : str) :
  fold_content content = Ok text ->
  Forall (fun l => exists b, encode l = Ok b /\ len b <= 75) (physical_lines text).
Proof. intros H. apply (fold_content_written content text H). Qed.

Lemma fold_content_line_length_witness :
  exists text,
    fold_content euro_document = Ok text
    /\ Forall (fun l => exists b, encode l = Ok b /\ len b <= 75) (physical_lines text).
Proof.
  eexists. split; [vm_compute; reflexivity|].
  apply (fold_content_line_length euro_document). vm_compute. reflexivity.
Defined.

(** X6. A document that can be encoded and whose lines all have at most 75
    octets is returned as it is, line terminators included. *)
Theorem fold_content_unchanged (content : str) (encoded : bytes) :
  encode content = Ok encoded ->
  Forall (fun l => utf8_length l <= 75) (split crlf content) ->
  fold_content content = Ok content.
Proof.
  intros He Hs. apply fold_content_short.
  rewrite <- (join_split content) in He. apply encode_join in He.
  induction He as [|l ls [b Hb] _ IH]; [constructor|].
  inversion Hs; subst. constructor; [|apply IH; assumption].
  exists b. split; [exact Hb|]. rewrite (encode_length _ _ Hb). assumption.
Qed.

Lemma fold_content_unchanged_witness :
  encode short_document = Ok short_document
  /\ fold_content short_document = Ok short_document.
Proof.
  split; [reflexivity|].
  apply (fold_content_unchanged short_document short_document); [reflexivity|].
  vm_compute. repeat constructor; discriminate.
Defined.

(** X7. Folding a folded document changes nothing. *)
Theorem fold_content_idempotent (content text : str) :
  fold_content content = Ok text -> fold_content text = Ok text.
Proof.
  intros H. apply fold_content_short. apply (fold_content_written content text H).
Qed.

Lemma fold_content_idempotent_witness :
  exists text, fold_content euro_document = Ok text /\ fold_content text = Ok text.
Proof.
  eexists. split; [vm_compute; reflexivity|].
  apply (fold_content_idempotent euro_document). vm_compute. reflexivity.
Defined.

(** ** Errors of folding *)

Lemma is_ok_fold_line (line : str) : is_ok (fold_line line) = is_ok (encode line).
Proof.
  pose proof (fold_line_outcome line) as H.
  destruct (encode line) as [encoded|e].
  - destruct H as [folded ->]. reflexivity.
  - rewrite H. reflexivity.
Qed.

Lemma fold_line_error (line : str) (e : exn) :
  fold_line line = Err e -> e = UnicodeEncodeError.
Proof.
  intros He. pose proof (fold_line_outcome line) as H.
  destruct (encode line) as [encoded|e'] eqn:E.
  - destruct H as [folded H]. congruence.
  - apply (encode_error line). congruence.
Qed.

Lemma is_ok_mapM_fold_line (lines : list str) :
  is_ok (mapM fold_line lines) = forallb (fun l => is_ok (encode l)) lines.
Proof.
  induction lines as [|l lines IH]; [reflexivity|].
  cbn [mapM forallb]. rewrite <- is_ok_fold_line, <- IH.
  destruct (fold_line l); [|reflexivity]. cbn [bind is_ok andb].
  destruct (mapM fold_line lines); reflexivity.
Qed.

Lemma mapM_fold_line_error (lines : list str) (e : exn) :
  mapM fold_line lines = Err e -> e = UnicodeEncodeError.
Proof.
  induction lines as [|l lines IH]; [discriminate|].
  cbn [mapM]. destruct (fold_line l) as [f|e'] eqn:E.
  - cbn [bind]. destruct (mapM fold_line lines) as [fs|e'']; [discriminate|].
    cbn [bind]. intros H. apply IH. congruence.
  - cbn [bind]. intros H. apply (fold_line_error l). congruence.
Qed.

Lemma is_ok_encode_app (a b : str) :
  is_ok (encode (a ++ b)) = is_ok (encode a) && is_ok (encode b).
Proof.
  rewrite encode_app. destruct (encode a); [|reflexivity]. cbn [bind].
  destruct (encode b); reflexivity.
Qed.

Lemma is_ok_encode_join (lines : list str) :
  is_ok (encode (join crlf lines)) = forallb (fun l => is_ok (encode l)) lines.
Proof.
  induction lines as [|l lines IH]; [reflexivity|].
  destruct lines as [|l' lines].
  - cbn [join forallb]. rewrite andb_true_r. reflexivity.
  - rewrite join_cons by discriminate. rewrite !is_ok_encode_app, IH.
    change (is_ok (encode crlf)) with true. reflexivity.
Qed.

(** X8. [fold_content] returns a document exactly when the whole content can
    be encoded in UTF-8, and fails with the encoding error otherwise. *)
Theorem fold_content_errors (content : str) :
  is_ok (fold_content content) = is_ok (encode content)
  /\ (forall e, fold_content content = Err e -> e = UnicodeEncodeError).
Proof.
  unfold fold_content. split.
  - rewrite <- (join_split content) at 2.
    rewrite is_ok_encode_join, <- is_ok_mapM_fold_line.
    destruct (mapM fold_line (split crlf content)); reflexivity.
  - intros e H.
    destruct (mapM fold_line (split crlf content)) as [fs|e'] eqn:E; [discriminate|].
    cbn [bind] in H. assert (e' = e) by congruence. subst e'.
    exact (mapM_fold_line_error _ _ E).
Qed.

(** ** Unfolding a document *)

Lemma startswith_crlf_sp_app (c : Z) (a b : str) :
  startswith crlf_sp (c :: a ++ crlf ++ b) = startswith crlf_sp (c :: a).
Proof.
  unfold crlf_sp, crlf. cbn [startswith]. destruct (13 =? c); [|reflexivity].
  destruct a as [|d a]; [reflexivity|]. cbn [app andb].
  destruct (10 =? d); [|reflexivity]. destruct a as [|d' a]; reflexivity.
Qed.

(** A line terminator before a character other than the space stays. *)
Lemma unfold_crlf_app (a b : str) : forall skip,
  (skip <= length a)%nat -> startswith [32] b = false ->
  replace_from crlf_sp [] skip (a ++ crlf ++ b)
  = replace_from crlf_sp [] skip a ++ crlf ++ replace_from crlf_sp [] 0 b.
Proof.
  induction a as [|c a IH]; intros skip Hskip Hb.
  - destruct skip; [|cbn in Hskip; lia].
    destruct b as [|d b]; [reflexivity|].
    cbn [startswith] in Hb. rewrite andb_true_r in Hb.
    unfold crlf, crlf_sp. cbn [app]. 
    cbn [replace_from startswith]. rewrite Hb. reflexivity.
  - cbn [app replace_from]. destruct skip as [|k].
    + rewrite startswith_crlf_sp_app.
      destruct (startswith crlf_sp (c :: a)) eqn:E.
      * cbn [app]. apply IH; [|exact Hb].
        unfold crlf_sp in E |- *.
        destruct a as [|d [|d' a]]; cbn [length Nat.sub]; try lia; cbn [startswith] in E.
        -- rewrite andb_false_r in E. discriminate.
        -- destruct (13 =? c), (10 =? d); discriminate.
      * cbn [app]. rewrite IH by (try exact Hb; lia). reflexivity.
    + apply IH; [cbn in Hskip; lia|exact Hb].
Qed.

Lemma fold_line_chunked (line folded : str) :
  fold_line line = Ok folded ->
  exists first others,
    folded = join crlf_sp (first :: others) /\ concat (first :: others) = line.
Proof.
  intros Hf. pose proof (fold_line_outcome line) as Ho.
  destruct (encode line) as [encoded|e] eqn:E; [clear Ho|congruence].
  destruct (Z.le_gt_cases (len encoded) 75) as [Hlen|Hlen].
  - destruct (fold_line_division line encoded E) as [Hs _].
    rewrite (Hs Hlen) in Hf. apply Ok_inj in Hf. subst folded.
    exists line, []. split; [reflexivity|apply app_nil_r].
  - destruct (fold_line_long line encoded E ltac:(lia))
      as [first [others [H1 [H2 _]]]].
    rewrite H1 in Hf. apply Ok_inj in Hf. subst folded.
    exists first, others. split; [reflexivity|exact H2].
Qed.

Lemma fold_line_unfolds (line folded : str) :
  fold_line line = Ok folded -> contains crlf line = false ->
  replace_from crlf_sp [] 0 folded = line.
Proof.
  intros Hf Hc. destruct (fold_line_chunked line folded Hf) as [first [others [-> H2]]].
  change (unfold_line (join crlf_sp (first :: others)) = line).
  rewrite unfold_join; [exact H2|].
  apply contains_concat; [rewrite H2; exact Hc|discriminate].
Qed.

Lemma fold_line_start (line folded : str) :
  fold_line line = Ok folded -> startswith [32] line = false ->
  startswith [32] folded = false.
Proof.
  intros Hf Hs. destruct (fold_line_chunked line folded Hf) as [first [others [-> H2]]].
  subst line. destruct first as [|c first].
  - destruct others; reflexivity.
  - cbn [concat app startswith] in Hs. destruct others; cbn [join app startswith]; exact Hs.
Qed.

Lemma join_start (l : str) (ls : list str) :
  startswith [32] l = false -> startswith [32] (join crlf (l :: ls)) = false.
Proof.
  intros H. destruct ls as [|l' ls]; [exact H|].
  rewrite join_cons by discriminate.
  destruct l as [|c l]; [reflexivity|]. exact H.
Qed.

Lemma mapM_fold_line_unfolds (lines : list str) : forall line folded,
  mapM fold_line (line :: lines) = Ok folded ->
  Forall (fun l => contains crlf l = false) (line :: lines) ->
  Forall (fun l => startswith [32] l = false) lines ->
  replace_from crlf_sp [] 0 (join crlf folded) = join crlf (line :: lines).
Proof.
  induction lines as [|next lines IH]; intros line folded H Hc Hs.
  - cbn [mapM] in H. destruct (fold_line line) as [f|e] eqn:Ef; [|discriminate].
    cbn [bind] in H. apply Ok_inj in H. subst folded. cbn [join].
    inversion Hc; subst. apply fold_line_unfolds; assumption.
  - change (mapM fold_line (line :: next :: lines))
      with (f <- fold_line line ;; fs <- mapM fold_line (next :: lines) ;; Ok (f :: fs)) in H.
    destruct (fold_line line) as [f|e] eqn:Ef; [|discriminate]. cbn [bind] in H.
    destruct (mapM fold_line (next :: lines)) as [fs|e] eqn:Efs; [|discriminate].
    cbn [bind] in H. apply Ok_inj in H. subst folded.
    inversion Hc as [|? ? Hc1 Hc2]; subst. inversion Hs as [|? ? Hs1 Hs2]; subst.
    assert (Hfs : exists f' fs', fs = f' :: fs' /\ fold_line next = Ok f').
    { cbn [mapM] in Efs. destruct (fold_line next) as [f'|e]; [|discriminate].
      cbn [bind] in Efs. destruct (mapM fold_line lines) as [fs'|e]; [|discriminate].
      cbn [bind] in Efs. apply Ok_inj in Efs. subst fs. eauto. }
    destruct Hfs as [f' [fs' [-> Hf']]].
    rewrite (join_cons crlf f) by discriminate.
    rewrite unfold_crlf_app;
      [|lia|apply join_start; apply (fold_line_start next); assumption].
    rewrite (fold_line_unfolds line f Ef Hc1).
    rewrite (IH next (f' :: fs') Efs Hc2 Hs2).
    rewrite (join_cons crlf line) by discriminate. reflexivity.
Qed.

Lemma lines_start (lines : list str) : forall line,
  contains crlf_sp (join crlf (line :: lines)) = false ->
  Forall (fun l => startswith [32] l = false) lines.
Proof.
  induction lines as [|next lines IH]; intros line H; [constructor|].
  rewrite join_cons in H by discriminate.
  destruct (contains_app _ _ _ H ltac:(discriminate)) as [_ H1].
  constructor.
  - unfold crlf, crlf_sp in H1. cbn [app contains] in H1.
    apply orb_false_elim in H1. destruct H1 as [H1 _].
    cbn [startswith] in H1. 
    destruct (startswith [32] next) eqn:E; [|reflexivity].
    apply (startswith_app [32] next
             (match lines with [] => [] | _ :: _ => [13; 10] ++ join [13; 10] lines end)) in E.
    destruct lines as [|l lines].
    + cbn [join] in H1. rewrite app_nil_r in E. 
      destruct next; [discriminate|]. cbn [startswith] in E, H1. rewrite E in H1. discriminate.
    + fold crlf in E, H1. rewrite join_cons in H1 by discriminate.
      destruct next; [discriminate|]. cbn [app startswith] in E, H1.
      rewrite E in H1. discriminate.
  - apply (IH next). unfold crlf in H1 at 2. cbn [app contains] in H1.
    apply orb_false_elim in H1. destruct H1 as [_ H1].
    apply orb_false_elim in H1. destruct H1 as [_ H1]. exact H1.
Qed.

(** X9. A document in which no line begins with a space, that is, which has
    no line terminator followed by a space, is recovered from its folded form
    by removing every line terminator followed by a space. *)
Theorem unfold_fold_content (content text : str) :
  contains crlf_sp content = false ->
  fold_content content = Ok text ->
  unfold_line text = content.
Proof.
  intros Hc H. unfold fold_content in H.
  destruct (mapM fold_line (split crlf content)) as [folded|e] eqn:E; [|discriminate].
  cbn [bind] in H. apply Ok_inj in H. subst text.
  change (replace_from crlf_sp [] 0 (join crlf folded) = content).
  pose proof (split_from_pieces content 0) as Hp.
  pose proof (join_split content) as J. unfold split in E, J.
  destruct (split_from crlf 0 content) as [|line lines] eqn:Es.
  { exfalso. exact (split_from_nonempty crlf content 0 Es). }
  rewrite (mapM_fold_line_unfolds lines line folded E Hp); [exact J|].
  apply (lines_start lines line). rewrite J. exact Hc.
Qed.

Lemma unfold_fold_content_witness :
  exists text, fold_content euro_document = Ok text /\ unfold_line text = euro_document.
Proof.
  eexists. split; [vm_compute; reflexivity|].
  apply (unfold_fold_content euro_document); vm_compute; reflexivity.
Defined.

(** X10. The calendar that [generate_ics] returns is written on lines of at
    most 75 octets each: whatever the summaries, descriptions and other
    values of the events hold, no line between two line terminators is
    longer. *)
Theorem generate_ics_line_length (rt : Runtime) (data : Document) (text : str) :
  generate_ics rt data = Ok text ->
  Forall (fun l => exists b, encode l = Ok b /\ len b <= 75) (physical_lines text).
Proof.
  unfold generate_ics. intros H.
  destruct (nonempty (doc_events data)) as [events|]; [|discriminate].
  destruct (build_events rt 0 events (document_defaults data) calendar_header)
    as [lines|e]; [|discriminate].
  cbn [bind] in H. apply (fold_content_written _ text H).
Qed.

Lemma generate_ics_line_length_witness :
  exists text,
    generate_ics ascii_runtime (document_of [allday_event (lit "2024-03-10") euro_line])
    = Ok text
    /\ Forall (fun l => exists b, encode l = Ok b /\ len b <= 75) (physical_lines text).
Proof.
  eexists. split; [vm_compute; reflexivity|].
  apply (generate_ics_line_length ascii_runtime
           (document_of [allday_event (lit "2024-03-10") euro_line])).
  vm_compute. reflexivity.
Defined.

(** ** The patterns of the validator *)

Lemma atom_accepts_test (rt : Runtime) (a : atom) (c : Z) :
  match a with
  | Digit => isdecimal rt c
  | Char x => c =? x
  end = true <-> atom_accepts rt a c.
Proof. destruct a; cbn [atom_accepts]; [reflexivity|apply Z.eqb_eq]. Qed.

Lemma match_atoms_accepts (rt : Runtime) (pattern : list atom) : forall s rest,
  match_atoms rt pattern s = Some rest
  <-> exists core, Forall2 (atom_accepts rt) pattern core /\ s = core ++ rest.
Proof.
  induction pattern as [|a pattern IH]; intros s rest; cbn [match_atoms].
  - split.
    + intros H. exists []. split; [constructor|]. cbn [app]. congruence.
    + intros [core [HF ->]]. inversion HF. reflexivity.
  - destruct s as [|c s].
    + split; [discriminate|]. intros [core [HF E]].
      inversion HF; subst. discriminate.
    + pose proof (atom_accepts_test rt a c) as T.
      destruct (match a with Digit => isdecimal rt c | Char x => c =? x end).
      * rewrite IH. split.
        -- intros [core [HF ->]]. exists (c :: core).
           split; [constructor; [apply T; reflexivity|exact HF]|reflexivity].
        -- intros [core [HF E]]. inversion HF as [|? d ? core' Ha HF']; subst.
           cbn [app] in E. injection E as -> ->. exists core'. split; [exact HF'|reflexivity].
      * split; [discriminate|]. intros [core [HF E]].
        inversion HF as [|? d ? core' Ha HF']; subst. cbn [app] in E.
        injection E as -> ->. apply T in Ha. discriminate.
Qed.

Lemma at_end_newline (c : Z) : at_end [c] = (c =? 10).
Proof.
  destruct c as [|p|p]; [reflexivity| |reflexivity].
  do 5 (try (destruct p as [p|p|]; try reflexivity)).
Qed.

Lemma at_end_cases (rest : str) : at_end rest = true <-> rest = [] \/ rest = [10].
Proof.
  destruct rest as [|c [|d rest]].
  - split; [left; reflexivity|reflexivity].
  - rewrite at_end_newline, Z.eqb_eq. split.
    + intros ->. right. reflexivity.
    + intros [H|H]; [discriminate|congruence].
  - split.
    + unfold at_end. destruct c as [|p|p]; try discriminate.
      do 5 (try (destruct p as [p|p|]; try discriminate)).
    + intros [H|H]; discriminate.
Qed.

(** X11. The checks of the date and of the time accept exactly the strings
    that are the characters of the pattern, a decimal digit of Unicode for
    each digit of the pattern, alone or followed by one newline: the end
    of the pattern is also met just before a final newline. *)
Theorem re_match_accepts (rt : Runtime) (pattern : list atom) (s : str) :
  re_match rt pattern s = true
  <-> exists core,
        Forall2 (atom_accepts rt) pattern core /\ (s = core \/ s = core ++ [10]).
Proof.
  unfold re_match. split.
  - destruct (match_atoms rt pattern s) as [rest|] eqn:E; [|discriminate].
    intros H. apply at_end_cases in H. apply match_atoms_accepts in E.
    destruct E as [core [HF ->]]. exists core. split; [exact HF|].
    destruct H as [->| ->]; [left; apply app_nil_r|right; reflexivity].
  - intros [core [HF H]].
    assert (E : exists rest, s = core ++ rest /\ at_end rest = true).
    { destruct H as [->| ->]; [exists []|exists [10]];
        (split; [rewrite ?app_nil_r; reflexivity|reflexivity]). }
    destruct E as [rest [E Hr]].
    assert (M : match_atoms rt pattern s = Some rest).
    { apply match_atoms_accepts. exists core. split; assumption. }
    rewrite M. exact Hr.
Qed.

(** ** The dates that are read *)

Lemma first_some_In {A B : Type} (f : A -> option B) (l : list A) (b : B) :
  first_some f l = Some b -> exists a, In a l /\ f a = Some b.
Proof.
  induction l as [|a l IH]; [discriminate|]. cbn [first_some].
  destruct (f a) as [b'|] eqn:E.
  - intros H. exists a. split; [left; reflexivity|congruence].
  - intros H. destruct (IH H) as [a' [Hin Ha]]. exists a'. split; [right; exact Hin|exact Ha].
Qed.

Lemma month_alternatives_range (s : str) (month : Z) (r : str) :
  In (month, r) (month_alternatives s) -> 1 <= month <= 12.
Proof.
  unfold month_alternatives. intros H. apply in_app_or in H. destruct H as [H|H].
  - destruct s as [|a [|b s]]; [contradiction|contradiction|].
    apply in_app_or in H. destruct H as [H|H].
    + destruct ((a =? 49) && in_range 48 50 b) eqn:E; [|contradiction].
      apply andb_true_iff in E. destruct E as [_ E]. apply in_range_spec in E.
      destruct H as [H|[]]. apply (f_equal fst) in H. cbn [fst] in H. lia.
    + destruct ((a =? 48) && in_range 49 57 b) eqn:E; [|contradiction].
      apply andb_true_iff in E. destruct E as [_ E]. apply in_range_spec in E.
      destruct H as [H|[]]. apply (f_equal fst) in H. cbn [fst] in H. lia.
  - destruct s as [|a s]; [contradiction|].
    destruct (in_range 49 57 a) eqn:E; [|contradiction].
    apply in_range_spec in E. destruct H as [H|[]]. apply (f_equal fst) in H. cbn [fst] in H. lia.
Qed.

(** What [strptime] returns is a date of the calendar. *)
Lemma strptime_valid (rt : Runtime) (s : str) (d : Z * Z * Z) :
  strptime rt s = Ok d -> valid_date d.
Proof.
  unfold strptime.
  destruct s as [|y1 [|y2 [|y3 [|y4 [|h r]]]]]; try discriminate.
  destruct (Z.eq_dec h 45) as [->|Hh].
  2:{ destruct h as [|p|p]; try discriminate.
      do 6 (try (destruct p as [p|p|]; try discriminate)). congruence. }
  destruct (decimal rt y1) as [a|]; [|discriminate].
  destruct (decimal rt y2) as [b|]; [|discriminate].
  destruct (decimal rt y3) as [c|]; [|discriminate].
  destruct (decimal rt y4) as [e|]; [|discriminate].
  cbv zeta.
  match goal with
  | |- context [first_some ?f ?l] => destruct (first_some f l) as [[month [day rest]]|] eqn:E
  end; [|discriminate].
  destruct rest; [|discriminate].
  destruct (Z.leb_spec 1 (1000 * a + 100 * b + 10 * c + e)); [|discriminate].
  destruct (Z.leb_spec (1000 * a + 100 * b + 10 * c + e) 9999); [|discriminate].
  destruct (Z.leb_spec 1 day); [|discriminate].
  destruct (Z.leb_spec day (days_in_month (1000 * a + 100 * b + 10 * c + e) month));
    [|discriminate].
  cbn [andb]. intros Hok. apply Ok_inj in Hok. subst d.
  apply first_some_In in E. destruct E as [[m r'] [Hin Hf]].
  cbn [fst snd] in Hf.
  assert (m = month).
  { destruct r' as [|x r']; [discriminate|].
    destruct (Z.eq_dec x 45) as [->|Hx].
    - destruct (day_alternatives rt r'); [discriminate|]. congruence.
    - destruct x as [|p|p]; try discriminate.
      do 6 (try (destruct p as [p|p|]; try discriminate)). congruence. }
  subst m. apply month_alternatives_range in Hin.
  unfold valid_date. lia.
Qed.

Lemma add_one_day_error (d : Z * Z * Z) (e : exn) :
  valid_date d -> add_one_day d = Err e -> d = (9999, 12, 31) /\ e = OverflowError.
Proof.
  destruct d as [[year month] day]. intros [Hy [Hm Hd]]. unfold add_one_day.
  destruct (Z.leb_spec (day + 1) (days_in_month year month)); [discriminate|].
  destruct (Z.leb_spec (month + 1) 12); [discriminate|].
  destruct (Z.leb_spec (year + 1) 9999); [discriminate|].
  intros Herr. split; [|unfold raise in Herr; congruence].
  assert (month = 12) by lia. subst month.
  assert (E : days_in_month year 12 = 31) by reflexivity. rewrite E in *.
  f_equal; [f_equal|]; lia.
Qed.

Lemma strptime_error (rt : Runtime) (s : str) (e : exn) :
  strptime rt s = Err e -> e = ValueError (MsgStrptime s).
Proof.
  unfold strptime, raise. intros H.
  repeat match type of H with
         | context [match ?x with _ => _ end] => destruct x; try congruence
         end.
Qed.

(** ** When an event is built *)

Lemma checks_validated (rt : Runtime) (event : Event) (defaults : Defaults)
  (date summary : str) (temporal status transp : list str) :
  nonempty (e_date event) = Some date ->
  nonempty (e_summary event) = Some summary ->
  re_match rt date_pattern date = true ->
  check_time rt (e_time event) = Ok tt ->
  temporal_lines rt summary date (e_time event)
    (resolved_timezone event defaults) (effective_duration event defaults)
  = Ok temporal ->
  checked_line (lit "STATUS:") status_values status_error (e_status event) = Ok status ->
  checked_line (lit "TRANSP:") transp_values transp_error (e_transp event) = Ok transp ->
  validated rt event defaults = true.
Proof.
  intros Hd Hs Hre Hct Ht Hst Htr. unfold validated.
  rewrite Hd, Hs, Hre. cbn [is_some andb].
  assert (H1 : match nonempty (e_time event) with
               | Some t => re_match rt time_pattern t
               | None => true
               end = true).
  { unfold check_time in Hct. destruct (nonempty (e_time event)) as [t|]; [|reflexivity].
    destruct (re_match rt time_pattern t); [reflexivity|discriminate]. }
  assert (H2 : match e_time event with
               | Some _ => is_some (nonempty (resolved_timezone event defaults))
               | None => true
               end = true).
  { unfold temporal_lines in Ht. destruct (e_time event) as [t|]; [|reflexivity].
    destruct (nonempty (resolved_timezone event defaults)); [reflexivity|discriminate]. }
  assert (H3 : match nonempty (e_status event) with
               | Some s => member s status_values
               | None => true
               end = true).
  { unfold checked_line in Hst. destruct (nonempty (e_status event)) as [s|]; [|reflexivity].
    destruct (member s status_values); [reflexivity|discriminate]. }
  assert (H4 : match nonempty (e_transp event) with
               | Some s => member s transp_values
               | None => true
               end = true).
  { unfold checked_line in Htr. destruct (nonempty (e_transp event)) as [s|]; [|reflexivity].
    destruct (member s transp_values); [reflexivity|discriminate]. }
  rewrite H1, H2, H3, H4. reflexivity.
Qed.

Lemma nonempty_value {A : Type} (o : option (list A)) (v : list A) :
  nonempty o = Some v -> o = Some v.
Proof. destruct o as [[|x l]|]; cbn [nonempty]; congruence. Qed.

Lemma is_ok_build_vevent (rt : Runtime) (n : nat) (event : Event) (defaults : Defaults) :
  is_ok (build_vevent rt n event defaults) = is_ok (vevent_lines rt n event defaults).
Proof. unfold build_vevent. destruct (vevent_lines rt n event defaults); reflexivity. Qed.

(** X12. An event is built exactly when it satisfies the rules of the
    validator and, if it has no time, its date is read by [strptime] as a
    date of the calendar other than 9999-12-31. *)
Theorem build_vevent_succeeds (rt : Runtime) (n : nat) (event : Event)
  (defaults : Defaults) :
  is_ok (build_vevent rt n event defaults) = true
  <-> validated rt event defaults = true
      /\ (e_time event = None ->
          exists date d,
            e_date event = Some date /\ strptime rt date = Ok d
            /\ valid_date d /\ d <> (9999, 12, 31)).
Proof.
  rewrite is_ok_build_vevent. split.
  - destruct (vevent_lines rt n event defaults) as [lines|e] eqn:E; [|discriminate].
    intros _.
    destruct (vevent_lines_ok rt n event defaults lines E)
      as [date [summary [temporal [status [transp
           [Hd [Hs [Hre [Hct [Ht [Hst [Htr _]]]]]]]]]]]].
    split; [exact (checks_validated rt event defaults _ _ _ _ _ Hd Hs Hre Hct Ht Hst Htr)|].
    intros Et. rewrite Et in Ht. unfold temporal_lines in Ht.
    destruct (strptime rt date) as [d|e] eqn:Ep; [|discriminate]. cbn [bind] in Ht.
    exists date, d. split; [exact (nonempty_value _ _ Hd)|]. split; [exact Ep|].
    split; [exact (strptime_valid rt date d Ep)|].
    intros ->. discriminate.
  - intros [Hv Hallday].
    destruct (validated_checks rt event defaults Hv)
      as [date [summary [status [transp [Hd [Hs [Hre [Hct [Htz [Hst Htr]]]]]]]]]].
    rewrite (vevent_lines_unfold rt n event defaults date summary Hd Hs), Hre, Hct.
    cbn [bind]. rewrite Hst, Htr.
    destruct (e_time event) as [t|] eqn:Et.
    + specialize (Htz ltac:(discriminate)).
      destruct (nonempty (resolved_timezone event defaults)) as [tz|] eqn:Etz;
        [|discriminate].
      rewrite (temporal_lines_timed rt summary date t tz _ _ Etz). reflexivity.
    + destruct (Hallday eq_refl) as [date' [d [Ed [Hp [Hvd Hne]]]]].
      apply nonempty_value in Hd. assert (date' = date) by congruence. subst date'.
      unfold temporal_lines. rewrite Hp. cbn [bind].
      destruct (add_one_day_ok d Hvd Hne) as [next ->]. reflexivity.
Qed.

(** ** The errors of a build *)

Ltac value_error H :=
  left; eexists; symmetry; unfold raise in H; injection H as H; exact H.

Lemma check_time_error (rt : Runtime) (time : option str) (e : exn) :
  check_time rt time = Err e -> exists m, e = ValueError m.
Proof.
  unfold check_time, raise. destruct (nonempty time) as [t|]; [|discriminate].
  destruct (negb (re_match rt time_pattern t)); [|discriminate].
  intros H. eexists. symmetry. injection H as H. exact H.
Qed.

Lemma checked_line_error (name : str) (allowed : list str) (error : str -> message)
  (value : option str) (e : exn) :
  checked_line name allowed error value = Err e -> exists m, e = ValueError m.
Proof.
  unfold checked_line, raise. destruct (nonempty value) as [v|]; [|discriminate].
  destruct (negb (member v allowed)); [|discriminate].
  intros H. eexists. symmetry. injection H as H. exact H.
Qed.

Lemma temporal_lines_error (rt : Runtime) (summary date : str) (time tz : option str)
  (duration : Z) (e : exn) :
  temporal_lines rt summary date time tz duration = Err e ->
  (exists m, e = ValueError m)
  \/ (e = OverflowError /\ time = None /\ strptime rt date = Ok (9999, 12, 31)).
Proof.
  unfold temporal_lines, raise. destruct time as [t|].
  - destruct (nonempty tz); [discriminate|]. intros H. left. eexists.
    symmetry. injection H as H. exact H.
  - destruct (strptime rt date) as [d|e'] eqn:Ep; cbn [bind].
    + destruct (add_one_day d) as [next|e''] eqn:Ea; cbn [bind]; [discriminate|].
      intros H. assert (e'' = e) by congruence. subst e''.
      destruct (add_one_day_error d e (strptime_valid rt date d Ep) Ea) as [-> ->].
      right. repeat split.
    + intros H. assert (e' = e) by congruence. subst e'.
      left. eexists. exact (strptime_error rt date e Ep).
Qed.

Lemma vevent_lines_error (rt : Runtime) (n : nat) (event : Event) (defaults : Defaults)
  (e : exn) :
  vevent_lines rt n event defaults = Err e ->
  (exists m, e = ValueError m)
  \/ (e = OverflowError /\ e_time event = None
      /\ exists date, e_date event = Some date /\ strptime rt date = Ok (9999, 12, 31)).
Proof.
  intros H.
  destruct (nonempty (e_date event)) as [date|] eqn:Hd;
    [|rewrite vevent_lines_missing in H by (left; exact Hd); value_error H].
  destruct (nonempty (e_summary event)) as [summary|] eqn:Hs;
    [|rewrite vevent_lines_missing in H by (right; exact Hs); value_error H].
  rewrite (vevent_lines_unfold rt n event defaults date summary Hd Hs) in H.
  destruct (re_match rt date_pattern date); [|value_error H].
  destruct (check_time rt (e_time event)) as [[]|e1] eqn:Hct; cbn [bind] in H.
  2:{ left. assert (e1 = e) by congruence. subst. exact (check_time_error _ _ _ Hct). }
  destruct (temporal_lines rt summary date (e_time event)
              (resolved_timezone event defaults) (effective_duration event defaults))
    as [temporal|e2] eqn:Ht; cbn [bind] in H.
  2:{ assert (e2 = e) by congruence. subst.
      destruct (temporal_lines_error _ _ _ _ _ _ _ Ht) as [Hv|[-> [Et Hp]]];
        [left; exact Hv|].
      right. split; [reflexivity|]. split; [exact Et|].
      exists date. split; [exact (nonempty_value _ _ Hd)|exact Hp]. }
  destruct (checked_line (lit "STATUS:") status_values status_error (e_status event))
    as [status|e3] eqn:Hst; cbn [bind] in H.
  2:{ left. assert (e3 = e) by congruence. subst. exact (checked_line_error _ _ _ _ _ Hst). }
  destruct (checked_line (lit "TRANSP:") transp_values transp_error (e_transp event))
    as [transp|e4] eqn:Htr; cbn [bind] in H.
  2:{ left. assert (e4 = e) by congruence. subst. exact (checked_line_error _ _ _ _ _ Htr). }
  discriminate.
Qed.

Lemma build_events_error (rt : Runtime) (defaults : Defaults) (events : list Event) :
  forall n lines e,
    build_events rt n events defaults lines = Err e ->
    exists i event,
      nth_error events i = Some event
      /\ vevent_lines rt (n + i) event defaults = Err e.
Proof.
  induction events as [|first events IH]; intros n lines e H; [discriminate|].
  cbn [build_events] in H. unfold build_vevent in H.
  destruct (vevent_lines rt n first defaults) as [block|e0] eqn:E; cbn [bind] in H.
  - destruct (IH _ _ _ H) as [i [event [Hi He]]].
    exists (S i), event. split; [exact Hi|].
    replace (n + S i)%nat with (S n + i)%nat by lia. exact He.
  - exists 0%nat, first. split; [reflexivity|]. rewrite Nat.add_0_r. congruence.
Qed.

(** X13. The errors of [generate_ics]: a [ValueError]; an [OverflowError],
    only when an event without a time has a date that is read as 9999-12-31;
    or the error of the UTF-8 encoding, only once every event has been built.
    No other error is raised, and none from decoding. *)
Theorem generate_ics_errors (rt : Runtime) (data : Document) (e : exn) :
  generate_ics rt data = Err e ->
  (exists m, e = ValueError m)
  \/ (e = OverflowError
      /\ exists events event date,
           doc_events data = Some events /\ In event events
           /\ e_time event = None /\ e_date event = Some date
           /\ strptime rt date = Ok (9999, 12, 31))
  \/ (e = UnicodeEncodeError
      /\ exists events,
           doc_events data = Some events
           /\ Forall (fun event =>
                        is_ok (build_vevent rt 0 event (document_defaults data)) = true)
                events).
Proof.
  unfold generate_ics. intros H.
  destruct (doc_events data) as [events|] eqn:Ev;
    [|cbn [nonempty] in H; value_error H].
  destruct (nonempty (Some events)) as [events'|] eqn:En; [|value_error H].
  apply nonempty_value in En. assert (events' = events) by congruence. subst events'.
  destruct (build_events rt 0 events (document_defaults data) calendar_header)
    as [lines|e0] eqn:B; cbn [bind] in H.
  - right. right. split.
    + unfold fold_content in H.
      match type of H with
      | context [mapM fold_line ?ls] =>
          destruct (mapM fold_line ls) as [fs|e1] eqn:M; [discriminate|]
      end.
      cbn [bind] in H. assert (e1 = e) by congruence. subst e1.
      exact (mapM_fold_line_error _ _ M).
    + exists events. split; [reflexivity|].
      destruct (build_events_ok _ _ _ _ _ _ B) as [blocks [_ [_ Hnth]]].
      apply Forall_nth_error. intros i event Hi.
      destruct (Hnth i event Hi) as [block [Hb _]].
      rewrite is_ok_build_vevent, (vevent_lines_is_ok_draw rt 0 (0 + i)), Hb.
      reflexivity.
  - assert (e0 = e) by congruence. subst e0.
    destruct (build_events_error _ _ _ _ _ _ B) as [i [event [Hi He]]].
    destruct (vevent_lines_error _ _ _ _ _ He) as [Hv|[-> [Et [date [Ed Hp]]]]];
      [left; exact Hv|].
    right. left. split; [reflexivity|].
    exists events, event, date. split; [reflexivity|].
    split; [exact (nth_error_In _ _ Hi)|]. repeat split; assumption.
Qed.

Lemma generate_ics_errors_witness :
  generate_ics ascii_runtime
    (document_of [allday_event (lit "9999-12-31") (lit "Last")]) = Err OverflowError
  /\ ((exists m, OverflowError = ValueError m)
      \/ (OverflowError = OverflowError
          /\ exists events event date,
               doc_events (document_of [allday_event (lit "9999-12-31") (lit "Last")])
               = Some events
               /\ In event events
               /\ e_time event = None /\ e_date event = Some date
               /\ strptime ascii_runtime date = Ok (9999, 12, 31))
      \/ (OverflowError = UnicodeEncodeError
          /\ exists events,
               doc_events (document_of [allday_event (lit "9999-12-31") (lit "Last")])
               = Some events
               /\ Forall (fun event =>
                            is_ok (build_vevent ascii_runtime 0 event
                                     (document_defaults
                                        (document_of
                                           [allday_event (lit "9999-12-31") (lit "Last")])))
                            = true)
                    events)).
Proof.
  split; [vm_compute; reflexivity|].
  apply (generate_ics_errors ascii_runtime
           (document_of [allday_event (lit "9999-12-31") (lit "Last")]) OverflowError).
  vm_compute. reflexivity.
Defined.

(** ** The lines of an event by its kind *)

Lemma startswith_self_app (p v : str) : startswith p (p ++ v) = true.
Proof.
  induction p as [|x p IH]; [reflexivity|].
  cbn [app startswith]. rewrite Z.eqb_refl, IH. reflexivity.
Qed.

Lemma has_line_prefix (name more v : str) (rest : list str) :
  has_line name (((name ++ more) ++ v) :: rest) = true.
Proof.
  unfold has_line. cbn [existsb]. rewrite <- app_assoc, startswith_self_app. reflexivity.
Qed.

Lemma has_line_here (name v : str) (rest : list str) :
  has_line name ((name ++ v) :: rest) = true.
Proof. unfold has_line. cbn [existsb]. rewrite startswith_self_app. reflexivity. Qed.

Lemma has_line_skip (name prefix v : str) (rest : list str) :
  differ name prefix = true ->
  has_line name ((prefix ++ v) :: rest) = has_line name rest.
Proof.
  intros H. unfold has_line. cbn [existsb]. rewrite (differ_startswith _ _ _ H).
  reflexivity.
Qed.

Lemma temporal_lines_kind (rt : Runtime) (summary date : str) (time tz : option str)
  (duration : Z) (temporal : list str) :
  temporal_lines rt summary date time tz duration = Ok temporal ->
  has_line (lit "DTSTART;VALUE=DATE:") temporal = negb (is_some time)
  /\ has_line (lit "DTEND;") temporal = negb (is_some time)
  /\ has_line (lit "DTSTART;TZID=") temporal = is_some time
  /\ has_line (lit "DURATION:") temporal = is_some time && negb (duration =? 0).
Proof.
  unfold temporal_lines. intros H. destruct time as [t|]; cbn [is_some negb andb].
  - destruct (nonempty tz) as [z|]; [|discriminate]. apply Ok_inj in H. subst temporal.
    cbn [app].
    rewrite (has_line_skip (lit "DTSTART;VALUE=DATE:")) by reflexivity.
    rewrite (has_line_skip (lit "DTEND;")) by reflexivity.
    rewrite (has_line_skip (lit "DURATION:")) by reflexivity.
    split; [|split; [|split]].
    + destruct (negb (duration =? 0)); [|reflexivity].
      apply has_line_differ. reflexivity.
    + destruct (negb (duration =? 0)); [|reflexivity].
      apply has_line_differ. reflexivity.
    + apply has_line_here.
    + destruct (negb (duration =? 0)); [|reflexivity].
      apply has_line_here.
  - destruct (strptime rt date) as [d|e]; [|discriminate]. cbn [bind] in H.
    destruct (add_one_day d) as [next|e]; [|discriminate]. cbn [bind] in H.
    apply Ok_inj in H. subst temporal.
    split; [|split; [|split]].
    + apply has_line_here.
    + rewrite has_line_skip by reflexivity.
      apply (has_line_prefix (lit "DTEND;") (lit "VALUE=DATE:")).
    + rewrite !(has_line_skip (lit "DTSTART;TZID=")) by reflexivity. reflexivity.
    + rewrite !(has_line_skip (lit "DURATION:")) by reflexivity. reflexivity.
Qed.

(** X14. The lines of a built event by its kind. An event without a time has
    a start date and an end date and neither a start with a time zone nor a
    duration, whatever duration the record or the defaults give; an event
    with a time has a start with a time zone, no end date, and a duration
    line exactly when its effective duration is not zero, a negative one
    included. Either kind has an alarm exactly when the effective reminder is
    positive. The effective duration and reminder are the event's own when
    it has one, else the one of the defaults, else 60 and 0. *)
Theorem event_lines_by_kind (rt : Runtime) (n : nat) (event : Event)
  (defaults : Defaults) (lines : list str) :
  vevent_lines rt n event defaults = Ok lines ->
  has_line (lit "DTSTART;VALUE=DATE:") lines = negb (is_some (e_time event))
  /\ has_line (lit "DTEND;") lines = negb (is_some (e_time event))
  /\ has_line (lit "DTSTART;TZID=") lines = is_some (e_time event)
  /\ has_line (lit "DURATION:") lines
     = is_some (e_time event)
       && negb (inherited_minutes (e_duration_minutes event)
                  (d_duration_minutes defaults) 60 =? 0)
  /\ has_line (lit "BEGIN:VALARM") lines
     = (0 <? inherited_minutes (e_reminder_minutes event)
               (d_reminder_minutes defaults) 0).
Proof.
  intros H. rewrite <- effective_duration_inherited, <- effective_reminder_inherited.
  destruct (vevent_lines_ok rt n event defaults lines H)
    as [date [summary [temporal [status [transp
         [Hd [Hs [Hre [Hct [Ht [Hst [Htr ->]]]]]]]]]]]].
  destruct (temporal_lines_kind _ _ _ _ _ _ _ Ht) as [K1 [K2 [K3 K4]]].
  rewrite (has_line_layout (lit "DTSTART;VALUE=DATE:")) by reflexivity.
  rewrite (has_line_layout (lit "DTEND;")) by reflexivity.
  rewrite (has_line_layout (lit "DTSTART;TZID=")) by reflexivity.
  rewrite (has_line_layout (lit "DURATION:")) by reflexivity.
  rewrite (has_line_layout (lit "BEGIN:VALARM")) by reflexivity.
  rewrite K1, K2, K3, K4.
  rewrite !(has_line_checked _ _ _ _ _ _ Hst) by reflexivity.
  rewrite !(has_line_checked _ _ _ _ _ _ Htr) by reflexivity.
  rewrite !(has_line_alarm (lit "DTSTART;VALUE=DATE:")) by reflexivity.
  rewrite !(has_line_alarm (lit "DTEND;")) by reflexivity.
  rewrite !(has_line_alarm (lit "DTSTART;TZID=")) by reflexivity.
  rewrite !(has_line_alarm (lit "DURATION:")) by reflexivity.
  rewrite (has_line_temporal rt (lit "BEGIN:VALARM") _ _ _ _ _ _ Ht) by reflexivity.
  rewrite !orb_false_r. cbn [orb].
  repeat split.
  unfold alarm_lines. destruct (0 <? effective_reminder event defaults); reflexivity.
Qed.

Lemma event_lines_by_kind_witness :
  exists lines,
    vevent_lines ascii_runtime 0
      (allday_event (lit "2024-03-10") (lit "Launch")) utc_defaults = Ok lines
    /\ has_line (lit "DTEND;") lines = true
    /\ has_line (lit "DURATION:") lines = false.
Proof.
  eexists. split; [vm_compute; reflexivity|].
  destruct (event_lines_by_kind ascii_runtime 0
              (allday_event (lit "2024-03-10") (lit "Launch")) utc_defaults _
              ltac:(vm_compute; reflexivity))
    as [_ [H2 [_ [H4 _]]]].
  split; [exact H2|exact H4].
Defined.

(** ** Durations below zero *)

(** X15. The token of a negative number of minutes, which the generator
    writes as it does a positive one: the hours are the quotient rounded
    down, so they are negative and always written, and the minutes are the
    remainder from 0 to 59, written when they are not zero; minus thirty
    minutes is minus one hour and thirty minutes. *)
Theorem duration_parts_negative (prefix : str) (total : Z) :
  total < 0 ->
  total / 60 < 0 /\ 0 <= total mod 60 < 60
  /\ total = 60 * (total / 60) + total mod 60
  /\ duration_parts prefix total
     = prefix ++ str_of_int (total / 60) ++ [72]
       ++ (if total mod 60 =? 0 then [] else str_of_int (total mod 60) ++ [77]).
Proof.
  intros H.
  assert (H1 : total / 60 < 0) by (apply Z.div_lt_upper_bound; lia).
  assert (H2 : 0 <= total mod 60 < 60) by (apply Z.mod_pos_bound; lia).
  split; [exact H1|]. split; [exact H2|].
  split; [apply Z.div_mod; lia|].
  unfold duration_parts.
  destruct (Z.eqb_spec (total / 60) 0) as [E|_]; [lia|].
  destruct (Z.eqb_spec (total mod 60) 0); cbn [negb andb];
    rewrite <- ?app_assoc, ?app_nil_r; reflexivity.
Qed.

Lemma duration_parts_negative_witness :
  duration_parts (lit "PT") (-30) = lit "PT-1H30M".
Proof.
  destruct (duration_parts_negative (lit "PT") (-30) ltac:(lia)) as [_ [_ [_ H]]].
  rewrite H. reflexivity.
Defined.

(** ** The clock and the random draw *)

(** X16. Building the same event at another place of the run, with another
    reading of the clock and another random identifier, succeeds as well and
    gives the same lines but for the second and the third, UID and
    DTSTAMP. *)
Theorem vevent_lines_draw (rt : Runtime) (n m : nat) (event : Event)
  (defaults : Defaults) (lines : list str) :
  vevent_lines rt n event defaults = Ok lines ->
  exists others,
    vevent_lines rt m event defaults = Ok others
    /\ length others = length lines
    /\ forall i, i <> 1%nat -> i <> 2%nat -> nth_error others i = nth_error lines i.
Proof.
  intros H.
  destruct (vevent_lines_ok rt n event defaults lines H)
    as [date [summary [temporal [status [transp
         [Hd [Hs [Hre [Hct [Ht [Hst [Htr ->]]]]]]]]]]]].
  rewrite (vevent_lines_unfold rt m event defaults date summary Hd Hs).
  rewrite Hre, Hct. cbn [bind]. rewrite Ht. cbn [bind]. rewrite Hst, Htr. cbn [bind].
  eexists. split; [reflexivity|].
  unfold event_layout. cbn [app length]. split; [reflexivity|].
  intros [|[|[|i]]] H1 H2; try reflexivity; congruence.
Qed.

Lemma vevent_lines_draw_witness :
  exists lines others,
    vevent_lines ascii_runtime 0 sync_event no_defaults = Ok lines
    /\ vevent_lines ascii_runtime 1 sync_event no_defaults = Ok others
    /\ nth_error others 3 = nth_error lines 3.
Proof.
  eexists.
  destruct (vevent_lines_draw ascii_runtime 0 1 sync_event no_defaults _
              ltac:(vm_compute; reflexivity))
    as [others [H1 [_ H3]]].
  exists others. split; [vm_compute; reflexivity|]. split; [exact H1|].
  apply H3; discriminate.
Defined.

(** ** Defaults that an event without a time does not read *)

Lemma vevent_lines_allday_defaults (rt : Runtime) (n : nat) (event : Event)
  (d1 d2 : Defaults) :
  e_time event = None ->
  effective_reminder event d1 = effective_reminder event d2 ->
  vevent_lines rt n event d1 = vevent_lines rt n event d2.
Proof.
  intros Et Hr.
  destruct (nonempty (e_date event)) as [date|] eqn:Hd;
    [|rewrite !vevent_lines_missing by (left; exact Hd); reflexivity].
  destruct (nonempty (e_summary event)) as [summary|] eqn:Hs;
    [|rewrite !vevent_lines_missing by (right; exact Hs); reflexivity].
  rewrite !(vevent_lines_unfold rt n event _ date summary Hd Hs).
  rewrite Et, Hr. unfold temporal_lines. reflexivity.
Qed.

Lemma build_events_allday_defaults (rt : Runtime) (d1 d2 : Defaults)
  (events : list Event) :
  d_reminder_minutes d1 = d_reminder_minutes d2 ->
  Forall (fun event => e_time event = None) events ->
  forall n lines,
    build_events rt n events d1 lines = build_events rt n events d2 lines.
Proof.
  intros Hr HF. induction HF as [|event events Et HF IH]; intros n lines; [reflexivity|].
  cbn [build_events]. unfold build_vevent.
  rewrite (vevent_lines_allday_defaults rt n event d1 d2 Et)
    by (unfold effective_reminder; rewrite Hr; reflexivity).
  destruct (vevent_lines rt n event d2); cbn [bind]; [apply IH|reflexivity].
Qed.

(** X17. A document whose events all have no time gives the same calendar,
    or the same error, whatever time zone and whatever duration its root
    object sets: those defaults are read by events with a time only. *)
Theorem generate_ics_allday_defaults (rt : Runtime) (data1 data2 : Document) :
  doc_events data1 = doc_events data2 ->
  doc_reminder_minutes data1 = doc_reminder_minutes data2 ->
  (forall events, doc_events data1 = Some events ->
     Forall (fun event => e_time event = None) events) ->
  generate_ics rt data1 = generate_ics rt data2.
Proof.
  intros He Hr Hall. unfold generate_ics. rewrite <- He.
  destruct (doc_events data1) as [events|] eqn:Ev; [|reflexivity].
  destruct (nonempty (Some events)) as [events'|] eqn:En; [|reflexivity].
  apply nonempty_value in En. assert (events' = events) by congruence. subst events'.
  rewrite (build_events_allday_defaults rt (document_defaults data1)
             (document_defaults data2) events);
    [reflexivity| |exact (Hall events eq_refl)].
  unfold document_defaults. cbn [d_reminder_minutes]. rewrite Hr. reflexivity.
Qed.

Lemma generate_ics_allday_defaults_witness :
  generate_ics ascii_runtime (allday_document (Some (lit "Europe/Madrid")) (Some 30))
  = generate_ics ascii_runtime (allday_document None None).
Proof.
  apply (generate_ics_allday_defaults ascii_runtime
           (allday_document (Some (lit "Europe/Madrid")) (Some 30))
           (allday_document None None)).
  - reflexivity.
  - reflexivity.
  - intros events H. injection H as <-. repeat constructor.
Defined.

(** ** The start of an event with a time *)

Lemma format_datetime_digits (y m dd h mi : Z) :
  0 <= y -> 0 <= m -> 0 <= dd -> 0 <= h <= 99 -> 0 <= mi <= 99 ->
  format_datetime (iso_date (y, m, dd)) (iso_time h mi)
  = date_token (y, m, dd) ++ [84] ++ time_token h mi.
Proof.
  intros Hy Hm Hd Hh Hmi. unfold format_datetime. rewrite !replace_char.
  unfold iso_date, iso_time, date_token, time_token, digits4, digits2.
  cbn [app flat_map].
  repeat match goal with
         | |- context [Z.eqb ?a 45] =>
             destruct (Z.eqb_spec a 45) as [E|_]; [exfalso; lia|]
         end.
  repeat match goal with
         | |- context [Z.eqb ?a 58] =>
             destruct (Z.eqb_spec a 58) as [E|_]; [exfalso; lia|]
         end.
  reflexivity.
Qed.

(** X18. An event with a time is built from any date and time that are
    digits in the places of the patterns: the month, the day, the hour and
    the minute are not held to the calendar or the clock. Its start line,
    the fourth of the event, is the time zone as given, a colon, the eight
    digits of the date, T, the four digits of the time and 00. *)
Theorem timed_event_start (rt : Runtime) (n : nat) (event : Event)
  (defaults : Defaults) (y m dd h mi : Z) :
  0 <= y <= 9999 -> 0 <= m <= 99 -> 0 <= dd <= 99 -> 0 <= h <= 99 -> 0 <= mi <= 99 ->
  e_date event = Some (iso_date (y, m, dd)) ->
  e_time event = Some (iso_time h mi) ->
  validated rt event defaults = true ->
  exists lines tz,
    nonempty (resolved_timezone event defaults) = Some tz
    /\ vevent_lines rt n event defaults = Ok lines
    /\ nth_error lines 3
       = Some (lit "DTSTART;TZID=" ++ tz ++ [58]
               ++ date_token (y, m, dd) ++ [84] ++ time_token h mi).
Proof.
  intros Hy Hm Hd Hh Hmi Ed Et Hv.
  destruct (validated_checks rt event defaults Hv)
    as [date [summary [status [transp [Hdate [Hs [Hre [Hct [Htz [Hst Htr]]]]]]]]]].
  assert (date = iso_date (y, m, dd)).
  { apply nonempty_value in Hdate. congruence. }
  subst date.
  specialize (Htz ltac:(congruence)).
  destruct (nonempty (resolved_timezone event defaults)) as [tz|] eqn:Etz; [|discriminate].
  rewrite (vevent_lines_unfold rt n event defaults _ summary Hdate Hs), Hre, Hct.
  cbn [bind]. rewrite Et.
  rewrite (temporal_lines_timed rt summary _ _ tz _ _ Etz), Hst, Htr. cbn [bind].
  eexists. exists tz. split; [reflexivity|]. split; [reflexivity|].
  unfold event_layout. cbn [app nth_error].
  rewrite format_datetime_digits by lia. reflexivity.
Qed.

Lemma timed_event_start_witness :
  exists lines,
    vevent_lines ascii_runtime 0
      (set_field Ftime (Some (lit "99:99"))
         (set_field Ftimezone (Some (lit "UTC"))
            (allday_event (lit "2024-13-45") (lit "Launch")))) no_defaults
    = Ok lines
    /\ nth_error lines 3 = Some (lit "DTSTART;TZID=UTC:20241345T999900").
Proof.
  destruct (timed_event_start ascii_runtime 0
              (set_field Ftime (Some (lit "99:99"))
                 (set_field Ftimezone (Some (lit "UTC"))
                    (allday_event (lit "2024-13-45") (lit "Launch")))) no_defaults
              2024 13 45 99 99)
    as [lines [tz [H1 [H2 H3]]]]; try lia; try reflexivity.
  exists lines. split; [exact H2|].
  rewrite H3. vm_compute in H1. injection H1 as <-. reflexivity.
Defined.

(** ** Identifiers *)

Lemma sub_runs_characters (rt : Runtime) (s : str) : forall in_run,
  Forall (fun c => (isword rt c || isspace rt c || (c =? 45)) = true) s ->
  Forall (fun c => c = 45 \/ (isword rt c = true /\ isspace rt c = false /\ c <> 95))
    (sub_runs (fun c => isspace rt c || (c =? 95)) [45] in_run s).
Proof.
  induction s as [|c s IH]; intros in_run HF; [constructor|].
  inversion HF as [|? ? Hc HF']; subst. cbn [sub_runs].
  destruct (isspace rt c || (c =? 95)) eqn:E.
  - apply Forall_app. split; [|apply IH; exact HF'].
    destruct in_run; [constructor|]. constructor; [left; reflexivity|constructor].
  - constructor; [|apply IH; exact HF'].
    apply orb_false_elim in E. destruct E as [E1 E2]. apply Z.eqb_neq in E2.
    rewrite E1, orb_false_r in Hc. apply orb_true_iff in Hc.
    destruct Hc as [Hc|Hc]; [right; repeat split; assumption|].
    left. apply Z.eqb_eq. exact Hc.
Qed.

Lemma Forall_firstn_of {A : Type} (P : A -> Prop) (k : nat) (l : list A) :
  Forall P l -> Forall P (firstn k l).
Proof.
  intros H. rewrite <- (firstn_skipn k l) in H. apply Forall_app in H. apply H.
Qed.

(** X19. A slug has at most forty characters, and each of them is a hyphen
    or a word character that is neither white space nor the underscore:
    nothing else of the summary reaches the identifier of an event. *)
Theorem slugify_characters (rt : Runtime) (text : str) :
  (length (slugify rt text) <= 40)%nat
  /\ Forall (fun c => c = 45 \/ (isword rt c = true /\ isspace rt c = false /\ c <> 95))
       (slugify rt text).
Proof.
  unfold slugify. split; [apply firstn_le_length|].
  apply Forall_firstn_of. apply sub_runs_characters.
  apply Forall_forall. intros c Hc. apply filter_In in Hc. apply Hc.
Qed.

(** X20. Two identifiers made for the same summary and date are equal exactly
    when the first eight hexadecimal digits of the two random draws are:
    nothing else of a draw is read. *)
Theorem generate_uid_draw (rt : Runtime) (n m : nat) (summary date : str) :
  generate_uid rt n summary date = generate_uid rt m summary date
  <-> firstn 8 (uuid4_hex rt n) = firstn 8 (uuid4_hex rt m).
Proof.
  unfold generate_uid. split.
  - intros H. apply app_inv_head in H. cbn [app] in H. injection H as H.
    apply app_inv_head in H. injection H as H. apply app_inv_tail in H. exact H.
  - intros ->. reflexivity.
Qed.
